(** * Function-calling assistant ([main.py]): model and verified properties

    A shallow embedding of class [RealLLMFunctionCalling]: the five tool
    adapters, the dispatcher [execute_function_call] and the orchestration
    loop [chat_with_function_calling].

    Conventions of the embedding.
    - Python values that travel as JSON (tool arguments, provider
      responses, tool results) are values of [json]; a [dict] is an
      association list in insertion order.  Finite numbers are exact
      rationals, a number whose denominator is 1 standing for an [int] and
      any other for a [float] (so 18 is [18 # 1] and 18.0 is [180 # 10]);
      the floats [inf], [-inf] and [nan] are values of their own.  [round]
      of a finite number is taken from the environment.
    - A Python call that may raise returns an [Outcome]: [Ret v] or
      [Raise e].  Exceptions are those below [Exception]; interpreter
      signals such as [KeyboardInterrupt] are outside the model.
    - The outside world (model endpoint, HTTP, yfinance, SMTP, clock,
      process environment, the [json] module) is an [Env] of oracles.  Each
      oracle sees the events performed so far, so the world may answer the
      same request differently at different times.
    - Every external action is recorded as an [Event]; a computation returns
      the events it performed.  Diagnostic [print]s of the dispatcher and of
      the loop are not recorded; the prints of the messaging adapter are,
      since they are that tool's delivery. *)

From Stdlib Require Import ZArith QArith List String Ascii Bool Lia Sorted.
From Stdlib Require Import DecimalString Qround.
From ExtLib Require Import Structures.Monad.
Import ListNotations MonadNotation.
Close Scope Q_scope.
Local Open Scope string_scope.
Local Open Scope list_scope.
Local Open Scope monad_scope.

Set Implicit Arguments.
Set Warnings "-register-all".

(** String concatenation, as [+] and f-strings do it. *)
Infix "+++" := String.append (right associativity, at level 60).

(** ** Python values *)

(** The floats that are no rational number. *)
Inductive NonFinite : Type :=
| PosInf
| NegInf
| NaN.

Inductive json : Type :=
| JNull
| JBool (b : bool)
| JNum (q : Q)
| JNonFinite (x : NonFinite)
| JStr (s : string)
| JList (items : list json)
| JDict (entries : list (string * json)).

(** [d.get(k)] on the entries of a dict. *)
Fixpoint assoc {A : Type} (k : string) (d : list (string * A)) : option A :=
  match d with
  | [] => None
  | (k', v) :: rest => if String.eqb k k' then Some v else assoc k rest
  end.

Definition has_key {A : Type} (k : string) (d : list (string * A)) : bool :=
  match assoc k d with Some _ => true | None => false end.

Definition type_name (v : json) : string :=
  match v with
  | JNull => "NoneType"
  | JBool _ => "bool"
  | JNum q => if Pos.eqb (Qden q) 1 then "int" else "float"
  | JNonFinite _ => "float"
  | JStr _ => "str"
  | JList _ => "list"
  | JDict _ => "dict"
  end.

(** Truth value of an object, as tested by [if v] and [v if c else w]. *)
Definition truthy (v : json) : bool :=
  match v with
  | JNull => false
  | JBool b => b
  | JNum q => negb (Qeq_bool q (0 # 1))
  | JNonFinite _ => true
  | JStr s => match s with EmptyString => false | String _ _ => true end
  | JList l => match l with [] => false | _ => true end
  | JDict d => match d with [] => false | _ => true end
  end.

(** [==] against a string literal. *)
Definition eq_str (v : json) (s : string) : bool :=
  match v with
  | JStr t => String.eqb t s
  | _ => false
  end.

(** ** Exceptions *)

(** The classes the handlers of the source tell apart; a class stands for
    itself and its subclasses ([RequestException] for [HTTPError],
    [ConnectionError], [Timeout] and the decoding error of
    [response.json()]; [ValueError] for [json.JSONDecodeError]). *)
Inductive ExcClass : Type :=
| RateLimitError
| APITimeoutError
| RequestException
| KeyError
| TypeError
| ImportError
| IndexError
| AttributeError
| ValueError
| OtherException.

(** An exception with the text [str(e)] gives for it. *)
Record Exc : Type := mkExc { exc_class : ExcClass; exc_str : string }.

Inductive Outcome (A : Type) : Type :=
| Ret (a : A)
| Raise (e : Exc).

Arguments Ret {A} a.
Arguments Raise {A} e.

#[export] Instance Monad_Outcome : Monad Outcome :=
  {| ret := fun A (a : A) => Ret a;
     bind := fun A B (m : Outcome A) (f : A -> Outcome B) =>
               match m with
               | Ret a => f a
               | Raise e => Raise e
               end |}.

Definition is_ret {A : Type} (o : Outcome A) : bool :=
  match o with Ret _ => true | Raise _ => false end.

(** ** Operations of the interpreter on JSON values *)

Definition quote (s : string) : string := "'" +++ s +++ "'".

Definition not_subscriptable (v : json) : Exc :=
  mkExc TypeError (quote (type_name v) +++ " object is not subscriptable").

(** [obj[key]] for a string key. *)
Definition getitem (obj : json) (key : string) : Outcome json :=
  match obj with
  | JDict d =>
      match assoc key d with
      | Some v => Ret v
      | None => Raise (mkExc KeyError (quote key))
      end
  | JStr _ => Raise (mkExc TypeError "string indices must be integers")
  | JList _ =>
      Raise (mkExc TypeError "list indices must be integers or slices, not str")
  | _ => Raise (not_subscriptable obj)
  end.

(** [obj[0]]. *)
Definition getitem0 (obj : json) : Outcome json :=
  match obj with
  | JList (x :: _) => Ret x
  | JList [] => Raise (mkExc IndexError "list index out of range")
  | JStr (String c _) => Ret (JStr (String c EmptyString))
  | JStr EmptyString => Raise (mkExc IndexError "string index out of range")
  | JDict _ => Raise (mkExc KeyError "0")
  | _ => Raise (not_subscriptable obj)
  end.

Definition no_attribute (v : json) (attr : string) : Exc :=
  mkExc AttributeError
        (quote (type_name v) +++ " object has no attribute " +++ quote attr).

(** [MIMEText(text, "plain", "utf-8")]: the text is encoded when it is a
    string; any other value passes when it is false and has no [encode]
    when it is true. *)
Definition mime_text (text : json) : Outcome unit :=
  match text with
  | JStr _ => Ret tt
  | _ => if truthy text then Raise (no_attribute text "encode") else Ret tt
  end.

(** [obj.get(key, default)]. *)
Definition dict_get (obj : json) (key : string) (default : json) : Outcome json :=
  match obj with
  | JDict d =>
      match assoc key d with
      | Some v => Ret v
      | None => Ret default
      end
  | _ => Raise (no_attribute obj "get")
  end.

Definition bool_num (b : bool) : Q := if b then 1 # 1 else 0 # 1.

(** [round(v, ndigits)], with the rounding of numbers [rnd] left to the
    environment. *)
Definition py_round (rnd : Q -> Z -> Q) (v : json) (ndigits : Z) : Outcome json :=
  match v with
  | JNum q => Ret (JNum (rnd q ndigits))
  | JNonFinite x => Ret (JNonFinite x)
  | JBool b => Ret (JNum (bool_num b))
  | _ =>
      Raise (mkExc TypeError
               ("type " +++ type_name v +++ " doesn't define __round__ method"))
  end.

(** [v / 1000]. *)
Definition div1000 (v : json) : Outcome json :=
  match v with
  | JNum q => Ret (JNum (q / (1000 # 1))%Q)
  | JNonFinite x => Ret (JNonFinite x)
  | JBool b => Ret (JNum (bool_num b / (1000 # 1))%Q)
  | _ =>
      Raise (mkExc TypeError
               ("unsupported operand type(s) for /: " +++ quote (type_name v)
                +++ " and 'int'"))
  end.

Fixpoint chars (s : string) : list json :=
  match s with
  | EmptyString => []
  | String c rest => JStr (String c EmptyString) :: chars rest
  end.

(** The elements a [for] loop sees in [obj[:5]]. *)
Definition slice5 (obj : json) : Outcome (list json) :=
  match obj with
  | JList l => Ret (firstn 5 l)
  | JStr s => Ret (firstn 5 (chars s))
  | JDict _ => Raise (mkExc TypeError "unhashable type: 'slice'")
  | _ => Raise (not_subscriptable obj)
  end.

(** ** Calling a method with [**arguments] *)

(** The binding of keyword arguments to the parameters of a method raises
    [TypeError] for arguments that are not a mapping, for a key that is no
    parameter, and for parameters without default that are not given.  The
    texts are those of CPython 3.11 for a method of the class, the program
    being run as the script it is: the name of the method is qualified by
    the class, and by the module as well in the text about the mapping; the
    first key that is no parameter is named; all missing parameters are
    named at once.  The checks come in this order. *)

Definition class_name : string := "RealLLMFunctionCalling".

Definition module_name : string := "__main__".

Definition qualified (fname : string) : string := class_name +++ "." +++ fname.

Definition decimal (n : nat) : string :=
  NilZero.string_of_uint (Nat.to_uint n).

Fixpoint listed_tail (names : list string) : string :=
  match names with
  | [] => EmptyString
  | [last] => ", and " +++ quote last
  | name :: rest => ", " +++ quote name +++ listed_tail rest
  end.

(** The names as the text about missing parameters lists them: ['a'],
    ['a' and 'b'], ['a', 'b', and 'c']. *)
Definition listed (names : list string) : string :=
  match names with
  | [] => EmptyString
  | [a] => quote a
  | [a; b] => quote a +++ " and " +++ quote b
  | a :: rest => quote a +++ listed_tail rest
  end.

Definition missing_arguments (fname : string) (missing : list string) : Exc :=
  mkExc TypeError
        (qualified fname +++ "() missing " +++ decimal (List.length missing)
         +++ " required positional argument"
         +++ match missing with [_] => EmptyString | _ => "s" end
         +++ ": " +++ listed missing).

Fixpoint first_unexpected (params : list string) (d : list (string * json))
  : option string :=
  match d with
  | [] => None
  | (k, _) :: rest =>
      if existsb (String.eqb k) params then first_unexpected params rest
      else Some k
  end.

(** The keyword check of a call of [f] with [**arguments]: [arguments] must be a
    mapping and each of its keys a parameter of [f]. *)
Definition keywords (fname : string) (params : list string) (arguments : json)
  : Outcome (list (string * json)) :=
  match arguments with
  | JDict d =>
      match first_unexpected params d with
      | None => Ret d
      | Some k =>
          Raise (mkExc TypeError
                   (qualified fname +++ "() got an unexpected keyword argument "
                    +++ quote k))
      end
  | _ =>
      Raise (mkExc TypeError
               (module_name +++ "." +++ qualified fname
                +++ "() argument after ** must be a mapping, not "
                +++ type_name arguments))
  end.

(** The parameter [p], one of the parameters [positional] of the method
    that have no default. *)
Definition required (fname : string) (positional : list string)
                    (kwargs : list (string * json)) (p : string)
  : Outcome json :=
  match assoc p kwargs with
  | Some v => Ret v
  | None =>
      Raise (missing_arguments
               fname (filter (fun q => negb (has_key q kwargs)) positional))
  end.

(** A parameter with a default. *)
Definition optional (kwargs : list (string * json)) (p : string) (default : json)
  : json :=
  match assoc p kwargs with
  | Some v => v
  | None => default
  end.

(** ** Conversation data *)

(** A tool invocation in a model response: [tool_call.id],
    [tool_call.type], [tool_call.function.name] and
    [tool_call.function.arguments] (a JSON text). *)
Record FunctionCall : Type := mkFunctionCall {
  fn_name : string;
  fn_arguments : string
}.

Record ToolCall : Type := mkToolCall {
  tc_id : string;
  tc_type : string;
  tc_function : FunctionCall
}.

(** [response.choices[i].message]: [content] may be [None], and so may
    [tool_calls]. *)
Record Message : Type := mkMessage {
  msg_content : option string;
  msg_tool_calls : option (list ToolCall)
}.

Record ChatCompletion : Type := mkChatCompletion {
  choices : list Message
}.

(** The dict [{"name": ..., "arguments": ...}] and the dict
    [{"id": ..., "type": ..., "function": ...}] stored in the history. *)
Record FunctionEntry : Type := mkFunctionEntry {
  entry_name : string;
  entry_arguments : string
}.

Record ToolCallEntry : Type := mkToolCallEntry {
  entry_id : string;
  entry_type : string;
  entry_function : FunctionEntry
}.

(** An element of [conversation_history].  [content] is always a key of the
    dict (its value may be [None]); [tool_calls] and [tool_call_id] are
    [None] when the key is absent. *)
Record Turn : Type := mkTurn {
  role : string;
  content : option string;
  tool_calls : option (list ToolCallEntry);
  tool_call_id : option string
}.

Definition user_turn (user_message : string) : Turn :=
  mkTurn "user" (Some user_message) None None.

Definition tool_call_entry (tool_call : ToolCall) : ToolCallEntry :=
  mkToolCallEntry (tc_id tool_call) (tc_type tool_call)
    (mkFunctionEntry (fn_name (tc_function tool_call))
                     (fn_arguments (tc_function tool_call))).

Definition assistant_tool_turn (assistant_message : Message)
                               (calls : list ToolCall) : Turn :=
  mkTurn "assistant" (msg_content assistant_message)
         (Some (map tool_call_entry calls)) None.

Definition tool_turn (result_text : string) (tool_call : ToolCall) : Turn :=
  mkTurn "tool" (Some result_text) None (Some (tc_id tool_call)).

Definition assistant_turn (final_message : option string) : Turn :=
  mkTurn "assistant" final_message None None.

(** ** The outside world *)

(** What [requests.get] returns: [raise_for_status()] and [json()] of the
    response. *)
Record HttpResponse : Type := mkHttpResponse {
  status : Outcome unit;
  body : Outcome json
}.

(** A row of the price history of [yfinance]. *)
Record Bar : Type := mkBar {
  bar_open : Q;
  bar_high : Q;
  bar_low : Q;
  bar_close : Q;
  bar_volume : Z
}.

(** The [MIMEMultipart] message of [send_email] with its one text part. *)
Record Email : Type := mkEmail {
  mail_from : string;
  mail_to : json;
  mail_subject : json;
  mail_text : json
}.

Record SmtpSession : Type := mkSmtpSession {
  smtp_server : string;
  smtp_port : Z;
  login_user : string;
  login_password : string;
  smtp_message : Email
}.

Inductive Event : Type :=
| EvModelCall (with_tools : bool) (messages : list Turn)
              (out : Outcome ChatCompletion)
| EvSleep (wait_time : Z)
| EvHttpGet (url : string) (params : list (string * json))
            (out : Outcome HttpResponse)
| EvTickerInfo (symbol : json) (out : Outcome json)
| EvTickerHistory (symbol period : json) (out : Outcome (list Bar))
| EvSmtp (session : SmtpSession) (out : Outcome unit)
| EvPrint (text : string).

(** The oracles.  [past] is the list of events performed so far. *)
Record Env : Type := mkEnv {
  (** [os.getenv(name)] *)
  env_getenv : string -> option string;
  (** [datetime.now().strftime("%Y-%m-%d %H:%M:%S")] *)
  env_now : list Event -> string;
  (** [json.loads(text)] *)
  env_json_loads : string -> Outcome json;
  (** [json.dumps(value, ensure_ascii=False)] *)
  env_json_dumps : json -> Outcome string;
  (** [round(x, ndigits)] on a number *)
  env_round : Q -> Z -> Q;
  (** [int(text)] *)
  env_int : string -> Outcome Z;
  (** [str(value)] of a value that is not a string *)
  env_str : json -> string;
  (** [self.client.chat.completions.create(...)]; the flag tells whether
      [tools] and [tool_choice] are passed *)
  env_create : list Event -> bool -> list Turn -> Outcome ChatCompletion;
  (** [requests.get(url, params=params, timeout=10)] *)
  env_requests_get :
    list Event -> string -> list (string * json) -> Outcome HttpResponse;
  (** [import yfinance] *)
  env_import_yfinance : Outcome unit;
  (** [yf.Ticker(symbol).info] *)
  env_ticker_info : list Event -> json -> Outcome json;
  (** [yf.Ticker(symbol).history(period=period)] *)
  env_ticker_history : list Event -> json -> json -> Outcome (list Bar);
  (** the [with smtplib.SMTP(...)] block: connect, [starttls], [login],
      [send_message], quit *)
  env_smtp : list Event -> SmtpSession -> Outcome unit
}.

(** ** Computations that act on the world *)

(** [IO A]: given the events of the past, an outcome and the events
    performed. *)
Definition IO (A : Type) : Type := list Event -> Outcome A * list Event.

#[export] Instance Monad_IO : Monad IO :=
  {| ret := fun A (a : A) (_ : list Event) => (Ret a, []);
     bind := fun A B (m : IO A) (f : A -> IO B) (past : list Event) =>
               match m past with
               | (Ret a, evs) =>
                   let (o, evs') := f a (past ++ evs) in (o, evs ++ evs')
               | (Raise e, evs) => (Raise e, evs)
               end |}.

(** A pure step that may raise. *)
Definition pure {A : Type} (o : Outcome A) : IO A := fun _ => (o, []).

(** An oracle call, recorded with its answer. *)
Definition perform {A : Type} (oracle : list Event -> Outcome A)
                   (record : Outcome A -> Event) : IO A :=
  fun past => (oracle past, [record (oracle past)]).

Definition emit (ev : Event) : IO unit := fun _ => (Ret tt, [ev]).

(** [try: body  except Exception as e: handler e]. *)
Definition try_except {A : Type} (body : IO A) (handler : Exc -> IO A) : IO A :=
  fun past =>
    match body past with
    | (Ret a, evs) => (Ret a, evs)
    | (Raise e, evs) =>
        let (o, evs') := handler e (past ++ evs) in (o, evs ++ evs')
    end.

(** [M A]: a computation of the orchestration loop.  It reads and extends
    [self.conversation_history] and acts on the world.  The history an
    aborted computation leaves behind is kept with the exception. *)
Definition M (A : Type) : Type :=
  list Turn -> list Event -> Outcome A * list Turn * list Event.

#[export] Instance Monad_M : Monad M :=
  {| ret := fun A (a : A) (h : list Turn) (_ : list Event) => (Ret a, h, []);
     bind := fun A B (m : M A) (f : A -> M B) (h : list Turn)
                 (past : list Event) =>
               match m h past with
               | (Ret a, h1, evs) =>
                   match f a h1 (past ++ evs) with
                   | (o, h2, evs') => (o, h2, evs ++ evs')
                   end
               | (Raise e, h1, evs) => (Raise e, h1, evs)
               end |}.

(** A world action inside the loop. *)
Definition io {A : Type} (m : IO A) : M A :=
  fun h past => let (o, evs) := m past in (o, h, evs).

(** [self.conversation_history.append(turn)]. *)
Definition append_history (turn : Turn) : M unit :=
  fun h _ => (Ret tt, h ++ [turn], []).

(** ** The assistant *)

Definition ToolResult : Type := json.

(** The two shapes of dict the adapters and the dispatcher return. *)
Definition success (data : json) : ToolResult :=
  JDict [("success", JBool true); ("data", data)].

Definition failure (error : string) : ToolResult :=
  JDict [("success", JBool false); ("error", JStr error)].

(** [obj[a][b]]. *)
Definition getitem2 (obj : json) (a b : string) : Outcome json :=
  x <- getitem obj a;; getitem x b.

(** Positional indexing [series.iloc[i]], negative [i] counting from the
    end. *)
Definition iloc {A : Type} (series : list A) (i : Z) : Outcome A :=
  let n := Z.of_nat (List.length series) in
  let j := if (i <? 0)%Z then (n + i)%Z else i in
  match (if (0 <=? j)%Z then nth_error series (Z.to_nat j) else None) with
  | Some x => Ret x
  | None => Raise (mkExc IndexError "single positional indexer is out-of-bounds")
  end.

(** A float of numpy: a rational, or [inf], [-inf], [nan]. *)
Inductive Float : Type :=
| Finite (q : Q)
| Special (x : NonFinite).

(** [a / b] on floats of numpy: a zero divisor raises nothing and gives
    [nan] for a zero dividend and an infinity of the dividend's sign
    otherwise. *)
Definition float_div (a b : Q) : Float :=
  if Qeq_bool b (0 # 1)
  then Special (if Qeq_bool a (0 # 1) then NaN
                else if Qle_bool (0 # 1) a then PosInf else NegInf)
  else Finite (a / b)%Q.

(** [x * c] for a positive [c]. *)
Definition float_mul (x : Float) (c : Q) : Float :=
  match x with
  | Finite q => Finite (q * c)%Q
  | Special s => Special s
  end.

Definition Qmax (a b : Q) : Q := if Qle_bool a b then b else a.
Definition Qmin (a b : Q) : Q := if Qle_bool a b then a else b.

(** [series.max()] and [series.min()] of a series with at least one row. *)
Definition series_max (series : list Q) : Q :=
  match series with
  | [] => 0 # 1
  | x :: rest => fold_left Qmax rest x
  end.

Definition series_min (series : list Q) : Q :=
  match series with
  | [] => 0 # 1
  | x :: rest => fold_left Qmin rest x
  end.

Definition stars : string := "********************".

Section Assistant.

Variable env : Env.

(** [os.getenv(name, default)]. *)
Definition getenv (name default : string) : string :=
  match env_getenv env name with
  | Some v => v
  | None => default
  end.

Definition now : IO string := fun past => (Ret (env_now env past), []).

Definition round_to (v : json) (ndigits : Z) : Outcome json :=
  py_round (env_round env) v ndigits.

Definition requests_get (url : string) (params : list (string * json))
  : IO HttpResponse :=
  perform (fun past => env_requests_get env past url params)
          (EvHttpGet url params).

(** *** get_real_weather *)

(** The entries of [weather_info] before the timestamp, evaluated in the
    order of the dict display. *)
Definition weather_fields (data units : json) : Outcome (list (string * json)) :=
  city <- getitem data "name";;
  country <- getitem2 data "sys" "country";;
  temp <- getitem2 data "main" "temp";;
  temperature <- round_to temp 1;;
  feels <- getitem2 data "main" "feels_like";;
  feels_like <- round_to feels 1;;
  humidity <- getitem2 data "main" "humidity";;
  pressure <- getitem2 data "main" "pressure";;
  weather <- getitem data "weather";;
  weather0 <- getitem0 weather;;
  description <- getitem weather0 "description";;
  wind_speed <- getitem2 data "wind" "speed";;
  seen <- dict_get data "visibility" JNull;;
  visibility <- (if truthy seen
                 then (v <- dict_get data "visibility" (JStr "未知");; div1000 v)
                 else Ret (JStr "未知"));;
  ret [("city", city);
       ("country", country);
       ("temperature", temperature);
       ("feels_like", feels_like);
       ("humidity", humidity);
       ("pressure", pressure);
       ("description", description);
       ("wind_speed", wind_speed);
       ("visibility", visibility);
       ("units", JStr (if eq_str units "metric" then "°C" else "°F"))].

Definition get_real_weather (city units : json) : IO ToolResult :=
  try_except
    (let api_key := getenv "OPENWEATHER_API_KEY" "your_openweather_api_key" in
     let url := "http://api.openweathermap.org/data/2.5/weather" in
     let params := [("q", city);
                    ("appid", JStr api_key);
                    ("units", units);
                    ("lang", JStr "zh_cn")] in
     response <- requests_get url params;;
     _ <- pure (status response);;
     data <- pure (body response);;
     fields <- pure (weather_fields data units);;
     timestamp <- now;;
     let weather_info := JDict (fields ++ [("timestamp", JStr timestamp)]) in
     ret (success weather_info))
    (fun e =>
       match exc_class e with
       | RequestException => ret (failure ("网络请求失败: " +++ exc_str e))
       | KeyError => ret (failure ("API响应格式错误: " +++ exc_str e))
       | _ => ret (failure ("未知错误: " +++ exc_str e))
       end).

(** *** search_news *)

(** The [params] dict of the request.  [category] is a parameter of the
    method and is not used. *)
Definition search_news_params (query category country : json)
  : list (string * json) :=
  let api_key := getenv "NEWS_API_KEY" "your_news_api_key" in
  [("q", query);
   ("apiKey", JStr api_key);
   ("language", JStr (if eq_str country "cn" then "zh" else "en"));
   ("sortBy", JStr "publishedAt");
   ("pageSize", JNum (5 # 1))].

Definition article_entry (article : json) : Outcome json :=
  title <- getitem article "title";;
  description <- getitem article "description";;
  url <- getitem article "url";;
  source <- getitem2 article "source" "name";;
  published_at <- getitem article "publishedAt";;
  ret (JDict [("title", title);
              ("description", description);
              ("url", url);
              ("source", source);
              ("published_at", published_at)]).

(** The [for article in ...] loop filling [articles]. *)
Fixpoint collect_articles (items : list json) : Outcome (list json) :=
  match items with
  | [] => Ret []
  | article :: rest =>
      entry <- article_entry article;;
      entries <- collect_articles rest;;
      ret (entry :: entries)
  end.

Definition search_news (query category country : json) : IO ToolResult :=
  try_except
    (let url := "https://newsapi.org/v2/everything" in
     let params := search_news_params query category country in
     response <- requests_get url params;;
     _ <- pure (status response);;
     data <- pure (body response);;
     listed <- pure (dict_get data "articles" (JList []));;
     items <- pure (slice5 listed);;
     articles <- pure (collect_articles items);;
     total_results <- pure (dict_get data "totalResults" (JNum (0 # 1)));;
     timestamp <- now;;
     ret (success (JDict [("query", query);
                          ("total_results", total_results);
                          ("articles", JList articles);
                          ("timestamp", JStr timestamp)])))
    (fun e => ret (failure ("新闻搜索失败: " +++ exc_str e))).

(** *** analyze_stock *)

(** Formatting of a value inside an f-string. *)
Definition py_str (v : json) : string :=
  match v with
  | JStr s => s
  | _ => env_str env v
  end.

Definition rounded (q : Q) (ndigits : Z) : json := JNum (env_round env q ndigits).

(** [round(x, ndigits)] of a float: [inf], [-inf] and [nan] stay. *)
Definition rounded_float (x : Float) (ndigits : Z) : json :=
  match x with
  | Finite q => rounded q ndigits
  | Special s => JNonFinite s
  end.

Definition analyze_stock (symbol period : json) : IO ToolResult :=
  try_except
    (_ <- pure (env_import_yfinance env);;
     info <- perform (fun past => env_ticker_info env past symbol)
                     (EvTickerInfo symbol);;
     hist <- perform (fun past => env_ticker_history env past symbol period)
                     (EvTickerHistory symbol period);;
     match hist with
     | [] => ret (failure ("未找到股票代码 " +++ py_str symbol +++ " 的数据"))
     | _ :: _ =>
         let Close := map bar_close hist in
         current_price <- pure (iloc Close (-1));;
         last <- pure (iloc Close (-1));;
         prior <- pure (iloc Close (-2));;
         let price_change := (last - prior)%Q in
         base <- pure (iloc Close (-2));;
         let price_change_percent :=
           float_mul (float_div price_change base) (100 # 1) in
         company_name <- pure (dict_get info "longName" symbol);;
         volume <- pure (iloc (map bar_volume hist) (-1));;
         market_cap <- pure (dict_get info "marketCap" JNull);;
         pe_ratio <- pure (dict_get info "trailingPE" JNull);;
         timestamp <- now;;
         let analysis_result :=
           JDict [("symbol", symbol);
                  ("company_name", company_name);
                  ("current_price", rounded current_price 2);
                  ("price_change", rounded price_change 2);
                  ("price_change_percent", rounded_float price_change_percent 2);
                  ("volume", JNum (inject_Z volume));
                  ("market_cap", market_cap);
                  ("pe_ratio", pe_ratio);
                  ("52_week_high", rounded (series_max (map bar_high hist)) 2);
                  ("52_week_low", rounded (series_min (map bar_low hist)) 2);
                  ("analysis_period", period);
                  ("timestamp", JStr timestamp)] in
         ret (success analysis_result)
     end)
    (fun e =>
       match exc_class e with
       | ImportError => ret (failure "需要安装yfinance库：pip install yfinance")
       | _ => ret (failure ("股票分析失败: " +++ exc_str e))
       end).

(** *** send_email *)

Definition send_email (to subject content : json) : IO ToolResult :=
  try_except
    (let server := getenv "SMTP_SERVER" "smtp.gmail.com" in
     port <- pure (env_int env (getenv "SMTP_PORT" "587"));;
     let sender_email := getenv "SENDER_EMAIL" "your_email@gmail.com" in
     let sender_password := getenv "SENDER_PASSWORD" "your_app_password" in
     _ <- pure (mime_text content);;
     let message := mkEmail sender_email to subject content in
     let session :=
       mkSmtpSession server port sender_email sender_password message in
     _ <- perform (fun past => env_smtp env past session) (EvSmtp session);;
     sent_at <- now;;
     ret (success (JDict [("to", to);
                          ("subject", subject);
                          ("sent_at", JStr sent_at);
                          ("message", JStr "邮件发送成功")])))
    (fun e => ret (failure ("邮件发送失败: " +++ exc_str e))).

(** *** send_message_with_weixin *)

Definition send_message_with_weixin (user_name content : json) : IO ToolResult :=
  try_except
    (_ <- emit (EvPrint stars);;
     _ <- emit (EvPrint (py_str content));;
     _ <- emit (EvPrint stars);;
     sent_at <- now;;
     ret (success (JDict [("user_name", user_name);
                          ("sent_at", JStr sent_at);
                          ("message", JStr "信息发送成功")])))
    (fun e => ret (failure ("信息发送失败: " +++ exc_str e))).

(** *** execute_function_call *)

(** A bound method, called with [**arguments]. *)
Definition Adapter : Type := json -> IO ToolResult.

Definition call_get_real_weather : Adapter := fun arguments =>
  let f := "get_real_weather" in
  kwargs <- pure (keywords f ["city"; "units"] arguments);;
  city <- pure (required f ["city"] kwargs "city");;
  get_real_weather city (optional kwargs "units" (JStr "metric")).

Definition call_search_news : Adapter := fun arguments =>
  let f := "search_news" in
  kwargs <- pure (keywords f ["query"; "category"; "country"] arguments);;
  query <- pure (required f ["query"] kwargs "query");;
  search_news query (optional kwargs "category" (JStr "general"))
              (optional kwargs "country" (JStr "cn")).

Definition call_analyze_stock : Adapter := fun arguments =>
  let f := "analyze_stock" in
  kwargs <- pure (keywords f ["symbol"; "period"] arguments);;
  symbol <- pure (required f ["symbol"] kwargs "symbol");;
  analyze_stock symbol (optional kwargs "period" (JStr "1mo")).

Definition call_send_email : Adapter := fun arguments =>
  let f := "send_email" in
  kwargs <- pure (keywords f ["to"; "subject"; "content"] arguments);;
  let positional := ["to"; "subject"; "content"] in
  to <- pure (required f positional kwargs "to");;
  subject <- pure (required f positional kwargs "subject");;
  content <- pure (required f positional kwargs "content");;
  send_email to subject content.

Definition call_send_message_with_weixin : Adapter := fun arguments =>
  let f := "send_message_with_weixin" in
  kwargs <- pure (keywords f ["user_name"; "content"] arguments);;
  let positional := ["user_name"; "content"] in
  user_name <- pure (required f positional kwargs "user_name");;
  content <- pure (required f positional kwargs "content");;
  send_message_with_weixin user_name content.

Definition function_map : list (string * Adapter) :=
  [("get_real_weather", call_get_real_weather);
   ("search_news", call_search_news);
   ("analyze_stock", call_analyze_stock);
   ("send_email", call_send_email);
   ("send_message_with_weixin", call_send_message_with_weixin)].

(** The body of [execute_function_call] over a map [fmap] from names to
    bound methods. *)
Definition dispatch (fmap : list (string * Adapter))
                    (function_name : string) (arguments : json)
  : IO ToolResult :=
  match assoc function_name fmap with
  | None => ret (failure ("未知函数: " +++ function_name))
  | Some method =>
      try_except
        (result <- method arguments;;
         ret result)
        (fun e =>
           match exc_class e with
           | TypeError => ret (failure ("函数参数错误: " +++ exc_str e))
           | _ => ret (failure ("函数执行异常: " +++ exc_str e))
           end)
  end.

Definition execute_function_call (function_name : string) (arguments : json)
  : IO ToolResult :=
  dispatch function_map function_name arguments.

(** *** chat_with_function_calling *)

(** A call of [self.client.chat.completions.create] on the whole history,
    with or without the tools. *)
Definition create (with_tools : bool) : M ChatCompletion :=
  fun messages past =>
    let out := env_create env past with_tools messages in
    (out, messages, [EvModelCall with_tools messages out]).

(** [response.choices[0].message]. *)
Definition first_message (response : ChatCompletion) : Outcome Message :=
  match choices response with
  | m :: _ => Ret m
  | [] => Raise (mkExc IndexError "list index out of range")
  end.

(** One round of the loop [for tool_call in assistant_message.tool_calls]. *)
Definition run_tool_call (tool_call : ToolCall) : M unit :=
  let function_name := fn_name (tc_function tool_call) in
  function_args <-
    io (pure (env_json_loads env (fn_arguments (tc_function tool_call))));;
  function_result <- io (execute_function_call function_name function_args);;
  text <- io (pure (env_json_dumps env function_result));;
  append_history (tool_turn text tool_call).

Fixpoint run_tool_calls (calls : list ToolCall) : M unit :=
  match calls with
  | [] => ret tt
  | tool_call :: rest =>
      run_tool_call tool_call;;
      run_tool_calls rest
  end.

(** The body of the [try] statement. *)
Definition attempt : M (option string) :=
  response <- create true;;
  assistant_message <- io (pure (first_message response));;
  match msg_tool_calls assistant_message with
  | Some (tool_call :: rest) =>
      let calls := tool_call :: rest in
      append_history (assistant_tool_turn assistant_message calls);;
      run_tool_calls calls;;
      final_response <- create false;;
      final <- io (pure (first_message final_response));;
      let final_message := msg_content final in
      append_history (assistant_turn final_message);;
      ret final_message
  | _ =>
      let final_message := msg_content assistant_message in
      append_history (assistant_turn final_message);;
      ret final_message
  end.

Definition apology (e : Exc) : string :=
  "抱歉，我遇到了技术问题：" +++ exc_str e.

Definition exhausted : string :=
  "抱歉，在多次尝试后仍无法完成您的请求，请稍后再试。".

(** What a call of [chat_with_function_calling] hands back: the returned
    value ([None] when the model gave no text), the history and the
    events performed. *)
Definition Run : Type := (option string * list Turn * list Event)%type.

(** [events] happened before the rest of the run. *)
Definition after (events : list Event) (rest : option Run) : option Run :=
  match rest with
  | Some (answer, h, evs) => Some (answer, h, events ++ evs)
  | None => None
  end.

(** The [while retry_count < max_retries] loop; [fuel] bounds the number of
    rounds and [None] means that it ran out. *)
Fixpoint retry_loop (max_retries : Z) (fuel : nat) (retry_count : Z)
                    (h : list Turn) (past : list Event) : option Run :=
  if (retry_count <? max_retries)%Z then
    match fuel with
    | O => None
    | S fuel' =>
        match attempt h past with
        | (Ret final_message, h', evs) => Some (final_message, h', evs)
        | (Raise e, h', evs) =>
            match exc_class e with
            | RateLimitError =>
                let retry_count := (retry_count + 1)%Z in
                let wait_time := (2 ^ retry_count)%Z in
                let evs := evs ++ [EvSleep wait_time] in
                after evs (retry_loop max_retries fuel' retry_count h'
                                      (past ++ evs))
            | APITimeoutError =>
                let retry_count := (retry_count + 1)%Z in
                after evs (retry_loop max_retries fuel' retry_count h'
                                      (past ++ evs))
            | _ => Some (Some (apology e), h', evs)
            end
        end
    end
  else Some (Some exhausted, h, []).

Definition chat_with_function_calling (user_message : string)
                                      (max_retries : Z)
                                      (h : list Turn) (past : list Event)
  : option Run :=
  let h := h ++ [user_turn user_message] in
  let retry_count := 0%Z in
  retry_loop max_retries (Z.to_nat max_retries) retry_count h past.

End Assistant.

(** * Vocabulary of the properties *)

(** ** World actions *)

(** [m] returns, and what it returns satisfies [Q]. *)
Definition returns {A : Type} (Q : A -> Prop) (m : IO A) : Prop :=
  forall past, exists a, fst (m past) = Ret a /\ Q a.

(** Whatever [m] returns satisfies [Q]. *)
Definition returns_if {A : Type} (Q : A -> Prop) (m : IO A) : Prop :=
  forall past a, fst (m past) = Ret a -> Q a.

(** Every event [m] performs satisfies [P]. *)
Definition emits {A : Type} (P : Event -> Prop) (m : IO A) : Prop :=
  forall past, Forall P (snd (m past)).

(** ** Tool results *)

(** A result is fully populated: [success] is a boolean, a success carries
    [data] and no [error], a failure carries [error] and no [data]. *)
Definition well_formed (result : ToolResult) : bool :=
  match result with
  | JDict d =>
      match assoc "success" d with
      | Some (JBool true) => has_key "data" d && negb (has_key "error" d)
      | Some (JBool false) => has_key "error" d && negb (has_key "data" d)
      | _ => false
      end
  | _ => false
  end.

Definition populated (result : ToolResult) : Prop := well_formed result = true.

(** ** Events *)

(** The events of tools, as opposed to those of the loop. *)
Definition is_tool_event (ev : Event) : bool :=
  match ev with
  | EvModelCall _ _ _ => false
  | EvSleep _ => false
  | _ => true
  end.

Definition tool_event (ev : Event) : Prop := is_tool_event ev = true.

Definition is_model_call (ev : Event) : bool :=
  match ev with
  | EvModelCall _ _ _ => true
  | _ => false
  end.

(** The calls of the model endpoint among [evs], in order. *)
Definition model_calls (evs : list Event) : list Event :=
  filter is_model_call evs.

(** The waits among [evs], in order. *)
Definition waits (evs : list Event) : list Z :=
  flat_map (fun ev => match ev with EvSleep w => [w] | _ => [] end) evs.

(** What the retry policy is about: a call of the model, with the class of
    the exception it raised if it did, or a wait. *)
Inductive Step : Type :=
| Call (raised : option ExcClass)
| Wait (wait_time : Z).

Definition step_of (ev : Event) : list Step :=
  match ev with
  | EvModelCall _ _ (Ret _) => [Call None]
  | EvModelCall _ _ (Raise e) => [Call (Some (exc_class e))]
  | EvSleep w => [Wait w]
  | _ => []
  end.

Definition timeline (evs : list Event) : list Step := flat_map step_of evs.

(** The attempt numbers [1; 2; ...; n]. *)
Definition attempts (n : Z) : list Z := map Z.of_nat (seq 1 (Z.to_nat n)).

(** The timeline of failed attempts number [k], [k + 1], ... that raise
    the exceptions of classes [kinds]: a rate limit at attempt [k] is
    followed by a wait of [2 ^ k], a timeout by nothing. *)
Fixpoint schedule (k : Z) (kinds : list ExcClass) : list Step :=
  match kinds with
  | [] => []
  | c :: rest =>
      Call (Some c)
      :: match c with
         | RateLimitError => [Wait (2 ^ k)]
         | _ => []
         end
      ++ schedule (k + 1) rest
  end.

Definition is_call (s : Step) : bool :=
  match s with
  | Call _ => true
  | Wait _ => false
  end.

(** A failed attempt under a rate limit: the call, then the wait. *)
Definition rate_limited_attempt (k : Z) : list Step :=
  [Call (Some RateLimitError); Wait (2 ^ k)].

Definition retryable (c : ExcClass) : bool :=
  match c with
  | RateLimitError | APITimeoutError => true
  | _ => false
  end.

(** The exception of a call of the model that raised. *)
Definition failed_call (ev : Event) : option Exc :=
  match ev with
  | EvModelCall _ _ (Raise e) => Some e
  | _ => None
  end.

(** [ev] is not a call of the model that raised. *)
Definition quiet (ev : Event) : Prop := failed_call ev = None.

(** [ev] is not a call of the model that raised an exception the loop does
    not retry. *)
Definition tolerable (ev : Event) : Prop :=
  match failed_call ev with
  | Some e => retryable (exc_class e) = true
  | None => True
  end.

(** ** Turns *)

(** The tool turns for the first [length texts] of [calls]. *)
Definition tool_turns (texts : list string) (calls : list ToolCall) : list Turn :=
  map (fun p => tool_turn (fst p) (snd p)) (combine texts calls).

(** How many of [entries] carry the [tool_call_id] of [turn]. *)
Definition matching_entries (turn : Turn) (entries : list ToolCallEntry) : nat :=
  match tool_call_id turn with
  | Some id => List.length (filter (fun en => String.eqb id (entry_id en)) entries)
  | None => O
  end.

(** Every tool turn of [turns] answers exactly one entry of the closest
    assistant turn before it ([last] is that turn at the start). *)
Fixpoint correlated (last : option Turn) (turns : list Turn) : bool :=
  match turns with
  | [] => true
  | turn :: rest =>
      if String.eqb (role turn) "assistant" then correlated (Some turn) rest
      else if String.eqb (role turn) "tool" then
        match last with
        | Some assistant =>
            match tool_calls assistant with
            | Some entries => Nat.eqb (matching_entries turn entries) 1
            | None => false
            end
        | None => false
        end && correlated last rest
      else correlated last rest
  end.

(** What [dispatch] makes of the outcome of the bound method. *)
Definition wrapped (o : Outcome ToolResult) : ToolResult :=
  match o with
  | Ret result => result
  | Raise e =>
      match exc_class e with
      | TypeError => failure ("函数参数错误: " +++ exc_str e)
      | _ => failure ("函数执行异常: " +++ exc_str e)
      end
  end.

(** ** The shapes of a pass *)

(** The tool calls the message asks for. *)
Definition requested (m : Message) : list ToolCall :=
  match msg_tool_calls m with
  | Some calls => calls
  | None => []
  end.

(** What the loop over [calls] leaves: the tool turns of all of them, or of
    those before the one at which it was aborted; only tools acted. *)
Inductive batch (h : list Turn) (calls : list ToolCall)
  : Outcome unit * list Turn * list Event -> Prop :=
| batch_done (texts : list string) (evs : list Event) :
    List.length texts = List.length calls ->
    Forall tool_event evs ->
    batch h calls (Ret tt, h ++ tool_turns texts calls, evs)
| batch_aborted (e : Exc) (texts : list string) (evs : list Event) :
    (List.length texts < List.length calls)%nat ->
    Forall tool_event evs ->
    batch h calls (Raise e, h ++ tool_turns texts calls, evs).

(** The loop over [calls], entered after the events [past], takes the
    invocations one after the other in the order of the list.  In
    [dispatched env past calls o texts evs], [texts] are the contents of the
    tool turns it appends and [evs] the events it performs: an invocation is
    parsed, dispatched after everything the invocations before it did, and
    its result serialised into its tool turn, before the next one is
    looked at; the loop ends with the list ([o] returns), or at the first
    invocation whose arguments do not parse (nothing of it is run) or whose
    result is not serialised (it has run); the invocations after that one
    are not run. *)
Inductive dispatched (env : Env)
  : list Event -> list ToolCall -> Outcome unit -> list string
    -> list Event -> Prop :=
| dispatched_all (past : list Event) :
    dispatched env past [] (Ret tt) [] []
| dispatched_unparsed (past : list Event) (call : ToolCall)
                      (calls : list ToolCall) (e : Exc) :
    env_json_loads env (fn_arguments (tc_function call)) = Raise e ->
    dispatched env past (call :: calls) (Raise e) [] []
| dispatched_unserialised (past : list Event) (call : ToolCall)
                          (calls : list ToolCall) (function_args : json)
                          (result : ToolResult) (evs : list Event) (e : Exc) :
    env_json_loads env (fn_arguments (tc_function call)) = Ret function_args ->
    execute_function_call env (fn_name (tc_function call)) function_args past
    = (Ret result, evs) ->
    env_json_dumps env result = Raise e ->
    dispatched env past (call :: calls) (Raise e) [] evs
| dispatched_next (past : list Event) (call : ToolCall)
                  (calls : list ToolCall) (function_args : json)
                  (result : ToolResult) (evs : list Event) (text : string)
                  (o : Outcome unit) (texts : list string)
                  (evs' : list Event) :
    env_json_loads env (fn_arguments (tc_function call)) = Ret function_args ->
    execute_function_call env (fn_name (tc_function call)) function_args past
    = (Ret result, evs) ->
    env_json_dumps env result = Ret text ->
    dispatched env (past ++ evs) calls o texts evs' ->
    dispatched env past (call :: calls) o (text :: texts) (evs ++ evs').

(** The ways through the body of the [try] statement, from the history [h]
    after the events [past]. *)
Inductive attempt_result (env : Env) (h : list Turn) (past : list Event)
  : Outcome (option string) * list Turn * list Event -> Prop :=
| first_call_raises (e : Exc) :
    env_create env past true h = Raise e ->
    attempt_result env h past (Raise e, h, [EvModelCall true h (Raise e)])
| first_call_empty (resp : ChatCompletion) (e : Exc) :
    env_create env past true h = Ret resp ->
    first_message resp = Raise e ->
    attempt_result env h past (Raise e, h, [EvModelCall true h (Ret resp)])
| direct_answer (resp : ChatCompletion) (am : Message) :
    env_create env past true h = Ret resp ->
    first_message resp = Ret am ->
    requested am = [] ->
    attempt_result env h past
      (Ret (msg_content am), h ++ [assistant_turn (msg_content am)],
       [EvModelCall true h (Ret resp)])
| dispatch_aborted (resp : ChatCompletion) (am : Message) (e : Exc)
                   (h2 : list Turn) (evs : list Event) :
    env_create env past true h = Ret resp ->
    first_message resp = Ret am ->
    requested am <> [] ->
    run_tool_calls env (requested am)
                   (h ++ [assistant_tool_turn am (requested am)])
                   (past ++ [EvModelCall true h (Ret resp)])
    = (Raise e, h2, evs) ->
    attempt_result env h past
      (Raise e, h2, EvModelCall true h (Ret resp) :: evs)
| final_call_raises (resp : ChatCompletion) (am : Message) (e : Exc)
                    (h2 : list Turn) (evs : list Event) :
    env_create env past true h = Ret resp ->
    first_message resp = Ret am ->
    requested am <> [] ->
    run_tool_calls env (requested am)
                   (h ++ [assistant_tool_turn am (requested am)])
                   (past ++ [EvModelCall true h (Ret resp)])
    = (Ret tt, h2, evs) ->
    env_create env (past ++ EvModelCall true h (Ret resp) :: evs) false h2
    = Raise e ->
    attempt_result env h past
      (Raise e, h2,
       EvModelCall true h (Ret resp) :: evs ++ [EvModelCall false h2 (Raise e)])
| final_call_empty (resp resp2 : ChatCompletion) (am : Message) (e : Exc)
                   (h2 : list Turn) (evs : list Event) :
    env_create env past true h = Ret resp ->
    first_message resp = Ret am ->
    requested am <> [] ->
    run_tool_calls env (requested am)
                   (h ++ [assistant_tool_turn am (requested am)])
                   (past ++ [EvModelCall true h (Ret resp)])
    = (Ret tt, h2, evs) ->
    env_create env (past ++ EvModelCall true h (Ret resp) :: evs) false h2
    = Ret resp2 ->
    first_message resp2 = Raise e ->
    attempt_result env h past
      (Raise e, h2,
       EvModelCall true h (Ret resp) :: evs
       ++ [EvModelCall false h2 (Ret resp2)])
| answered (resp resp2 : ChatCompletion) (am final : Message)
           (h2 : list Turn) (evs : list Event) :
    env_create env past true h = Ret resp ->
    first_message resp = Ret am ->
    requested am <> [] ->
    run_tool_calls env (requested am)
                   (h ++ [assistant_tool_turn am (requested am)])
                   (past ++ [EvModelCall true h (Ret resp)])
    = (Ret tt, h2, evs) ->
    env_create env (past ++ EvModelCall true h (Ret resp) :: evs) false h2
    = Ret resp2 ->
    first_message resp2 = Ret final ->
    attempt_result env h past
      (Ret (msg_content final), h2 ++ [assistant_turn (msg_content final)],
       EvModelCall true h (Ret resp) :: evs
       ++ [EvModelCall false h2 (Ret resp2)]).

(** ** The runs of the retry loop *)

(** [loop_result env max_retries retry_count h past run]: the loop, entered
    with [retry_count] on the history [h] after the events [past], ends
    with [run]. *)
Inductive loop_result (env : Env) (max_retries : Z)
  : Z -> list Turn -> list Event -> Run -> Prop :=
| loop_exhausted (retry_count : Z) (h : list Turn) (past : list Event) :
    (max_retries <= retry_count)%Z ->
    loop_result env max_retries retry_count h past (Some exhausted, h, [])
| loop_returned (retry_count : Z) (h : list Turn) (past : list Event)
                (answer : option string) (h' : list Turn) (evs : list Event) :
    (retry_count < max_retries)%Z ->
    attempt env h past = (Ret answer, h', evs) ->
    loop_result env max_retries retry_count h past (answer, h', evs)
| loop_failed (retry_count : Z) (h : list Turn) (past : list Event)
              (e : Exc) (h' : list Turn) (evs : list Event) :
    (retry_count < max_retries)%Z ->
    attempt env h past = (Raise e, h', evs) ->
    retryable (exc_class e) = false ->
    loop_result env max_retries retry_count h past (Some (apology e), h', evs)
| loop_rate_limited (retry_count : Z) (h : list Turn) (past : list Event)
                    (e : Exc) (h' : list Turn) (evs : list Event)
                    (answer : option string) (h'' : list Turn)
                    (evs' : list Event) :
    (retry_count < max_retries)%Z ->
    attempt env h past = (Raise e, h', evs) ->
    exc_class e = RateLimitError ->
    loop_result env max_retries (retry_count + 1) h'
                (past ++ evs ++ [EvSleep (2 ^ (retry_count + 1))])
                (answer, h'', evs') ->
    loop_result env max_retries retry_count h past
                (answer, h'', evs ++ EvSleep (2 ^ (retry_count + 1)) :: evs')
| loop_timed_out (retry_count : Z) (h : list Turn) (past : list Event)
                 (e : Exc) (h' : list Turn) (evs : list Event)
                 (answer : option string) (h'' : list Turn)
                 (evs' : list Event) :
    (retry_count < max_retries)%Z ->
    attempt env h past = (Raise e, h', evs) ->
    exc_class e = APITimeoutError ->
    loop_result env max_retries (retry_count + 1) h' (past ++ evs)
                (answer, h'', evs') ->
    loop_result env max_retries retry_count h past (answer, h'', evs ++ evs').

(** The wait the loop makes after an exception of class [c]. *)
Definition pause_after (c : ExcClass) (retry_count : Z) : list Event :=
  match c with
  | RateLimitError => [EvSleep (2 ^ (retry_count + 1))]
  | _ => []
  end.



(** ** Sample worlds *)

(** The double quote. *)
Definition dq : string := String (ascii_of_nat 34) EmptyString.

(** The JSON text of an object with string members. *)
Fixpoint members (fields : list (string * string)) : string :=
  match fields with
  | [] => EmptyString
  | [(k, v)] => dq +++ k +++ dq +++ ": " +++ dq +++ v +++ dq
  | (k, v) :: rest =>
      dq +++ k +++ dq +++ ": " +++ dq +++ v +++ dq +++ ", " +++ members rest
  end.

Definition object_text (fields : list (string * string)) : string :=
  "{" +++ members fields +++ "}".

Definition object_value (fields : list (string * string)) : json :=
  JDict (map (fun kv => (fst kv, JStr (snd kv))) fields).

(** The parameter [max_retries] when the caller leaves it out. *)
Definition default_max_retries : Z := 3.

(** A response of the weather provider. *)
Definition paris_weather : json :=
  JDict [("name", JStr "Paris");
         ("sys", JDict [("country", JStr "FR")]);
         ("main", JDict [("temp", JNum (18 # 1));
                         ("feels_like", JNum (17 # 1));
                         ("humidity", JNum (60 # 1));
                         ("pressure", JNum (1015 # 1))]);
         ("weather", JList [JDict [("description", JStr "clear")]]);
         ("wind", JDict [("speed", JNum (3 # 1))]);
         ("visibility", JNum (10000 # 1))].

(** Rounding of an exact rational to [ndigits] decimal places, a tie going
    to the even neighbour. *)
Definition round_half_even (q : Q) (ndigits : Z) : Q :=
  let scale := inject_Z (10 ^ ndigits) in
  let scaled := (q * scale)%Q in
  let low := Qfloor scaled in
  let rest := (scaled - inject_Z low)%Q in
  let nearest :=
    if Qeq_bool rest (1 # 2) then (if Z.even low then low else low + 1)%Z
    else if Qle_bool rest (1 # 2) then low else (low + 1)%Z in
  Qred (inject_Z nearest / scale).

(** A world in which the model answers its [n]-th call with the [n]-th
    element of [script] and raises [otherwise] when the script is used up;
    [json.loads] knows the texts of [parsed]; the price history is
    [history]; every provider answers; [round] rounds. *)
Definition scripted (script : list (Outcome ChatCompletion))
                    (otherwise : Exc)
                    (parsed : list (list (string * string)))
                    (history : list Bar) : Env :=
  {| env_getenv := fun _ => None;
     env_now := fun _ => "2024-05-01 09:00:00";
     env_json_loads :=
       fun text =>
         match find (fun fields => String.eqb text (object_text fields)) parsed with
         | Some fields => Ret (object_value fields)
         | None => Raise (mkExc ValueError "Expecting value")
         end;
     env_json_dumps :=
       fun result =>
         match result with
         | JDict (("success", JBool true) :: _) => Ret "{success: true}"
         | _ => Ret "{success: false}"
         end;
     env_round := round_half_even;
     env_int := fun _ => Ret 587%Z;
     env_str := fun _ => "?";
     env_create :=
       fun past _ _ =>
         nth (List.length (model_calls past)) script (Raise otherwise);
     env_requests_get :=
       fun _ _ _ => Ret (mkHttpResponse (Ret tt) (Ret paris_weather));
     env_import_yfinance := Ret tt;
     env_ticker_info := fun _ _ => Ret (JDict [("longName", JStr "Apple Inc.")]);
     env_ticker_history := fun _ _ _ => Ret history;
     env_smtp := fun _ _ => Ret tt |}.

Definition refused : Exc := mkExc OtherException "Connection error.".

Definition too_many_requests : Exc := mkExc RateLimitError "Rate limit reached".

(** The model endpoint refuses every call with a rate limit. *)
Definition limited_world : Env := scripted [] too_many_requests [] [].

(** The model asks for the weather in Paris, then answers. *)
Definition paris_arguments : list (string * string) := [("city", "Paris")].

Definition paris_call : ToolCall :=
  mkToolCall "call_1" "function"
             (mkFunctionCall "get_real_weather" (object_text paris_arguments)).

Definition paris_request : Message := mkMessage None (Some [paris_call]).

Definition paris_answer : Message :=
  mkMessage (Some "It is 18 degrees and clear in Paris.") None.

Definition paris_world : Env :=
  scripted [Ret (mkChatCompletion [paris_request]);
            Ret (mkChatCompletion [paris_answer])]
           refused [paris_arguments] [].

Definition paris_question : string := "What's the weather in Paris?".

(** The model asks twice for the same mail, the rate limit striking in
    between. *)
Definition mail_arguments : list (string * string) :=
  [("to", "ann@example.org"); ("subject", "Hello"); ("content", "See you.")].

Definition mail_call : ToolCall :=
  mkToolCall "call_7" "function"
             (mkFunctionCall "send_email" (object_text mail_arguments)).

Definition mail_request : Message := mkMessage None (Some [mail_call]).

Definition mail_answer : Message := mkMessage (Some "The mail is sent.") None.

Definition mail_world : Env :=
  scripted [Ret (mkChatCompletion [mail_request]);
            Raise too_many_requests;
            Ret (mkChatCompletion [mail_request]);
            Ret (mkChatCompletion [mail_answer])]
           refused [mail_arguments] [].

Definition mail_session : SmtpSession :=
  mkSmtpSession "smtp.gmail.com" 587 "your_email@gmail.com" "your_app_password"
    (mkEmail "your_email@gmail.com" (JStr "ann@example.org") (JStr "Hello")
             (JStr "See you.")).

(** The history after the first pass of the mail exchange. *)
Definition mail_leftover : list Turn :=
  [user_turn "Write to Ann.";
   assistant_tool_turn mail_request [mail_call];
   tool_turn "{success: true}" mail_call].

Definition is_delivery (ev : Event) : bool :=
  match ev with
  | EvSmtp _ (Ret _) => true
  | _ => false
  end.

(** The model gives one id to two invocations. *)
Definition note_arguments : list (string * string) :=
  [("user_name", "ann"); ("content", "Good night")].

Definition note_call : ToolCall :=
  mkToolCall "call_1" "function"
             (mkFunctionCall "send_message_with_weixin"
                             (object_text note_arguments)).

Definition twin_request : Message :=
  mkMessage None (Some [note_call; paris_call]).

Definition twin_world : Env :=
  scripted [Ret (mkChatCompletion [twin_request]);
            Ret (mkChatCompletion [paris_answer])]
           refused [note_arguments; paris_arguments] [].

(** The model asks for a mail and for the weather in one batch. *)
Definition pair_request : Message :=
  mkMessage None (Some [mail_call; paris_call]).

Definition pair_world : Env :=
  scripted [Ret (mkChatCompletion [pair_request]);
            Ret (mkChatCompletion [paris_answer])]
           refused [mail_arguments; paris_arguments] [].

Definition pair_question : string := "Write to Ann, and the weather?".

(** The model endpoint refuses every call. *)
Definition refusing_world : Env := scripted [] refused [] [].

(** The price history of one trading day. *)
Definition one_day : list Bar :=
  [mkBar (189 # 1) (191 # 1) (188 # 1) (190 # 1) 52000000].

Definition one_day_world : Env := scripted [] refused [] one_day.




(** The model answers at once. *)
Definition greeting : Message := mkMessage (Some "Hello! How can I help?") None.

Definition greeting_world : Env :=
  scripted [Ret (mkChatCompletion [greeting])] refused [] [].

(** [env] with a provider that answers every request with [data]. *)
Definition answering (data : json) (env : Env) : Env :=
  {| env_getenv := env_getenv env;
     env_now := env_now env;
     env_json_loads := env_json_loads env;
     env_json_dumps := env_json_dumps env;
     env_round := env_round env;
     env_int := env_int env;
     env_str := env_str env;
     env_create := env_create env;
     env_requests_get :=
       fun _ _ _ => Ret (mkHttpResponse (Ret tt) (Ret data));
     env_import_yfinance := env_import_yfinance env;
     env_ticker_info := env_ticker_info env;
     env_ticker_history := env_ticker_history env;
     env_smtp := env_smtp env |}.

Definition article (n : string) : json :=
  JDict [("title", JStr ("Headline " +++ n));
         ("description", JNull);
         ("url", JStr ("https://news.example/" +++ n));
         ("source", JDict [("name", JStr "Example News")]);
         ("publishedAt", JStr "2024-05-01T08:00:00Z")].

(** The news provider has six articles. *)
Definition six_articles : json :=
  JDict [("status", JStr "ok");
         ("totalResults", JNum (6 # 1));
         ("articles", JList (map article ["1"; "2"; "3"; "4"; "5"; "6"]))].

Definition news_world : Env := answering six_articles greeting_world.

(** The payload of the result of a news search in [news_world]. *)
Definition news_data : json :=
  match fst (search_news news_world (JStr "AI") (JStr "technology")
                         (JStr "us") []) with
  | Ret (JDict [_; (_, data)]) => data
  | _ => JNull
  end.

(** C4 as the specification words it, for the pass that starts from [h]
    after [past]: every tool turn the pass appends answers exactly one entry
    of the closest assistant turn before it. *)
Definition answers_exactly_one (env : Env) (h : list Turn) (past : list Event)
  : Prop :=
  forall new : list Turn,
    snd (fst (attempt env h past)) = h ++ new ->
    correlated None new = true.

Create HintDb tools.

(** * The tool catalogue, the interactive loop and [main] *)

(** ** self.tools *)

(** An entry of ["properties"] of a tool: its name and the dict with
    ["type"], ["enum"], ["description"] and ["default"] ([None] for a key
    the dict does not have). *)
Record ParamSpec : Type := mkParamSpec {
  param_name : string;
  param_type : string;
  param_enum : option (list string);
  param_description : string;
  param_default : option string
}.

(** An element of [self.tools]: ["type"], and under ["function"] the
    ["name"], the ["description"] and the ["parameters"] with their
    ["type"], ["properties"] and ["required"]. *)
Record ToolSpec : Type := mkToolSpec {
  spec_type : string;
  spec_name : string;
  spec_description : string;
  spec_parameters_type : string;
  spec_properties : list ParamSpec;
  spec_required : list string
}.

Definition tools : list ToolSpec :=
  [mkToolSpec "function" "get_real_weather"
     "获取指定城市的实时天气信息，包括温度、湿度、风速等详细数据"
     "object"
     [mkParamSpec "city" "string" None
        "要查询天气的城市名称，支持中英文" None;
      mkParamSpec "units" "string" (Some ["metric"; "imperial"])
        "温度单位，metric为摄氏度，imperial为华氏度" (Some "metric")]
     ["city"];
   mkToolSpec "function" "search_news"
     "搜索最新的新闻信息，可以按照关键词、时间范围等条件筛选"
     "object"
     [mkParamSpec "query" "string" None "搜索关键词，支持中英文" None;
      mkParamSpec "category" "string"
        (Some ["general"; "business"; "entertainment"; "health"; "science";
               "sports"; "technology"])
        "新闻分类" (Some "general");
      mkParamSpec "country" "string" None "国家代码，如cn、us等" (Some "cn")]
     ["query"];
   mkToolSpec "function" "analyze_stock"
     "分析股票的基本信息和价格趋势，提供投资参考"
     "object"
     [mkParamSpec "symbol" "string" None "股票代码，如AAPL、TSLA等" None;
      mkParamSpec "period" "string"
        (Some ["1d"; "5d"; "1mo"; "3mo"; "6mo"; "1y"])
        "分析时间周期" (Some "1mo")]
     ["symbol"];
   mkToolSpec "function" "send_email"
     "发送电子邮件给指定收件人"
     "object"
     [mkParamSpec "to" "string" None "收件人邮箱地址" None;
      mkParamSpec "subject" "string" None "邮件主题" None;
      mkParamSpec "content" "string" None "邮件正文内容" None]
     ["to"; "subject"; "content"];
   mkToolSpec "function" "send_message_with_weixin"
     "发送微信信息给指定用户"
     "object"
     [mkParamSpec "user_name" "string" None "指定用户的用户名字" None;
      mkParamSpec "content" "string" None "发送内容" None]
     ["user_name"; "content"]].

(** ** start_interactive_chat *)

(** What a call of [input] gives: a line, [KeyboardInterrupt] (which the
    loop of the session handles, the one place of the program that does),
    or an exception below [Exception] ([EOFError] at the end of the
    input). *)
Inductive Line : Type :=
| Typed (text : string)
| Interrupted
| InputFailed (e : Exc).

(** The terminal: the outcome of the [n]-th call of [input], and the
    methods [strip] and [lower] of [str]. *)
Record Console : Type := mkConsole {
  console_input : nat -> Line;
  console_strip : string -> string;
  console_lower : string -> string
}.

(** The words that end the session. *)
Definition quit_words : list string := ["quit"; "exit"; "退出"; "再见"].

(** Where a session stands: the history, the events performed, the
    responses printed to the user, and the number of calls of [input]. *)
Record Session : Type := mkSession {
  session_history : list Turn;
  session_events : list Event;
  session_responses : list (option string);
  session_inputs : nat
}.

(** The [while True] loop of [start_interactive_chat], entered before the
    [n]-th call of [input]; [fuel] bounds the number of rounds and [None]
    means that it ran out.  The diagnostics the loop prints are not
    recorded, the responses are. *)
Fixpoint interactive_loop (env : Env) (console : Console) (fuel : nat)
                          (n : nat) (h : list Turn) (past : list Event)
                          (responses : list (option string))
  : option Session :=
  match fuel with
  | O => None
  | S fuel' =>
      match console_input console n with
      | Interrupted => Some (mkSession h past responses (S n))
      | InputFailed _ =>
          interactive_loop env console fuel' (S n) h past responses
      | Typed line =>
          let user_input := console_strip console line in
          if existsb (String.eqb (console_lower console user_input))
                     quit_words
          then Some (mkSession h past responses (S n))
          else
            match user_input with
            | EmptyString =>
                interactive_loop env console fuel' (S n) h past responses
            | String _ _ =>
                match chat_with_function_calling env user_input
                        default_max_retries h past with
                | Some (response, h', evs) =>
                    interactive_loop env console fuel' (S n) h' (past ++ evs)
                                     (responses ++ [response])
                | None => None
                end
            end
      end
  end.

Definition start_interactive_chat (env : Env) (console : Console)
                                  (fuel : nat) (h : list Turn)
                                  (past : list Event) : option Session :=
  interactive_loop env console fuel O h past [].

(** ** main *)

Definition model : string := "moonshot-v1-8k".
Definition base_url : string := "https://api.moonshot.cn/v1".
Definition api_key : string := "Your API key".
Definition start_interactive : string := "yes".

(** [main]; [client] is the outcome of constructing the assistant (of
    [openai.OpenAI(...)]).  [Some None]: [main] returned without a
    session. *)
Definition main (env : Env) (console : Console) (client : Outcome unit)
                (fuel : nat) : option (option Session) :=
  match api_key with
  | EmptyString => Some None
  | String _ _ =>
      match client with
      | Raise _ => Some None
      | Ret _ =>
          if existsb (String.eqb start_interactive) ["y"; "yes"; "是"]
          then
            match start_interactive_chat env console fuel [] [] with
            | Some session => Some (Some session)
            | None => None
            end
          else Some None
      end
  end.

(** * Vocabulary of the further properties *)

(** ** The catalogue and the bound methods *)

Definition property_names (spec : ToolSpec) : list string :=
  map param_name (spec_properties spec).

(** [d] has no key outside the properties of [spec] and every required
    one. *)
Definition conforms (spec : ToolSpec) (d : list (string * json)) : bool :=
  forallb (fun kv => existsb (String.eqb (fst kv)) (property_names spec)) d
  && forallb (fun p => has_key p d) (spec_required spec).

(** The value of the property [p] in [d], or the default the catalogue
    advertises for it. *)
Definition argument (d : list (string * json)) (p : ParamSpec) : json :=
  match assoc (param_name p) d with
  | Some v => v
  | None =>
      match param_default p with
      | Some s => JStr s
      | None => JNull
      end
  end.

(** The method called [name] applied to positional arguments. *)
Definition positional_call (env : Env) (name : string) (args : list json)
  : option (IO ToolResult) :=
  if String.eqb name "get_real_weather" then
    match args with
    | [city; units] => Some (get_real_weather env city units)
    | _ => None
    end
  else if String.eqb name "search_news" then
    match args with
    | [query; category; country] =>
        Some (search_news env query category country)
    | _ => None
    end
  else if String.eqb name "analyze_stock" then
    match args with
    | [symbol; period] => Some (analyze_stock env symbol period)
    | _ => None
    end
  else if String.eqb name "send_email" then
    match args with
    | [to; subject; content] => Some (send_email env to subject content)
    | _ => None
    end
  else if String.eqb name "send_message_with_weixin" then
    match args with
    | [user_name; content] =>
        Some (send_message_with_weixin env user_name content)
    | _ => None
    end
  else None.

(** ** Counting in a run *)

Definition offers_tools (ev : Event) : bool :=
  match ev with
  | EvModelCall true _ _ => true
  | _ => false
  end.

Definition final_call (ev : Event) : bool :=
  match ev with
  | EvModelCall false _ _ => true
  | _ => false
  end.

(** The roles of the turns the loop appends after the user turn. *)
Definition loop_role (turn : Turn) : Prop :=
  role turn = "assistant" \/ role turn = "tool".

(** ** Sessions *)

(** The lines that neither end the session nor are blank lead to an
    exchange each, one after the other on the same history. *)
Fixpoint exchanges (env : Env) (inputs : list string) (h : list Turn)
                   (past : list Event) (responses : list (option string))
  : list Turn * list Event * list (option string) :=
  match inputs with
  | [] => (h, past, responses)
  | user_input :: rest =>
      match chat_with_function_calling env user_input default_max_retries
                                       h past with
      | Some (response, h', evs) =>
          exchanges env rest h' (past ++ evs) (responses ++ [response])
      | None => (h, past, responses)
      end
  end.

Definition blank (s : string) : bool :=
  match s with EmptyString => true | String _ _ => false end.

(** A console on which [lines] are typed, then [last] ever after; [strip]
    and [lower] leave a text as it is. *)
Definition typing (lines : list string) (last : Line) : Console :=
  mkConsole (fun n => match nth_error lines n with
                      | Some line => Typed line
                      | None => last
                      end)
            (fun s => s) (fun s => s).

Definition end_of_input : Exc :=
  mkExc OtherException "EOF when reading a line".

(** ** Tool turns *)

(** [text] is what the loop writes into the tool turn of [call]: the
    arguments parse, the dispatcher returns a result, and [text] is that
    result serialised. *)
Definition reports (env : Env) (text : string) (call : ToolCall) : Prop :=
  exists (function_args : json) (result : ToolResult) (world : list Event),
    env_json_loads env (fn_arguments (tc_function call)) = Ret function_args
    /\ fst (execute_function_call env (fn_name (tc_function call))
                                  function_args world)
       = Ret result
    /\ env_json_dumps env result = Ret text.

(** ** What a tool did *)

(** The member [k] of an arguments object. *)
Definition field (arguments : json) (k : string) : option json :=
  match arguments with
  | JDict d => assoc k d
  | _ => None
  end.

(** The events of a call of the tool [name] on [arguments] in which the
    provider did its part: the one request for the city or for the query
    was answered with a good status; the company data and at least two rows
    of prices of the symbol were fetched; the one SMTP session for the mail
    to the recipient, with the subject and the content, went through; the
    message was printed between two lines of stars. *)
Definition delivered (env : Env) (name : string) (arguments : json)
                     (evs : list Event) : Prop :=
  match evs with
  | [EvHttpGet url params (Ret response)] =>
      status response = Ret tt
      /\ (name = "get_real_weather"
          /\ url = "http://api.openweathermap.org/data/2.5/weather"
          /\ assoc "q" params = field arguments "city"
          \/ name = "search_news"
             /\ url = "https://newsapi.org/v2/everything"
             /\ assoc "q" params = field arguments "query")
  | [EvTickerInfo symbol (Ret _);
     EvTickerHistory symbol' _ (Ret (_ :: _ :: _))] =>
      name = "analyze_stock"
      /\ Some symbol = field arguments "symbol"
      /\ symbol' = symbol
  | [EvSmtp session (Ret _)] =>
      name = "send_email"
      /\ Some (mail_to (smtp_message session)) = field arguments "to"
      /\ Some (mail_subject (smtp_message session)) = field arguments "subject"
      /\ Some (mail_text (smtp_message session)) = field arguments "content"
  | [EvPrint first; EvPrint text; EvPrint last] =>
      name = "send_message_with_weixin"
      /\ first = stars
      /\ last = stars
      /\ exists content, Some content = field arguments "content"
                         /\ text = py_str env content
  | _ => False
  end.

(** ** Lines of a session *)

(** The line ends the session: an interrupt, or a quit word once stripped
    and lowered. *)
Definition ends_session (console : Console) (line : Line) : bool :=
  match line with
  | Typed text =>
      existsb (String.eqb (console_lower console (console_strip console text)))
              quit_words
  | Interrupted => true
  | InputFailed _ => false
  end.

(** The questions among [lines]: the typed lines that are not blank once
    stripped. *)
Fixpoint questions (console : Console) (lines : list Line) : list string :=
  match lines with
  | [] => []
  | Typed text :: rest =>
      if blank (console_strip console text) then questions console rest
      else console_strip console text :: questions console rest
  | _ :: rest => questions console rest
  end.

(** The first [length lines] calls of [input] give [lines]. *)
Definition reads (console : Console) (lines : list Line) : Prop :=
  forall (k : nat) (line : Line),
    nth_error lines k = Some line -> console_input console k = line.

(** ** Further sample worlds *)

(** The [i]-th tool of the catalogue. *)
Definition no_tool : ToolSpec :=
  mkToolSpec EmptyString EmptyString EmptyString EmptyString [] [].

Definition tool (i : nat) : ToolSpec := nth i tools no_tool.

(** The model asks for the weather in Paris and, in the same batch, for a
    message with arguments that are no JSON text, and for a mail. *)
Definition garbled_call : ToolCall :=
  mkToolCall "call_2" "function"
             (mkFunctionCall "send_message_with_weixin" "{user_name: ann").

Definition garbled_request : Message :=
  mkMessage None (Some [paris_call; garbled_call; mail_call]).

Definition garbled_world : Env :=
  scripted [Ret (mkChatCompletion [garbled_request])]
           refused [paris_arguments; mail_arguments] [].

Definition expecting_value : Exc := mkExc ValueError "Expecting value".

(** The events of a call in [limited_world] with three attempts. *)
Definition limited_events : list Event :=
  [EvModelCall true [user_turn "hello"] (Raise too_many_requests);
   EvSleep 2;
   EvModelCall true [user_turn "hello"] (Raise too_many_requests);
   EvSleep 4;
   EvModelCall true [user_turn "hello"] (Raise too_many_requests);
   EvSleep 8].

(** The entry [search_news] makes of [article n]. *)
Definition headline (n : string) : json :=
  JDict [("title", JStr ("Headline " +++ n));
         ("description", JNull);
         ("url", JStr ("https://news.example/" +++ n));
         ("source", JStr "Example News");
         ("published_at", JStr "2024-05-01T08:00:00Z")].

Definition six_articles_entries : list (string * json) :=
  [("status", JStr "ok");
   ("totalResults", JNum (6 # 1));
   ("articles", JList (map article ["1"; "2"; "3"; "4"; "5"; "6"]))].

(** The payload of the weather report for Paris in [paris_world]. *)
Definition paris_report : json :=
  match fst (get_real_weather paris_world (JStr "Paris") (JStr "metric") []) with
  | Ret (JDict [_; (_, data)]) => data
  | _ => JNull
  end.

(** A greeting, a blank line, and the word that ends the session. *)
Definition short_session : list Line := [Typed "Hi"; Typed EmptyString].

Definition short_console : Console :=
  typing ["Hi"; EmptyString] (Typed "quit").

(** A greeting, and then the end of the input. *)
Definition closed_console : Console :=
  typing ["Hi"] (InputFailed end_of_input).
(** * Facts about world actions *)

Unset Implicit Arguments.

Section IOFacts.

Context {A : Type}.

Lemma returns_ret (Q : A -> Prop) (a : A) : Q a -> returns Q (ret a).
Proof. intros H past. exists a. split; [reflexivity | exact H]. Qed.

Lemma returns_weaken (Q : A -> Prop) (m : IO A) : returns Q m -> returns_if Q m.
Proof.
  intros H past a E. destruct (H past) as (b & Eb & Hb).
  rewrite E in Eb. injection Eb as ->. exact Hb.
Qed.

Lemma returns_if_ret (Q : A -> Prop) (a : A) : Q a -> returns_if Q (ret a).
Proof. intros H past b E. cbn in E. injection E as <-. exact H. Qed.

Lemma returns_try_except (Q : A -> Prop) (body : IO A) (handler : Exc -> IO A) :
  returns_if Q body ->
  (forall e, returns Q (handler e)) ->
  returns Q (try_except body handler).
Proof.
  intros Hb Hh past. unfold try_except.
  specialize (Hb past). destruct (body past) as [[a | e] evs].
  - exists a. split; [reflexivity | apply Hb; reflexivity].
  - destruct (Hh e (past ++ evs)) as (a & Ea & Ha).
    destruct (handler e (past ++ evs)) as [o evs']. exists a. cbn in *.
    split; assumption.
Qed.

Lemma emits_ret (P : Event -> Prop) (a : A) : emits P (ret a).
Proof. intros past. constructor. Qed.

Lemma emits_pure (P : Event -> Prop) (o : Outcome A) : emits P (pure o).
Proof. intros past. constructor. Qed.

Lemma emits_perform (P : Event -> Prop) (oracle : list Event -> Outcome A)
      (record : Outcome A -> Event) :
  (forall o, P (record o)) -> emits P (perform oracle record).
Proof. intros H past. cbn. constructor; [apply H | constructor]. Qed.

Lemma emits_try_except (P : Event -> Prop) (body : IO A) (handler : Exc -> IO A) :
  emits P body ->
  (forall e, emits P (handler e)) ->
  emits P (try_except body handler).
Proof.
  intros Hb Hh past. unfold try_except.
  specialize (Hb past). destruct (body past) as [[a | e] evs]; cbn in *.
  - exact Hb.
  - specialize (Hh e (past ++ evs)).
    destruct (handler e (past ++ evs)) as [o evs']. cbn in *.
    apply Forall_app. split; assumption.
Qed.

End IOFacts.

Lemma returns_if_bind {A B : Type} (Q : B -> Prop) (m : IO A) (f : A -> IO B) :
  (forall a, returns_if Q (f a)) -> returns_if Q (bind m f).
Proof.
  intros H past b. cbn. destruct (m past) as [[a | e] evs].
  - specialize (H a (past ++ evs) b).
    destruct (f a (past ++ evs)) as [o evs']. exact H.
  - discriminate.
Qed.

Lemma emits_bind {A B : Type} (P : Event -> Prop) (m : IO A) (f : A -> IO B) :
  emits P m -> (forall a, emits P (f a)) -> emits P (bind m f).
Proof.
  intros Hm Hf past. cbn. specialize (Hm past).
  destruct (m past) as [[a | e] evs]; cbn in *.
  - specialize (Hf a (past ++ evs)).
    destruct (f a (past ++ evs)) as [o evs']. cbn in *.
    apply Forall_app. split; assumption.
  - exact Hm.
Qed.

Lemma emits_emit (P : Event -> Prop) (ev : Event) : P ev -> emits P (emit ev).
Proof. intros H past. cbn. constructor; [exact H | constructor]. Qed.


(** ** Proof automation *)

Ltac returns_body :=
  cbv zeta;
  repeat first
    [ apply returns_if_ret; auto with tools
    | apply returns_if_bind; intros
    | match goal with
      | |- returns_if _ (match ?x with _ => _ end) => destruct x
      end ].

Ltac returns_handler :=
  let e := fresh "e" in
  intros e; try destruct (exc_class e); apply returns_ret; auto with tools.

Ltac emits_tool :=
  cbv zeta;
  repeat first
    [ apply emits_ret
    | apply emits_pure
    | apply emits_emit; reflexivity
    | apply emits_perform; intros; reflexivity
    | apply emits_bind; intros
    | apply emits_try_except; intros
    | match goal with
      | |- emits _ (match ?x with _ => _ end) => destruct x
      end ].

(** Which bound method a name of [function_map] stands for. *)
Ltac method_cases :=
  unfold function_map; cbn [assoc];
  repeat match goal with
         | |- (if ?c then _ else _) = Some _ -> _ => destruct c
         end;
  let E := fresh "E" in
  intros E; try discriminate; injection E as <-.

(** * Facts about the tools *)

Lemma populated_success (data : json) : populated (success data).
Proof. reflexivity. Qed.

Lemma populated_failure (error : string) : populated (failure error).
Proof. reflexivity. Qed.

#[local] Hint Resolve populated_success populated_failure : tools.


Section Tools.

Variable env : Env.

Lemma emits_now (P : Event -> Prop) : emits P (now env).
Proof. intros past. constructor. Qed.

#[local] Hint Resolve emits_now : tools.

Lemma get_real_weather_returns (city units : json) :
  returns populated (get_real_weather env city units).
Proof.
  unfold get_real_weather. apply returns_try_except.
  - returns_body.
  - returns_handler.
Qed.

Lemma search_news_returns (query category country : json) :
  returns populated (search_news env query category country).
Proof.
  unfold search_news. apply returns_try_except.
  - returns_body.
  - returns_handler.
Qed.

Lemma analyze_stock_returns (symbol period : json) :
  returns populated (analyze_stock env symbol period).
Proof.
  unfold analyze_stock. apply returns_try_except.
  - returns_body.
  - returns_handler.
Qed.

Lemma send_email_returns (to subject content : json) :
  returns populated (send_email env to subject content).
Proof.
  unfold send_email. apply returns_try_except.
  - returns_body.
  - returns_handler.
Qed.

Lemma send_message_with_weixin_returns (user_name content : json) :
  returns populated (send_message_with_weixin env user_name content).
Proof.
  unfold send_message_with_weixin. apply returns_try_except.
  - returns_body.
  - returns_handler.
Qed.

(** A bound method called on [arguments] either hands back a populated
    result or raises (from the binding of the arguments). *)
Lemma function_map_returns_if (name : string) (method : Adapter)
      (arguments : json) :
  assoc name (function_map env) = Some method ->
  returns_if populated (method arguments).
Proof.
  method_cases.
  - unfold call_get_real_weather. cbv zeta.
    do 2 (apply returns_if_bind; intros).
    apply returns_weaken, get_real_weather_returns.
  - unfold call_search_news. cbv zeta.
    do 2 (apply returns_if_bind; intros).
    apply returns_weaken, search_news_returns.
  - unfold call_analyze_stock. cbv zeta.
    do 2 (apply returns_if_bind; intros).
    apply returns_weaken, analyze_stock_returns.
  - unfold call_send_email. cbv zeta.
    do 4 (apply returns_if_bind; intros).
    apply returns_weaken, send_email_returns.
  - unfold call_send_message_with_weixin. cbv zeta.
    do 3 (apply returns_if_bind; intros).
    apply returns_weaken, send_message_with_weixin_returns.
Qed.

Lemma function_map_emits (name : string) (method : Adapter) (arguments : json) :
  assoc name (function_map env) = Some method ->
  emits tool_event (method arguments).
Proof.
  method_cases.
  - unfold call_get_real_weather, get_real_weather, requests_get.
    emits_tool; auto with tools.
  - unfold call_search_news, search_news, requests_get.
    emits_tool; auto with tools.
  - unfold call_analyze_stock, analyze_stock.
    emits_tool; auto with tools.
  - unfold call_send_email, send_email.
    emits_tool; auto with tools.
  - unfold call_send_message_with_weixin, send_message_with_weixin.
    emits_tool; auto with tools.
Qed.

End Tools.

(** * The dispatcher *)

Section Dispatcher.

Variable env : Env.

Lemma dispatch_known (fmap : list (string * Adapter)) (name : string)
      (method : Adapter) (arguments : json) (past : list Event) :
  assoc name fmap = Some method ->
  dispatch fmap name arguments past
  = (Ret (wrapped (fst (method arguments past))), snd (method arguments past)).
Proof.
  intros E. unfold dispatch, try_except. rewrite E. cbn.
  destruct (method arguments past) as [[result | e] evs]; cbn.
  - now rewrite app_nil_r.
  - destruct (exc_class e); cbn; now rewrite app_nil_r.
Qed.

Lemma execute_function_call_returns (name : string) (arguments : json) :
  returns populated (execute_function_call env name arguments).
Proof.
  intros past. unfold execute_function_call.
  destruct (assoc name (function_map env)) as [method | ] eqn:E.
  - rewrite (dispatch_known _ _ _ _ _ E). cbn [fst].
    pose proof (function_map_returns_if env name method arguments E past) as H.
    destruct (fst (method arguments past)) as [result | e].
    + exists result. split; [reflexivity | apply H; reflexivity].
    + eexists. split; [reflexivity | ].
      cbn. destruct (exc_class e); reflexivity.
  - unfold dispatch. rewrite E. eexists. split; reflexivity.
Qed.

Lemma execute_function_call_emits (name : string) (arguments : json) :
  emits tool_event (execute_function_call env name arguments).
Proof.
  intros past. unfold execute_function_call.
  destruct (assoc name (function_map env)) as [method | ] eqn:E.
  - rewrite (dispatch_known _ _ _ _ _ E). cbn [snd].
    apply (function_map_emits env name method arguments E).
  - unfold dispatch. rewrite E. constructor.
Qed.

(** [execute_function_call] is [dispatch] over the five bound methods. *)
Lemma execute_function_call_unfold (name : string) (arguments : json) :
  execute_function_call env name arguments
  = dispatch (function_map env) name arguments.
Proof. reflexivity. Qed.

End Dispatcher.

(** C2.  For a name bound in the function map, [execute_function_call]
    (the body [dispatch] over that map) returns and never raises: it hands
    back the result of the bound method when that returns; when the call
    raises [TypeError] (arguments that do not fit the parameters) it returns
    [success = False] with the argument-error message; when it raises
    anything else it returns [success = False] with the execution-error
    message.  The events are those of the method. *)
Theorem execute_function_call_never_raises :
  forall (fmap : list (string * Adapter)) (name : string) (method : Adapter)
         (arguments : json) (past : list Event),
    assoc name fmap = Some method ->
    exists result : ToolResult,
      dispatch fmap name arguments past
      = (Ret result, snd (method arguments past))
      /\ (forall r, fst (method arguments past) = Ret r -> result = r)
      /\ (forall e, fst (method arguments past) = Raise e ->
                    exc_class e = TypeError ->
                    result = failure ("函数参数错误: " +++ exc_str e))
      /\ (forall e, fst (method arguments past) = Raise e ->
                    exc_class e <> TypeError ->
                    result = failure ("函数执行异常: " +++ exc_str e)).
Proof.
  intros fmap name method arguments past E.
  exists (wrapped (fst (method arguments past))).
  split; [apply dispatch_known; exact E | ].
  destruct (fst (method arguments past)) as [result | e]; cbn.
  - repeat split; intros; congruence.
  - repeat split; intros x Hx; try discriminate; injection Hx as <-; intros Hc.
    + now rewrite Hc.
    + destruct (exc_class e); congruence.
Qed.

(** C7.  For a name that is not in the function map, whatever the
    arguments, [execute_function_call] returns [success = False] with the
    unknown-function message and performs no event: no adapter runs and the
    world is left as it was. *)
Theorem execute_function_call_unknown :
  forall (env : Env) (name : string) (arguments : json) (past : list Event),
    assoc name (function_map env) = None ->
    execute_function_call env name arguments past
    = (Ret (failure ("未知函数: " +++ name)), []).
Proof.
  intros env name arguments past E.
  unfold execute_function_call, dispatch. now rewrite E.
Qed.

(** C9.  Every result of an adapter and of [execute_function_call] is
    fully populated: the call returns a dict whose [success] is a boolean,
    with [data] and no [error] when it is true, with [error] and no [data]
    when it is false. *)
Theorem tool_results_populated :
  forall env : Env,
    (forall city units, returns populated (get_real_weather env city units))
    /\ (forall query category country,
           returns populated (search_news env query category country))
    /\ (forall symbol period, returns populated (analyze_stock env symbol period))
    /\ (forall to subject content,
           returns populated (send_email env to subject content))
    /\ (forall user_name content,
           returns populated (send_message_with_weixin env user_name content))
    /\ (forall name arguments,
           returns populated (execute_function_call env name arguments)).
Proof.
  intros env. repeat split; intros.
  - apply get_real_weather_returns.
  - apply search_news_returns.
  - apply analyze_stock_returns.
  - apply send_email_returns.
  - apply send_message_with_weixin_returns.
  - apply execute_function_call_returns.
Qed.

(** C10.  [search_news] does not depend on [category]: two calls that
    differ in it only build the same request parameters and, in the same
    world, perform the same events and return the same result.  So do two
    dispatches of [search_news] whose argument dicts agree on [query] and
    [country] (and on having no key that is not a parameter), whatever
    they say, or do not say, about [category]. *)
Theorem search_news_ignores_category :
  forall (env : Env) (query country category1 category2 : json)
         (past : list Event),
    search_news_params env query category1 country
    = search_news_params env query category2 country
    /\ search_news env query category1 country past
       = search_news env query category2 country past
    /\ execute_function_call env "search_news"
         (JDict [("query", query); ("category", category1); ("country", country)])
         past
       = execute_function_call env "search_news"
           (JDict [("query", query); ("category", category2); ("country", country)])
           past
    /\ (forall d1 d2 : list (string * json),
           first_unexpected ["query"; "category"; "country"] d1
           = first_unexpected ["query"; "category"; "country"] d2 ->
           assoc "query" d1 = assoc "query" d2 ->
           assoc "country" d1 = assoc "country" d2 ->
           execute_function_call env "search_news" (JDict d1) past
           = execute_function_call env "search_news" (JDict d2) past).
Proof.
  intros env query country category1 category2 past.
  split; [reflexivity | ]. split; [reflexivity | ]. split; [reflexivity | ].
  intros d1 d2 Hkeys Hquery Hcountry.
  rewrite !execute_function_call_unfold.
  assert (Hbound : assoc "search_news" (function_map env)
                   = Some (call_search_news env)) by reflexivity.
  rewrite !(dispatch_known _ _ _ _ _ Hbound).
  assert (Hcall : call_search_news env (JDict d1) past
                  = call_search_news env (JDict d2) past).
  { unfold call_search_news, keywords, required, optional, pure.
    cbn [bind Monad_IO]. rewrite Hkeys.
    destruct (first_unexpected ["query"; "category"; "country"] d2);
      [reflexivity | ].
    cbn [bind Monad_IO filter]. unfold has_key. rewrite Hquery, Hcountry.
    destruct (assoc "query" d2); reflexivity. }
  now rewrite Hcall.
Qed.

(** * analyze_stock *)



Section Stock.

Variable env : Env.

Lemma analyze_stock_import_error (symbol period : json)
      (past : list Event) (e : Exc) :
  env_import_yfinance env = Raise e ->
  exc_class e = ImportError ->
  analyze_stock env symbol period past
  = (Ret (failure "需要安装yfinance库：pip install yfinance"), []).
Proof.
  intros Eimport Eclass. unfold analyze_stock, try_except, pure. cbn.
  rewrite Eimport. cbn. now rewrite Eclass.
Qed.

Lemma analyze_stock_no_rows (symbol period : json) (past : list Event)
      (info : json) :
  env_import_yfinance env = Ret tt ->
  env_ticker_info env past symbol = Ret info ->
  env_ticker_history env (past ++ [EvTickerInfo symbol (Ret info)])
                     symbol period = Ret [] ->
  fst (analyze_stock env symbol period past)
  = Ret (failure ("未找到股票代码 " +++ py_str env symbol +++ " 的数据")).
Proof.
  intros Eimport Einfo Ehist. unfold analyze_stock, try_except, pure, perform.
  cbn. rewrite Eimport. cbn. rewrite !app_nil_r, Einfo. cbn.
  rewrite Ehist. reflexivity.
Qed.

End Stock.


(** X3.  When [import yfinance] raises [ImportError], [analyze_stock]
    returns [success = False] with the dependency-missing message and
    performs no event; when the history the provider returns is empty, it
    returns [success = False] with the not-found message. *)
Theorem analyze_stock_failures :
  forall (env : Env) (symbol period : json) (past : list Event),
    (forall e,
        env_import_yfinance env = Raise e ->
        exc_class e = ImportError ->
        analyze_stock env symbol period past
        = (Ret (failure "需要安装yfinance库：pip install yfinance"), []))
    /\ (forall info,
           env_import_yfinance env = Ret tt ->
           env_ticker_info env past symbol = Ret info ->
           env_ticker_history env (past ++ [EvTickerInfo symbol (Ret info)])
                              symbol period = Ret [] ->
           fst (analyze_stock env symbol period past)
           = Ret (failure ("未找到股票代码 " +++ py_str env symbol
                           +++ " 的数据"))).
Proof.
  intros env symbol period past. split.
  - intros e. apply analyze_stock_import_error.
  - intros info. apply analyze_stock_no_rows.
Qed.

(** C8, the failing input.  When the provider returns a history of
    exactly one row (as for the period ["1d"]), the history is not empty,
    and yet [analyze_stock] returns [success = False]: the close before the
    last one does not exist, [iloc[-2]] raises [IndexError], and the generic
    handler reports its text. *)
Theorem analyze_stock_one_row :
  forall (env : Env) (symbol period : json) (past : list Event)
         (info : json) (bar : Bar),
    env_import_yfinance env = Ret tt ->
    env_ticker_info env past symbol = Ret info ->
    env_ticker_history env (past ++ [EvTickerInfo symbol (Ret info)])
                       symbol period = Ret [bar] ->
    fst (analyze_stock env symbol period past)
    = Ret (JDict [("success", JBool false);
                  ("error",
                   JStr ("股票分析失败: "
                         +++ "single positional indexer is out-of-bounds"))]).
Proof.
  intros env symbol period past info bar Eimport Einfo Ehist.
  unfold analyze_stock, try_except, pure, perform.
  cbn. rewrite Eimport. cbn. rewrite !app_nil_r, Einfo. cbn.
  rewrite Ehist. reflexivity.
Qed.

(** * The orchestration loop *)

Section Loop.

Variable env : Env.

Lemma tool_turns_cons (text : string) (texts : list string)
      (call : ToolCall) (calls : list ToolCall) :
  tool_turns (text :: texts) (call :: calls)
  = tool_turn text call :: tool_turns texts calls.
Proof. reflexivity. Qed.

Lemma tool_turns_nil (calls : list ToolCall) : tool_turns [] calls = [].
Proof. reflexivity. Qed.

(** One round of the loop over the tool calls appends the tool turn of the
    call, or aborts and leaves the history as it was. *)
Lemma run_tool_call_round (call : ToolCall) (h : list Turn) (past : list Event) :
  (exists text evs,
      run_tool_call env call h past = (Ret tt, h ++ [tool_turn text call], evs)
      /\ Forall tool_event evs)
  \/ (exists e evs,
         run_tool_call env call h past = (Raise e, h, evs)
         /\ Forall tool_event evs).
Proof.
  unfold run_tool_call, io, pure, append_history. cbn.
  destruct (env_json_loads env (fn_arguments (tc_function call)))
    as [function_args | e]; cbn.
  2: { right. exists e, []. split; [reflexivity | constructor]. }
  pose proof (execute_function_call_emits env (fn_name (tc_function call))
                function_args (past ++ [])) as Hev.
  pose proof (execute_function_call_returns env (fn_name (tc_function call))
                function_args (past ++ [])) as (result & Hres & _).
  destruct (execute_function_call env (fn_name (tc_function call))
              function_args (past ++ [])) as [o evs].
  cbn in Hev, Hres. subst o. cbn.
  destruct (env_json_dumps env result) as [text | e]; cbn.
  - left. exists text, evs. split; [ | exact Hev].
    now rewrite !app_nil_r.
  - right. exists e, evs. split; [ | exact Hev].
    now rewrite !app_nil_r.
Qed.

Lemma run_tool_calls_batch (calls : list ToolCall) :
  forall (h : list Turn) (past : list Event),
    batch h calls (run_tool_calls env calls h past).
Proof.
  induction calls as [ | call rest IH]; intros h past.
  - cbn. rewrite <- (app_nil_r h) at 2.
    apply (batch_done h [] []); [reflexivity | constructor].
  - cbn [run_tool_calls]. cbn [bind Monad_M].
    destruct (run_tool_call_round call h past)
      as [(text & evs & -> & Hev) | (e & evs & -> & Hev)].
    + specialize (IH (h ++ [tool_turn text call]) (past ++ evs)).
      destruct (run_tool_calls env rest (h ++ [tool_turn text call])
                               (past ++ evs)) as [[o h2] evs2].
      inversion IH as [texts evs' Hlen Hev' | e texts evs' Hlen Hev']; subst.
      * rewrite <- app_assoc. cbn [app]. rewrite <- tool_turns_cons.
        apply batch_done; [cbn; congruence | apply Forall_app; now split].
      * rewrite <- app_assoc. cbn [app]. rewrite <- tool_turns_cons.
        apply batch_aborted; [cbn; lia | apply Forall_app; now split].
    + rewrite <- (app_nil_r h) at 2. rewrite <- (tool_turns_nil (call :: rest)).
      apply batch_aborted; [cbn; lia | exact Hev].
Qed.

(** Every pass through the body of the [try] statement is one of the seven
    of [attempt_result]. *)
Lemma attempt_inv (h : list Turn) (past : list Event) :
  attempt_result env h past (attempt env h past).
Proof.
  unfold attempt, create. cbn [bind Monad_M].
  destruct (env_create env past true h) as [resp | e] eqn:Ecreate.
  2: { now apply first_call_raises. }
  unfold io at 1, pure at 1.
  destruct (first_message resp) as [am | e] eqn:Efirst.
  2: { cbn. now apply first_call_empty. }
  assert (Hreq : requested am = match msg_tool_calls am with
                                | Some calls => calls
                                | None => []
                                end) by reflexivity.
  destruct (msg_tool_calls am) as [[ | call rest] | ] eqn:Ecalls.
  1, 3: cbn; now apply direct_answer.
  - cbv zeta. unfold append_history at 1. cbn [bind Monad_M].
    rewrite !app_nil_r.
    assert (Hne : requested am <> []) by (rewrite Hreq; discriminate).
    destruct (run_tool_calls env (call :: rest)
                (h ++ [assistant_tool_turn am (call :: rest)])
                (past ++ [EvModelCall true h (Ret resp)]))
      as [[[[] | e] h2] evs] eqn:Erun;
      rewrite <- Hreq in Erun.
    2: { cbn. eapply dispatch_aborted; eassumption. }
    replace ((past ++ [EvModelCall true h (Ret resp)]) ++ evs)
      with (past ++ EvModelCall true h (Ret resp) :: evs)
      by (now rewrite <- app_assoc).
    destruct (env_create env (past ++ EvModelCall true h (Ret resp) :: evs)
                         false h2) as [resp2 | e] eqn:Efinal.
    2: { cbn. eapply final_call_raises; eassumption. }
    unfold io, pure.
    destruct (first_message resp2) as [final | e] eqn:Efirst2.
    2: { cbn. eapply final_call_empty; eassumption. }
    unfold append_history. cbn.
    eapply answered; eassumption.
Qed.

Lemma after_some (events : list Event) (rest : option Run) (run : Run) :
  after events rest = Some run ->
  exists evs,
    rest = Some (fst (fst run), snd (fst run), evs)
    /\ snd run = events ++ evs.
Proof.
  destruct rest as [[[answer h] evs] | ]; cbn; [ | discriminate].
  intros E. injection E as <-. exists evs. split; reflexivity.
Qed.

(** The loop function computes runs of the loop. *)
Lemma retry_loop_graph (max_retries : Z) (fuel : nat) :
  forall (retry_count : Z) (h : list Turn) (past : list Event) (run : Run),
    retry_loop env max_retries fuel retry_count h past = Some run ->
    loop_result env max_retries retry_count h past run.
Proof.
  induction fuel as [ | fuel IH]; intros retry_count h past run; cbn [retry_loop];
    destruct (Z.ltb_spec retry_count max_retries) as [Hlt | Hge];
    try discriminate;
    try (intros E; injection E as <-; now apply loop_exhausted).
  destruct (attempt env h past) as [[[answer | e] h'] evs] eqn:Eattempt.
  - intros E. injection E as <-. now apply loop_returned.
  - destruct (exc_class e) eqn:Eclass;
      try (intros E; injection E as <-; apply loop_failed;
           [assumption | assumption | now rewrite Eclass]).
    + cbv zeta. intros E. apply after_some in E as (evs' & Erest & Eevs).
      apply IH in Erest. destruct run as [[answer h''] evs'']. cbn in *. subst.
      rewrite <- app_assoc. cbn [app].
      eapply loop_rate_limited; eassumption.
    + cbv zeta. intros E. apply after_some in E as (evs' & Erest & Eevs).
      apply IH in Erest. destruct run as [[answer h''] evs'']. cbn in *. subst.
      eapply loop_timed_out; eassumption.
Qed.

(** The loop ends: the fuel [chat_with_function_calling] gives it is
    enough. *)
Lemma retry_loop_total (max_retries : Z) (fuel : nat) :
  forall (retry_count : Z) (h : list Turn) (past : list Event),
    (Z.to_nat (max_retries - retry_count) <= fuel)%nat ->
    exists run, retry_loop env max_retries fuel retry_count h past = Some run.
Proof.
  induction fuel as [ | fuel IH]; intros retry_count h past Hfuel; cbn [retry_loop];
    destruct (Z.ltb_spec retry_count max_retries) as [Hlt | Hge];
    try (eexists; reflexivity); try lia.
  destruct (attempt env h past) as [[[answer | e] h'] evs].
  - eexists; reflexivity.
  - destruct (exc_class e); try (eexists; reflexivity); cbv zeta.
    + destruct (IH (retry_count + 1)%Z h'
                   (past ++ evs ++ [EvSleep (2 ^ (retry_count + 1))]))
        as ([[answer h''] evs'] & ->); [lia | ].
      eexists; reflexivity.
    + destruct (IH (retry_count + 1)%Z h' (past ++ evs))
        as ([[answer h''] evs'] & ->); [lia | ].
      eexists; reflexivity.
Qed.

Lemma chat_returns (user_message : string) (max_retries : Z)
      (h : list Turn) (past : list Event) :
  exists run,
    chat_with_function_calling env user_message max_retries h past = Some run.
Proof.
  unfold chat_with_function_calling. apply retry_loop_total.
  rewrite Z.sub_0_r. lia.
Qed.

Lemma chat_graph (user_message : string) (max_retries : Z)
      (h : list Turn) (past : list Event) (run : Run) :
  chat_with_function_calling env user_message max_retries h past = Some run ->
  loop_result env max_retries 0 (h ++ [user_turn user_message]) past run.
Proof. apply retry_loop_graph. Qed.

End Loop.

(** * The retry budget *)

Lemma model_calls_timeline (evs : list Event) :
  List.length (model_calls evs) = List.length (filter is_call (timeline evs)).
Proof.
  induction evs as [ | ev evs IH]; [reflexivity | ].
  destruct ev as [tools msgs [resp | e] | w | | | | | ]; cbn; auto.
Qed.

Lemma waits_timeline (evs : list Event) :
  waits evs
  = flat_map (fun s => match s with Wait w => [w] | Call _ => [] end)
             (timeline evs).
Proof.
  unfold waits, timeline.
  induction evs as [ | ev evs IH]; [reflexivity | ].
  destruct ev as [tools msgs [resp | e] | w | | | | | ]; cbn; auto.
  now f_equal.
Qed.

Lemma schedule_rate_limited (n : nat) :
  forall k : Z,
    (0 <= k)%Z ->
    schedule k (repeat RateLimitError n)
    = flat_map rate_limited_attempt (map Z.of_nat (seq (Z.to_nat k) n)).
Proof.
  induction n as [ | n IH]; intros k Hk; [reflexivity | ].
  cbn [repeat schedule seq map flat_map rate_limited_attempt app].
  rewrite Z2Nat.id by exact Hk. do 2 f_equal.
  rewrite IH by lia. now rewrite Z2Nat.inj_add, Nat.add_1_r by lia.
Qed.

Lemma schedule_timed_out (n : nat) :
  forall k : Z,
    schedule k (repeat APITimeoutError n)
    = repeat (Call (Some APITimeoutError)) n.
Proof.
  induction n as [ | n IH]; intros k; [reflexivity | ].
  cbn. now rewrite IH.
Qed.

Lemma schedule_calls (kinds : list ExcClass) :
  forall k : Z,
    List.length (filter is_call (schedule k kinds)) = List.length kinds.
Proof.
  induction kinds as [ | c kinds IH]; intros k; [reflexivity | ].
  cbn [schedule filter is_call List.length]. f_equal.
  rewrite filter_app, length_app, IH.
  destruct c; reflexivity.
Qed.

Lemma rate_limited_waits (ks : list Z) :
  flat_map (fun s => match s with Wait w => [w] | Call _ => [] end)
           (flat_map rate_limited_attempt ks)
  = map (Z.pow 2) ks.
Proof.
  induction ks as [ | k ks IH]; [reflexivity | ].
  cbn. now rewrite IH.
Qed.

Lemma timed_out_waits (n : nat) :
  flat_map (fun s => match s with Wait w => [w] | Call _ => [] end)
           (repeat (Call (Some APITimeoutError)) n)
  = [].
Proof. induction n as [ | n IH]; [reflexivity | exact IH]. Qed.

(** The waits [2 ^ k], [2 ^ (k + 1)], ... grow strictly. *)
Lemma powers_increasing (n k : nat) :
  StronglySorted Z.lt (map (Z.pow 2) (map Z.of_nat (seq k n))).
Proof.
  revert k. induction n as [ | n IH]; intros k; cbn; constructor.
  - apply IH.
  - rewrite map_map. apply Forall_forall. intros w Hw.
    apply in_map_iff in Hw as (i & <- & Hi). apply in_seq in Hi.
    apply Z.pow_lt_mono_r; lia.
Qed.

Section RetryBudget.

Variable env : Env.
Variable max_retries : Z.

(** The classes of the exceptions the model endpoint raises. *)
Variable raised : ExcClass -> Prop.

Hypothesis raised_retryable : forall c, raised c -> retryable c = true.

Hypothesis always_raises :
  forall past with_tools messages,
    exists e,
      env_create env past with_tools messages = Raise e
      /\ raised (exc_class e).

Lemma attempt_first_raise (h : list Turn) (past : list Event) (e : Exc) :
  env_create env past true h = Raise e ->
  attempt env h past = (Raise e, h, [EvModelCall true h (Raise e)]).
Proof. intros E. unfold attempt, create. cbn. now rewrite E. Qed.

(** While every call of the model raises a retryable exception, the loop
    uses up the attempts that are left and gives up. *)
Lemma retry_loop_budget (fuel : nat) :
  forall (retry_count : Z) (h : list Turn) (past : list Event),
    (Z.to_nat (max_retries - retry_count) <= fuel)%nat ->
    exists kinds evs,
      retry_loop env max_retries fuel retry_count h past
      = Some (Some exhausted, h, evs)
      /\ List.length kinds = Z.to_nat (max_retries - retry_count)
      /\ Forall raised kinds
      /\ timeline evs = schedule (retry_count + 1) kinds.
Proof.
  induction fuel as [ | fuel IH]; intros retry_count h past Hfuel;
    cbn [retry_loop];
    destruct (Z.ltb_spec retry_count max_retries) as [Hlt | Hge];
    try lia;
    try (exists [], []; repeat split; [cbn; lia | constructor]).
  destruct (always_raises past true h) as (e & Ecreate & He).
  rewrite (attempt_first_raise _ _ _ Ecreate).
  pose proof (raised_retryable _ He) as Hretry.
  destruct (exc_class e) eqn:Eclass; try discriminate; cbv zeta.
  - destruct (IH (retry_count + 1)%Z h
                 (past ++ [EvModelCall true h (Raise e)]
                       ++ [EvSleep (2 ^ (retry_count + 1))]))
      as (kinds & evs & Erest & Hlen & Hall & Htime); [lia | ].
    exists (RateLimitError :: kinds). eexists.
    cbn [app] in Erest |- *. rewrite Erest. cbn [after].
    repeat split.
    + cbn. lia.
    + constructor; assumption.
    + unfold timeline in *. cbn. now rewrite Eclass, Htime.
  - destruct (IH (retry_count + 1)%Z h
                 (past ++ [EvModelCall true h (Raise e)]))
      as (kinds & evs & Erest & Hlen & Hall & Htime); [lia | ].
    exists (APITimeoutError :: kinds). eexists.
    rewrite Erest. cbn [after].
    repeat split.
    + cbn. lia.
    + constructor; assumption.
    + unfold timeline in *. cbn. now rewrite Eclass, Htime.
Qed.

Lemma chat_budget (user_message : string) (h : list Turn) (past : list Event) :
  exists kinds evs,
    chat_with_function_calling env user_message max_retries h past
    = Some (Some exhausted, h ++ [user_turn user_message], evs)
    /\ List.length kinds = Z.to_nat max_retries
    /\ Forall raised kinds
    /\ timeline evs = schedule 1 kinds.
Proof.
  unfold chat_with_function_calling.
  destruct (retry_loop_budget (Z.to_nat max_retries) 0
              (h ++ [user_turn user_message]) past)
    as (kinds & evs & E & Hlen & Hall & Htime).
  - rewrite Z.sub_0_r. lia.
  - exists kinds, evs. rewrite Z.sub_0_r in Hlen. now repeat split.
Qed.

End RetryBudget.

(** C1.  Let [max_retries >= 1].  If every call of the model raises a
    rate-limit error, [chat_with_function_calling] calls the model exactly
    [max_retries] times, waits [2 ^ k] after the [k]-th failed call (so the
    waits grow strictly) and returns the fixed message [exhausted], the
    history holding the user turn only.  If every call times out, it calls
    the model [max_retries] times without any wait and returns the same
    message.  When rate limits and timeouts mix, both count against the one
    [retry_count]: there are [max_retries] calls in all, and a rate limit at
    the [k]-th call, timeouts before it included, waits [2 ^ k]. *)
Theorem retry_budget :
  forall (env : Env) (user_message : string) (max_retries : Z)
         (h : list Turn) (past : list Event),
    (1 <= max_retries)%Z ->
    ((forall past' with_tools messages,
         exists e,
           env_create env past' with_tools messages = Raise e
           /\ exc_class e = RateLimitError) ->
     exists evs,
       chat_with_function_calling env user_message max_retries h past
       = Some (Some exhausted, h ++ [user_turn user_message], evs)
       /\ timeline evs = flat_map rate_limited_attempt (attempts max_retries)
       /\ Z.of_nat (List.length (model_calls evs)) = max_retries
       /\ waits evs = map (Z.pow 2) (attempts max_retries)
       /\ StronglySorted Z.lt (waits evs))
    /\ ((forall past' with_tools messages,
            exists e,
              env_create env past' with_tools messages = Raise e
              /\ exc_class e = APITimeoutError) ->
        exists evs,
          chat_with_function_calling env user_message max_retries h past
          = Some (Some exhausted, h ++ [user_turn user_message], evs)
          /\ timeline evs
             = repeat (Call (Some APITimeoutError)) (Z.to_nat max_retries)
          /\ Z.of_nat (List.length (model_calls evs)) = max_retries
          /\ waits evs = [])
    /\ ((forall past' with_tools messages,
            exists e,
              env_create env past' with_tools messages = Raise e
              /\ retryable (exc_class e) = true) ->
        exists kinds evs,
          chat_with_function_calling env user_message max_retries h past
          = Some (Some exhausted, h ++ [user_turn user_message], evs)
          /\ Z.of_nat (List.length kinds) = max_retries
          /\ Forall (fun c => retryable c = true) kinds
          /\ timeline evs = schedule 1 kinds
          /\ Z.of_nat (List.length (model_calls evs)) = max_retries).
Proof.
  intros env user_message max_retries h past Hmax. repeat split.
  - intros Hall.
    assert (Hretry : forall c, RateLimitError = c -> retryable c = true)
      by (intros c <-; reflexivity).
    assert (Hraise : forall p t m,
               exists e, env_create env p t m = Raise e
                         /\ RateLimitError = exc_class e).
    { intros p t m. destruct (Hall p t m) as (e & E & C).
      exists e. split; [exact E | now symmetry]. }
    destruct (chat_budget env max_retries (eq RateLimitError) Hretry Hraise
                           user_message h past)
      as (kinds & evs & Erun & Hlen & Hkinds & Htime).
    apply Forall_eq_repeat in Hkinds. rewrite Hlen in Hkinds. subst kinds.
    assert (Hcalls : Z.of_nat (List.length (model_calls evs)) = max_retries)
      by (rewrite model_calls_timeline, Htime, schedule_calls, repeat_length;
          lia).
    rewrite (schedule_rate_limited _ 1) in Htime by lia.
    change (map Z.of_nat (seq (Z.to_nat 1) (Z.to_nat max_retries)))
      with (attempts max_retries) in Htime.
    assert (Hwaits : waits evs = map (Z.pow 2) (attempts max_retries))
      by (now rewrite waits_timeline, Htime, rate_limited_waits).
    exists evs. repeat split; try assumption.
    rewrite Hwaits. apply powers_increasing.
  - intros Hall.
    assert (Hretry : forall c, APITimeoutError = c -> retryable c = true)
      by (intros c <-; reflexivity).
    assert (Hraise : forall p t m,
               exists e, env_create env p t m = Raise e
                         /\ APITimeoutError = exc_class e).
    { intros p t m. destruct (Hall p t m) as (e & E & C).
      exists e. split; [exact E | now symmetry]. }
    destruct (chat_budget env max_retries (eq APITimeoutError) Hretry Hraise
                           user_message h past)
      as (kinds & evs & Erun & Hlen & Hkinds & Htime).
    apply Forall_eq_repeat in Hkinds. rewrite Hlen in Hkinds. subst kinds.
    assert (Hcalls : Z.of_nat (List.length (model_calls evs)) = max_retries)
      by (rewrite model_calls_timeline, Htime, schedule_calls, repeat_length;
          lia).
    rewrite schedule_timed_out in Htime.
    exists evs. repeat split; try assumption.
    now rewrite waits_timeline, Htime, timed_out_waits.
  - intros Hall.
    destruct (chat_budget env max_retries (fun c => retryable c = true)
                (fun c H => H) Hall user_message h past)
      as (kinds & evs & Erun & Hlen & Hkinds & Htime).
    exists kinds, evs. repeat split; try assumption.
    + lia.
    + rewrite model_calls_timeline, Htime, schedule_calls. lia.
Qed.

(** * Runs of the loop *)

Lemma model_calls_app (evs evs' : list Event) :
  model_calls (evs ++ evs') = model_calls evs ++ model_calls evs'.
Proof. apply filter_app. Qed.

Lemma model_calls_tools (evs : list Event) :
  Forall tool_event evs -> model_calls evs = [].
Proof.
  induction 1 as [ | ev evs Hev _ IH]; [reflexivity | ].
  cbn. destruct ev; try discriminate Hev; exact IH.
Qed.

Lemma tool_event_quiet (ev : Event) : tool_event ev -> quiet ev.
Proof. destruct ev; try discriminate; reflexivity. Qed.

Lemma quiet_tolerable (ev : Event) : quiet ev -> tolerable ev.
Proof. unfold quiet, tolerable. now intros ->. Qed.

Lemma tools_quiet (evs : list Event) :
  Forall tool_event evs -> Forall quiet evs.
Proof. apply Forall_impl, tool_event_quiet. Qed.

Lemma first_message_raise (resp : ChatCompletion) (e : Exc) :
  first_message resp = Raise e -> exc_class e = IndexError.
Proof.
  unfold first_message. destruct (choices resp); [ | discriminate].
  intros E. now injection E as <-.
Qed.

Section Runs.

Variable env : Env.

(** What a finished or aborted loop over the tool calls tells. *)
Lemma run_tool_calls_inv (calls : list ToolCall) (h : list Turn)
      (past : list Event) (o : Outcome unit) (h2 : list Turn)
      (evs : list Event) :
  run_tool_calls env calls h past = (o, h2, evs) ->
  exists texts,
    h2 = h ++ tool_turns texts calls
    /\ (List.length texts <= List.length calls)%nat
    /\ (is_ret o = true -> List.length texts = List.length calls)
    /\ Forall tool_event evs.
Proof.
  intros E. pose proof (run_tool_calls_batch env calls h past) as B.
  rewrite E in B.
  inversion B as [texts evs' Hlen Hev | e texts evs' Hlen Hev]; subst;
    exists texts; repeat split; try assumption; try lia.
  discriminate.
Qed.

(** The loop over the tool calls dispatches them in the order of the
    list. *)
Lemma run_tool_calls_dispatched (calls : list ToolCall) :
  forall (h : list Turn) (past : list Event) (o : Outcome unit)
         (h2 : list Turn) (evs : list Event),
    run_tool_calls env calls h past = (o, h2, evs) ->
    exists texts,
      h2 = h ++ tool_turns texts calls
      /\ dispatched env past calls o texts evs.
Proof.
  induction calls as [ | call calls IH]; intros h past o h2 evs.
  - cbn. intros E. injection E as <- <- <-. exists [].
    rewrite tool_turns_nil, app_nil_r. split; [reflexivity | constructor].
  - cbn [run_tool_calls bind Monad_M].
    unfold run_tool_call, io, pure, append_history. cbn.
    destruct (env_json_loads env (fn_arguments (tc_function call)))
      as [function_args | e] eqn:Hloads; cbn.
    2: { intros E. injection E as <- <- <-. exists [].
         rewrite tool_turns_nil, app_nil_r.
         split; [reflexivity | now constructor]. }
    rewrite !app_nil_r.
    pose proof (execute_function_call_returns env (fn_name (tc_function call))
                  function_args past) as (result & Hres & _).
    destruct (execute_function_call env (fn_name (tc_function call))
                function_args past) as [o1 evs1] eqn:Hrun.
    cbn in Hres. subst o1. cbn.
    destruct (env_json_dumps env result) as [text | e] eqn:Hdumps; cbn.
    + rewrite !app_nil_r.
      destruct (run_tool_calls env calls (h ++ [tool_turn text call])
                               (past ++ evs1)) as [[o2 h3] evs2] eqn:Hrest.
      intros E. injection E as <- <- <-.
      destruct (IH _ _ _ _ _ Hrest) as (texts & -> & Hdispatched).
      exists (text :: texts). rewrite tool_turns_cons, <- app_assoc.
      split; [reflexivity | ].
      eapply dispatched_next; eassumption.
    + rewrite !app_nil_r. intros E. injection E as <- <- <-. exists [].
      rewrite tool_turns_nil, app_nil_r.
      split; [reflexivity | ]. eapply dispatched_unserialised; eassumption.
Qed.

Lemma dispatched_tool_events (past : list Event) (calls : list ToolCall)
      (o : Outcome unit) (texts : list string) (evs : list Event) :
  dispatched env past calls o texts evs -> Forall tool_event evs.
Proof.
  induction 1 as
    [ past
    | past call calls e Hloads
    | past call calls function_args result evs e Hloads Hrun Hdumps
    | past call calls function_args result evs text o texts evs'
        Hloads Hrun Hdumps Hrest IH ].
  - constructor.
  - constructor.
  - pose proof (execute_function_call_emits env (fn_name (tc_function call))
                  function_args past) as Hev.
    now rewrite Hrun in Hev.
  - apply Forall_app. split; [ | exact IH].
    pose proof (execute_function_call_emits env (fn_name (tc_function call))
                  function_args past) as Hev.
    now rewrite Hrun in Hev.
Qed.

(** In a pass, a call of the model that raises is the last event, and the
    pass raises its exception. *)
Lemma attempt_failed_call (h : list Turn) (past : list Event)
      (o : Outcome (option string)) (h' : list Turn) (evs : list Event) :
  attempt env h past = (o, h', evs) ->
  Forall quiet evs
  \/ exists pre with_tools messages e,
       evs = pre ++ [EvModelCall with_tools messages (Raise e)]
       /\ Forall quiet pre
       /\ o = Raise e.
Proof.
  intros E. pose proof (attempt_inv env h past) as A. rewrite E in A.
  inversion A; subst;
    try match goal with
        | H : run_tool_calls _ _ _ _ = _ |- _ =>
            apply run_tool_calls_inv in H as (texts & _ & _ & _ & Htools);
            apply tools_quiet in Htools
        end.
  - right. exists []. do 3 eexists. repeat split. constructor.
  - left. repeat constructor.
  - left. repeat constructor.
  - left. constructor; [reflexivity | assumption].
  - right. eexists (_ :: _). do 3 eexists.
    split; [reflexivity | ]. split; [ | reflexivity].
    constructor; [reflexivity | assumption].
  - left. constructor; [reflexivity | ].
    apply Forall_app. split; [assumption | repeat constructor].
  - left. constructor; [reflexivity | ].
    apply Forall_app. split; [assumption | repeat constructor].
Qed.

(** In a run, a call of the model that raises an exception the loop does
    not retry is the last event, and the run returns the apology for it. *)
Lemma loop_fatal_call (max_retries retry_count : Z) (h : list Turn)
      (past : list Event) (run : Run) :
  loop_result env max_retries retry_count h past run ->
  Forall tolerable (snd run)
  \/ exists pre with_tools messages e,
       snd run = pre ++ [EvModelCall with_tools messages (Raise e)]
       /\ Forall tolerable pre
       /\ retryable (exc_class e) = false
       /\ fst (fst run) = Some (apology e).
Proof.
  induction 1 as
    [ rc h past Hge
    | rc h past answer h' evs Hlt Eattempt
    | rc h past e h' evs Hlt Eattempt Hfatal
    | rc h past e h' evs answer h'' evs' Hlt Eattempt Hclass Hrest IH
    | rc h past e h' evs answer h'' evs' Hlt Eattempt Hclass Hrest IH ];
    cbn [fst snd] in *.
  - left. constructor.
  - destruct (attempt_failed_call _ _ _ _ _ Eattempt)
      as [Hq | (pre & t & m & e & _ & _ & Habs)]; [ | discriminate].
    left. revert Hq. apply Forall_impl, quiet_tolerable.
  - destruct (attempt_failed_call _ _ _ _ _ Eattempt)
      as [Hq | (pre & t & m & e' & -> & Hq & Eraise)].
    + left. revert Hq. apply Forall_impl, quiet_tolerable.
    + injection Eraise as <-. right. exists pre, t, m, e.
      repeat split; try assumption.
      revert Hq. apply Forall_impl, quiet_tolerable.
  - assert (Hattempt : Forall tolerable evs).
    { destruct (attempt_failed_call _ _ _ _ _ Eattempt)
        as [Hq | (pre & t & m & e' & -> & Hq & Eraise)].
      - revert Hq. apply Forall_impl, quiet_tolerable.
      - injection Eraise as <-. apply Forall_app. split.
        + revert Hq. apply Forall_impl, quiet_tolerable.
        + constructor; [ | constructor]. unfold tolerable. cbn.
          now rewrite Hclass. }
    destruct IH as [Hall | (pre & t & m & e' & -> & Hpre & Hfatal & Hans)].
    + left. apply Forall_app. split; [assumption | ].
      constructor; [exact I | assumption].
    + right. exists (evs ++ EvSleep (2 ^ (rc + 1)) :: pre), t, m, e'.
      repeat split; try assumption.
      * now rewrite <- app_assoc.
      * apply Forall_app. split; [assumption | ].
        constructor; [exact I | assumption].
  - assert (Hattempt : Forall tolerable evs).
    { destruct (attempt_failed_call _ _ _ _ _ Eattempt)
        as [Hq | (pre & t & m & e' & -> & Hq & Eraise)].
      - revert Hq. apply Forall_impl, quiet_tolerable.
      - injection Eraise as <-. apply Forall_app. split.
        + revert Hq. apply Forall_impl, quiet_tolerable.
        + constructor; [ | constructor]. unfold tolerable. cbn.
          now rewrite Hclass. }
    destruct IH as [Hall | (pre & t & m & e' & -> & Hpre & Hfatal & Hans)].
    + left. apply Forall_app. now split.
    + right. exists (evs ++ pre), t, m, e'.
      repeat split; try assumption.
      * now rewrite <- app_assoc.
      * apply Forall_app. now split.
Qed.

End Runs.

(** A first pass that raises an exception the loop does not retry ends
    the call. *)
Lemma chat_fatal_pass (env : Env) (user_message : string) (max_retries : Z)
      (h : list Turn) (past : list Event) (e : Exc) (h2 : list Turn)
      (evs : list Event) :
  (1 <= max_retries)%Z ->
  attempt env (h ++ [user_turn user_message]) past = (Raise e, h2, evs) ->
  retryable (exc_class e) = false ->
  chat_with_function_calling env user_message max_retries h past
  = Some (Some (apology e), h2, evs).
Proof.
  intros Hmax Eattempt Hfatal. unfold chat_with_function_calling.
  destruct (Z.to_nat max_retries) as [ | fuel] eqn:Efuel; [lia | ].
  cbn [retry_loop].
  destruct (Z.ltb_spec 0 max_retries); [ | lia].
  rewrite Eattempt.
  destruct (exc_class e); try discriminate Hfatal; reflexivity.
Qed.

(** A pass whose final call of the model raises. *)
Lemma attempt_final_raise (env : Env) (h : list Turn) (past : list Event)
      (resp : ChatCompletion) (am : Message) (h2 : list Turn)
      (tool_evs : list Event) (e : Exc) :
  env_create env past true h = Ret resp ->
  first_message resp = Ret am ->
  requested am <> [] ->
  run_tool_calls env (requested am)
                 (h ++ [assistant_tool_turn am (requested am)])
                 (past ++ [EvModelCall true h (Ret resp)])
  = (Ret tt, h2, tool_evs) ->
  env_create env (past ++ EvModelCall true h (Ret resp) :: tool_evs) false h2
  = Raise e ->
  attempt env h past
  = (Raise e, h2,
     EvModelCall true h (Ret resp) :: tool_evs
     ++ [EvModelCall false h2 (Raise e)]).
Proof.
  intros Ecreate Efirst Hne Etools Efinal.
  pose proof (attempt_inv env h past) as A.
  destruct (attempt env h past) as [[o h'] evs].
  inversion A; subst; try congruence;
    repeat match goal with
           | H : env_create env past true h = Ret ?r |- _ =>
               tryif constr_eq r resp then fail
               else (assert (r = resp) by congruence; subst r)
           | H : first_message resp = Ret ?m |- _ =>
               tryif constr_eq m am then fail
               else (assert (m = am) by congruence; subst m)
           end;
    match goal with
    | H : run_tool_calls _ _ _ _ = _ |- _ =>
        rewrite Etools in H; injection H as <- <-
    end;
    congruence.
Qed.

(** C5.  [chat_with_function_calling] always returns.  If in the run a
    call of the model raised an exception that is neither a rate limit nor
    a timeout, that call is the last thing the run did (no wait, no further
    call), and the returned value is the apology text followed by the
    text of the exception.  And the model is called: with an attempt to
    make, an endpoint that raises such an exception at the first call makes
    the run consist of that one call, the history grow by the user turn
    only, and the answer be the apology with the text of the exception;
    an endpoint that raises it at the final call of the first pass, after
    the tools have run, makes the run end with that call, and the answer
    be the apology. *)
Theorem fatal_model_error_aborts :
  forall (env : Env) (user_message : string) (max_retries : Z)
         (h : list Turn) (past : list Event),
    exists (answer : option string) (h' : list Turn) (evs : list Event),
      chat_with_function_calling env user_message max_retries h past
      = Some (answer, h', evs)
      /\ (forall pre with_tools messages e post,
             evs = pre ++ EvModelCall with_tools messages (Raise e) :: post ->
             retryable (exc_class e) = false ->
             post = []
             /\ answer = Some ("抱歉，我遇到了技术问题：" +++ exc_str e))
      /\ (forall e,
             (1 <= max_retries)%Z ->
             env_create env past true (h ++ [user_turn user_message])
             = Raise e ->
             retryable (exc_class e) = false ->
             answer = Some ("抱歉，我遇到了技术问题：" +++ exc_str e)
             /\ h' = h ++ [user_turn user_message]
             /\ evs = [EvModelCall true (h ++ [user_turn user_message])
                                   (Raise e)])
      /\ (forall resp am h2 tool_evs e,
             (1 <= max_retries)%Z ->
             env_create env past true (h ++ [user_turn user_message])
             = Ret resp ->
             first_message resp = Ret am ->
             requested am <> [] ->
             run_tool_calls
               env (requested am)
               ((h ++ [user_turn user_message])
                ++ [assistant_tool_turn am (requested am)])
               (past ++ [EvModelCall true (h ++ [user_turn user_message])
                                     (Ret resp)])
             = (Ret tt, h2, tool_evs) ->
             env_create
               env
               (past ++ EvModelCall true (h ++ [user_turn user_message])
                                    (Ret resp) :: tool_evs)
               false h2
             = Raise e ->
             retryable (exc_class e) = false ->
             answer = Some ("抱歉，我遇到了技术问题：" +++ exc_str e)
             /\ h' = h2
             /\ evs = EvModelCall true (h ++ [user_turn user_message])
                                  (Ret resp)
                      :: tool_evs ++ [EvModelCall false h2 (Raise e)]).
Proof.
  intros env user_message max_retries h past.
  destruct (chat_returns env user_message max_retries h past)
    as ([[answer h'] evs] & Erun).
  exists answer, h', evs. split; [exact Erun | ]. split; [ | split].
  - intros pre t m e post Eevs Hfatal.
    apply chat_graph, loop_fatal_call in Erun. cbn [fst snd] in Erun.
    destruct Erun as [Hall | (pre0 & t0 & m0 & e0 & E0 & Hpre & _ & Hans)].
    + exfalso. subst evs. apply Forall_app in Hall as [_ Hall].
      inversion Hall as [ | ? ? Hev _]. unfold tolerable in Hev. cbn in Hev.
      congruence.
    + destruct post as [ | ev post] using rev_ind.
      * rewrite Eevs in E0. apply app_inj_tail in E0 as [_ E0].
        injection E0 as _ _ <-. split; [reflexivity | exact Hans].
      * exfalso. clear IHpost. rewrite Eevs in E0.
        change (pre ++ EvModelCall t m (Raise e) :: post ++ [ev])
          with (pre ++ (EvModelCall t m (Raise e) :: post) ++ [ev]) in E0.
        rewrite app_assoc in E0. apply app_inj_tail in E0 as [E0 _].
        subst pre0. apply Forall_app in Hpre as [_ Hpre].
        inversion Hpre as [ | ? ? Hev _]. unfold tolerable in Hev.
        cbn in Hev. congruence.
  - intros e Hmax Ecreate Hfatal.
    pose proof (chat_fatal_pass env user_message max_retries h past e _ _
                  Hmax (attempt_first_raise env _ _ _ Ecreate) Hfatal)
      as Efatal.
    rewrite Efatal in Erun. injection Erun as <- <- <-.
    repeat split.
  - intros resp am h2 tool_evs e Hmax Ecreate Efirst Hne Etools Efinal Hfatal.
    pose proof (chat_fatal_pass env user_message max_retries h past e _ _
                  Hmax
                  (attempt_final_raise env _ _ _ _ _ _ _
                     Ecreate Efirst Hne Etools Efinal)
                  Hfatal)
      as Efatal.
    rewrite Efatal in Erun. injection Erun as <- <- <-.
    repeat split.
Qed.

(** * Passes through the tool-dispatch path *)

Section Scenarios.

Variable env : Env.

Lemma attempt_head (h : list Turn) (past : list Event)
      (o : Outcome (option string)) (h' : list Turn) (evs : list Event) :
  attempt env h past = (o, h', evs) ->
  exists out rest, evs = EvModelCall true h out :: rest.
Proof.
  intros E. pose proof (attempt_inv env h past) as A. rewrite E in A.
  inversion A; subst; eexists; eexists; reflexivity.
Qed.

(** The first call a run makes offers the tools. *)
Lemma loop_first_call (max_retries retry_count : Z) (h : list Turn)
      (past : list Event) (run : Run) :
  loop_result env max_retries retry_count h past run ->
  forall with_tools messages out rest,
    model_calls (snd run) = EvModelCall with_tools messages out :: rest ->
    with_tools = true.
Proof.
  intros L t m o rest. inversion L; subst; cbn [snd];
    try discriminate;
    match goal with
    | H : attempt _ _ _ = _ |- _ =>
        apply attempt_head in H as (out & tl & ->)
    end;
    cbn; intros E; now injection E.
Qed.

(** Reading the calls of the model off the events of a pass. *)
Ltac tool_events :=
  repeat match goal with
         | H : run_tool_calls _ _ _ _ = _ |- _ =>
             let texts := fresh "texts" in
             let Hh := fresh "Hh" in
             let Hle := fresh "Hle" in
             let Hlen := fresh "Hlen" in
             let Htools := fresh "Htools" in
             pose proof (run_tool_calls_inv _ _ _ _ _ _ _ H)
               as (texts & Hh & Hle & Hlen & Htools);
             apply model_calls_tools in Htools;
             revert H
         end;
  intros.

Ltac flatten :=
  repeat first [rewrite <- app_assoc | progress cbn [app]].

Ltac flatten_in H :=
  repeat first [rewrite <- app_assoc in H | progress cbn [app] in H].

Ltac read_calls H :=
  unfold model_calls in *; cbn [filter is_model_call app] in H;
  rewrite ?filter_app in H; cbn [filter is_model_call app] in H;
  repeat match goal with
         | E : filter is_model_call _ = [] |- _ => rewrite E in H
         end;
  cbn [app] in H.

(** A run in which the model was called twice, both calls returned and the
    second was made without the tools, is one pass through the
    tool-dispatch path. *)
Lemma two_call_run (max_retries retry_count : Z) (h : list Turn)
      (past : list Event) (answer : option string) (h' : list Turn)
      (evs : list Event) (m1 m2 : list Turn) (r1 r2 : ChatCompletion)
      (final : Message) :
  loop_result env max_retries retry_count h past (answer, h', evs) ->
  model_calls evs
  = [EvModelCall true m1 (Ret r1); EvModelCall false m2 (Ret r2)] ->
  first_message r2 = Ret final ->
  exists am tool_evs,
    first_message r1 = Ret am
    /\ requested am <> []
    /\ m1 = h
    /\ run_tool_calls env (requested am)
                      (h ++ [assistant_tool_turn am (requested am)])
                      (past ++ [EvModelCall true h (Ret r1)])
       = (Ret tt, m2, tool_evs)
    /\ evs = EvModelCall true h (Ret r1) :: tool_evs
             ++ [EvModelCall false m2 (Ret r2)]
    /\ h' = m2 ++ [assistant_turn (msg_content final)]
    /\ answer = msg_content final.
Proof.
  intros L Hcalls Hfinal.
  inversion L as
    [ rc h0 past0 Hge
    | rc h0 past0 answer0 h0' evs0 Hlt Eattempt
    | rc h0 past0 e h0' evs0 Hlt Eattempt Hfatal
    | rc h0 past0 e h0' evs0 answer0 h0'' evs0' Hlt Eattempt Hclass Hrest
    | rc h0 past0 e h0' evs0 answer0 h0'' evs0' Hlt Eattempt Hclass Hrest ];
    subst.
  - discriminate.
  - pose proof (attempt_inv env h past) as A. rewrite Eattempt in A.
    inversion A; subst; tool_events; read_calls Hcalls; try discriminate.
    injection Hcalls as <- <- <- <-.
    assert (final0 = final) by congruence. subst final0.
    exists am, evs0. repeat split; assumption.
  - pose proof (attempt_inv env h past) as A. rewrite Eattempt in A.
    inversion A; subst; tool_events; read_calls Hcalls; try discriminate.
    injection Hcalls as <- <- <- <-. congruence.
  - pose proof (attempt_inv env h past) as A. rewrite Eattempt in A.
    pose proof (loop_first_call _ _ _ _ _ Hrest) as Hfirst. cbn [snd] in Hfirst.
    inversion A; subst; tool_events; read_calls Hcalls; try discriminate.
    + injection Hcalls as <- <- Hcalls.
      now specialize (Hfirst _ _ _ _ Hcalls).
    + injection Hcalls as <- <- Hcalls.
      now specialize (Hfirst _ _ _ _ Hcalls).
    + injection Hcalls as <- <- <- <- _. congruence.
  - pose proof (attempt_inv env h past) as A. rewrite Eattempt in A.
    pose proof (loop_first_call _ _ _ _ _ Hrest) as Hfirst. cbn [snd] in Hfirst.
    inversion A; subst; tool_events; read_calls Hcalls; try discriminate.
    + injection Hcalls as <- <- Hcalls.
      now specialize (Hfirst _ _ _ _ Hcalls).
    + injection Hcalls as <- <- Hcalls.
      now specialize (Hfirst _ _ _ _ Hcalls).
    + injection Hcalls as <- <- <- <- _. congruence.
Qed.


(** A run with four calls of the model, of which the second, made without
    the tools, raised: two passes through the tool-dispatch path, the
    second starting from the history the first left. *)
Lemma repeated_dispatch_run (max_retries retry_count : Z) (h : list Turn)
      (past : list Event) (answer : option string) (h' : list Turn)
      (evs : list Event) (m1 m2 m3 m4 : list Turn)
      (r1 r3 r4 : ChatCompletion) (e : Exc) (final : Message) :
  loop_result env max_retries retry_count h past (answer, h', evs) ->
  model_calls evs
  = [EvModelCall true m1 (Ret r1); EvModelCall false m2 (Raise e);
     EvModelCall true m3 (Ret r3); EvModelCall false m4 (Ret r4)] ->
  first_message r4 = Ret final ->
  exists am1 am3 evs1 evs3,
    first_message r1 = Ret am1
    /\ first_message r3 = Ret am3
    /\ requested am1 <> []
    /\ requested am3 <> []
    /\ retryable (exc_class e) = true
    /\ m1 = h
    /\ m3 = m2
    /\ run_tool_calls env (requested am1)
                      (h ++ [assistant_tool_turn am1 (requested am1)])
                      (past ++ [EvModelCall true h (Ret r1)])
       = (Ret tt, m2, evs1)
    /\ run_tool_calls env (requested am3)
                      (m2 ++ [assistant_tool_turn am3 (requested am3)])
                      ((past ++ EvModelCall true h (Ret r1) :: evs1
                             ++ EvModelCall false m2 (Raise e)
                             :: pause_after (exc_class e) retry_count)
                       ++ [EvModelCall true m2 (Ret r3)])
       = (Ret tt, m4, evs3)
    /\ evs = EvModelCall true h (Ret r1) :: evs1
             ++ EvModelCall false m2 (Raise e)
             :: pause_after (exc_class e) retry_count
             ++ EvModelCall true m2 (Ret r3) :: evs3
             ++ [EvModelCall false m4 (Ret r4)]
    /\ h' = m4 ++ [assistant_turn (msg_content final)]
    /\ answer = msg_content final.
Proof.
  intros L Hcalls Hfinal.
  inversion L as
    [ rc h0 past0 Hge
    | rc h0 past0 answer0 h0' evs0 Hlt Eattempt
    | rc h0 past0 e0 h0' evs0 Hlt Eattempt Hfatal
    | rc h0 past0 e0 h0' evs0 answer0 h0'' evs0' Hlt Eattempt Hclass Hrest
    | rc h0 past0 e0 h0' evs0 answer0 h0'' evs0' Hlt Eattempt Hclass Hrest ];
    subst.
  - discriminate.
  - pose proof (attempt_inv env h past) as A. rewrite Eattempt in A.
    inversion A; subst; tool_events; read_calls Hcalls; discriminate.
  - pose proof (attempt_inv env h past) as A. rewrite Eattempt in A.
    inversion A; subst; tool_events; read_calls Hcalls; discriminate.
  - pose proof (attempt_inv env h past) as A. rewrite Eattempt in A.
    pose proof (loop_first_call _ _ _ _ _ Hrest) as Hfirst. cbn [snd] in Hfirst.
    inversion A; subst; tool_events; read_calls Hcalls; try discriminate.
    + injection Hcalls as <- <- Hcalls.
      now specialize (Hfirst _ _ _ _ Hcalls).
    + injection Hcalls as <- <- Hcalls.
      now specialize (Hfirst _ _ _ _ Hcalls).
    + injection Hcalls as <- <- <- <- Hcalls.
      destruct (two_call_run _ _ _ _ _ _ _ _ _ _ _ _ Hrest Hcalls Hfinal)
        as (am3 & evs3 & Hfirst3 & Hne3 & -> & Etools3 & -> & -> & ->).
      exists am, am3, evs, evs3. rewrite Hclass.
      cbn [pause_after retryable].
      repeat split; try assumption; flatten; try reflexivity.
      all: flatten_in Etools3; exact Etools3.
  - pose proof (attempt_inv env h past) as A. rewrite Eattempt in A.
    pose proof (loop_first_call _ _ _ _ _ Hrest) as Hfirst. cbn [snd] in Hfirst.
    inversion A; subst; tool_events; read_calls Hcalls; try discriminate.
    + injection Hcalls as <- <- Hcalls.
      now specialize (Hfirst _ _ _ _ Hcalls).
    + injection Hcalls as <- <- Hcalls.
      now specialize (Hfirst _ _ _ _ Hcalls).
    + injection Hcalls as <- <- <- <- Hcalls.
      destruct (two_call_run _ _ _ _ _ _ _ _ _ _ _ _ Hrest Hcalls Hfinal)
        as (am3 & evs3 & Hfirst3 & Hne3 & -> & Etools3 & -> & -> & ->).
      exists am, am3, evs, evs3. rewrite Hclass.
      cbn [pause_after retryable].
      repeat split; try assumption; flatten; try reflexivity.
      all: flatten_in Etools3; exact Etools3.
Qed.

End Scenarios.


(** * Correlation of tool turns with the invocations *)

Lemma tool_turns_roles (texts : list string) (calls : list ToolCall) :
  Forall (fun turn => role turn = "tool") (tool_turns texts calls).
Proof.
  unfold tool_turns. apply Forall_forall. intros turn Hin.
  apply in_map_iff in Hin as (p & <- & _). reflexivity.
Qed.

Lemma tool_turns_ids (texts : list string) :
  forall calls : list ToolCall,
    map tool_call_id (tool_turns texts calls)
    = map (fun en => Some (entry_id en))
          (firstn (List.length texts) (map tool_call_entry calls)).
Proof.
  induction texts as [ | text texts IH]; intros [ | call calls];
    try reflexivity.
  cbn. f_equal. apply IH.
Qed.

Lemma tool_turns_calls (texts : list string) (calls : list ToolCall)
      (turn : Turn) :
  In turn (tool_turns texts calls) ->
  exists text call, turn = tool_turn text call /\ In call calls.
Proof.
  unfold tool_turns. intros Hin.
  apply in_map_iff in Hin as ([text call] & <- & Hin).
  exists text, call. split; [reflexivity | ].
  eapply in_combine_r, Hin.
Qed.

Lemma no_entry (id : string) (calls : list ToolCall) :
  ~ In id (map tc_id calls) ->
  filter (fun en => String.eqb id (entry_id en)) (map tool_call_entry calls)
  = [].
Proof.
  induction calls as [ | call calls IH]; intros Hnot; [reflexivity | ].
  cbn in *. destruct (String.eqb_spec id (tc_id call)) as [-> | _].
  - exfalso. apply Hnot. now left.
  - apply IH. intros Hin. apply Hnot. now right.
Qed.

(** With pairwise distinct ids, an invocation of the batch is the only
    entry that carries its id. *)
Lemma one_entry (calls : list ToolCall) (call : ToolCall) :
  NoDup (map tc_id calls) ->
  In call calls ->
  List.length (filter (fun en => String.eqb (tc_id call) (entry_id en))
                      (map tool_call_entry calls))
  = 1%nat.
Proof.
  induction calls as [ | first calls IH]; intros Hdistinct Hin; [easy | ].
  cbn in Hdistinct. inversion Hdistinct as [ | ? ? Hfresh Hrest]; subst.
  cbn [map filter tool_call_entry entry_id].
  destruct Hin as [-> | Hin].
  - rewrite String.eqb_refl. cbn. now rewrite no_entry.
  - destruct (String.eqb_spec (tc_id call) (tc_id first)) as [E | _].
    + exfalso. apply Hfresh. rewrite <- E. now apply in_map.
    + now apply IH.
Qed.

Lemma correlated_tool (assistant : Turn) (text : string) (call : ToolCall)
      (rest : list Turn) :
  correlated (Some assistant) (tool_turn text call :: rest)
  = match tool_calls assistant with
    | Some entries =>
        Nat.eqb (matching_entries (tool_turn text call) entries) 1
    | None => false
    end && correlated (Some assistant) rest.
Proof. reflexivity. Qed.

Lemma correlated_tool_turns (am : Message) (calls : list ToolCall)
      (turns tail : list Turn) :
  NoDup (map tc_id calls) ->
  (forall turn, In turn turns ->
                exists text call, turn = tool_turn text call /\ In call calls) ->
  tail = [] \/ (exists final, tail = [assistant_turn final]) ->
  correlated (Some (assistant_tool_turn am calls)) (turns ++ tail) = true.
Proof.
  intros Hdistinct Hturns Htail.
  induction turns as [ | turn turns IH].
  - destruct Htail as [-> | (final & ->)]; reflexivity.
  - destruct (Hturns turn (or_introl eq_refl)) as (text & call & -> & Hin).
    cbn [app]. rewrite correlated_tool.
    unfold matching_entries, assistant_tool_turn, tool_turn.
    cbn [tool_calls tool_call_id].
    rewrite (one_entry calls call Hdistinct Hin). cbn [Nat.eqb andb].
    apply IH. intros t Ht. apply Hturns. now right.
Qed.

Lemma dispatched_length (env : Env) (past : list Event)
      (calls : list ToolCall) (o : Outcome unit) (texts : list string)
      (evs : list Event) :
  dispatched env past calls o texts evs ->
  (List.length texts <= List.length calls)%nat
  /\ (is_ret o = true -> List.length texts = List.length calls).
Proof.
  induction 1 as
    [ past
    | past call calls e Hloads
    | past call calls function_args result evs e Hloads Hrun Hdumps
    | past call calls function_args result evs text o texts evs'
        Hloads Hrun Hdumps Hrest [IHle IHlen] ];
    cbn [List.length is_ret]; split; try lia; try discriminate.
  intros Hret. now rewrite (IHlen Hret).
Qed.

(** C4, as the code has it.  In a pass through the tool-dispatch path (the
    first response asks for the invocations [calls]), the history grows by
    the assistant turn carrying [calls], then one tool turn for each
    invocation in the order of [calls] (for all of them when the pass
    returns, for those before the abort otherwise), then the final
    assistant turn if the pass got that far.  The [tool_call_id] of the
    [i]-th tool turn is the id of the [i]-th entry of [tool_calls] of that
    assistant turn; when the ids the model gave are pairwise distinct, it is
    the id of exactly one entry.  The invocations are run one after the
    other in the order of [calls]: what the pass did is the call of the
    model, then the events of the first invocation, of the second after
    them, and so on, each dispatched after all that the ones before it did
    and its result written into its tool turn, and then, when the whole
    list has been run, the final call of the model on the history with
    these turns. *)
Theorem tool_turns_follow_invocations :
  forall (env : Env) (h : list Turn) (past : list Event)
         (resp : ChatCompletion) (am : Message) (calls : list ToolCall)
         (o : Outcome (option string)) (h' : list Turn) (evs : list Event),
    env_create env past true h = Ret resp ->
    first_message resp = Ret am ->
    msg_tool_calls am = Some calls ->
    calls <> [] ->
    attempt env h past = (o, h', evs) ->
    exists (texts : list string) (tail : list Turn) (batch_end : Outcome unit)
           (tool_evs finals : list Event),
      h' = h ++ assistant_tool_turn am calls :: tool_turns texts calls ++ tail
      /\ tool_calls (assistant_tool_turn am calls)
         = Some (map tool_call_entry calls)
      /\ (List.length texts <= List.length calls)%nat
      /\ (is_ret o = true -> List.length texts = List.length calls)
      /\ (tail = [] \/ exists final, tail = [assistant_turn final])
      /\ Forall (fun turn => role turn = "tool") (tool_turns texts calls)
      /\ map tool_call_id (tool_turns texts calls)
         = map (fun en => Some (entry_id en))
               (firstn (List.length texts) (map tool_call_entry calls))
      /\ (NoDup (map tc_id calls) ->
          correlated None
            (assistant_tool_turn am calls :: tool_turns texts calls ++ tail)
          = true)
      /\ dispatched env (past ++ [EvModelCall true h (Ret resp)]) calls
                    batch_end texts tool_evs
      /\ Forall tool_event tool_evs
      /\ evs = EvModelCall true h (Ret resp) :: tool_evs ++ finals
      /\ match batch_end with
         | Ret _ =>
             exists out,
               finals
               = [EvModelCall false
                    (h ++ assistant_tool_turn am calls
                       :: tool_turns texts calls)
                    out]
         | Raise e => finals = [] /\ tail = [] /\ o = Raise e
         end.
Proof.
  intros env h past resp am calls o h' evs Ecreate Efirst Ecalls Hne Eattempt.
  assert (Hreq : requested am = calls) by (unfold requested; now rewrite Ecalls).
  assert (Hshape :
    exists texts tail batch_end tool_evs finals,
      h' = h ++ assistant_tool_turn am calls :: tool_turns texts calls ++ tail
      /\ (is_ret o = true -> is_ret batch_end = true)
      /\ (tail = [] \/ exists final, tail = [assistant_turn final])
      /\ dispatched env (past ++ [EvModelCall true h (Ret resp)]) calls
                    batch_end texts tool_evs
      /\ evs = EvModelCall true h (Ret resp) :: tool_evs ++ finals
      /\ match batch_end with
         | Ret _ =>
             exists out,
               finals
               = [EvModelCall false
                    (h ++ assistant_tool_turn am calls
                       :: tool_turns texts calls)
                    out]
         | Raise e => finals = [] /\ tail = [] /\ o = Raise e
         end).
  { pose proof (attempt_inv env h past) as A. rewrite Eattempt in A.
    inversion A; subst;
      try congruence;
      repeat match goal with
             | H1 : env_create _ _ _ _ = Ret ?r, H2 : env_create _ _ _ _ = Ret resp
               |- _ => rewrite H1 in H2; injection H2 as ->
             | H1 : first_message _ = Ret ?m, H2 : first_message _ = Ret am
               |- _ => rewrite H1 in H2; injection H2 as ->
             end;
      match goal with
      | H : run_tool_calls _ _ _ _ = _ |- _ =>
          apply run_tool_calls_dispatched in H as (texts & -> & Hdispatched)
      end.
    - exists texts, [], (Raise e), evs0, [].
      rewrite !app_nil_r, <- app_assoc. repeat split; auto.
    - exists texts, [], (Ret tt), evs0. eexists.
      rewrite app_nil_r, <- app_assoc.
      split; [reflexivity | ]. split; [discriminate | ].
      split; [now left | ]. split; [exact Hdispatched | ].
      split; [reflexivity | ]. eexists. reflexivity.
    - exists texts, [], (Ret tt), evs0. eexists.
      rewrite app_nil_r, <- app_assoc.
      split; [reflexivity | ]. split; [discriminate | ].
      split; [now left | ]. split; [exact Hdispatched | ].
      split; [reflexivity | ]. eexists. reflexivity.
    - exists texts, [assistant_turn (msg_content final)], (Ret tt), evs0.
      eexists. rewrite <- !app_assoc.
      split; [reflexivity | ]. split; [reflexivity | ].
      split; [right; eauto | ]. split; [exact Hdispatched | ].
      split; [reflexivity | ]. eexists. reflexivity. }
  destruct Hshape
    as (texts & tail & batch_end & tool_evs & finals & Hh & Hret & Htail
        & Hdispatched & Hevs & Hfinals).
  destruct (dispatched_length _ _ _ _ _ _ Hdispatched) as [Hle Hlen].
  exists texts, tail, batch_end, tool_evs, finals.
  split; [exact Hh | ]. split; [reflexivity | ]. split; [exact Hle | ].
  split; [intros Ho; apply Hlen, Hret, Ho | ]. split; [exact Htail | ].
  split; [apply tool_turns_roles | ]. split; [apply tool_turns_ids | ].
  split.
  { intros Hdistinct.
    change (correlated (Some (assistant_tool_turn am calls))
                       (tool_turns texts calls ++ tail) = true).
    apply correlated_tool_turns; try assumption.
    apply tool_turns_calls. }
  split; [exact Hdispatched | ].
  split; [exact (dispatched_tool_events env _ _ _ _ _ Hdispatched) | ].
  split; [exact Hevs | exact Hfinals].
Qed.

(** C6.  The retry region is not atomic.  Take a call of
    [chat_with_function_calling] in which the model is called four times:
    the first response asks for tools, the second call (the final-answer
    call of that pass) raises, the third and fourth calls return.  Then the
    exception was a rate limit or a timeout; the assistant turn and the tool
    turns of the first pass are still in the history; the retry starts again
    from the first kind of call, made on that history; the invocations the
    model now asks for are dispatched as well, their turns coming after the
    turns of the first pass, and the tool events of both dispatches are part
    of the run. *)
Theorem retry_repeats_tool_dispatch :
  forall (env : Env) (user_message : string) (max_retries : Z)
         (h : list Turn) (past : list Event)
         (answer : option string) (h' : list Turn) (evs : list Event)
         (m1 m2 m3 m4 : list Turn) (r1 r3 r4 : ChatCompletion) (e : Exc)
         (final : Message),
    chat_with_function_calling env user_message max_retries h past
    = Some (answer, h', evs) ->
    model_calls evs
    = [EvModelCall true m1 (Ret r1); EvModelCall false m2 (Raise e);
       EvModelCall true m3 (Ret r3); EvModelCall false m4 (Ret r4)] ->
    first_message r4 = Ret final ->
    exists (am1 am3 : Message) (texts1 texts3 : list string)
           (evs1 evs3 : list Event),
      first_message r1 = Ret am1
      /\ first_message r3 = Ret am3
      /\ requested am1 <> []
      /\ requested am3 <> []
      /\ retryable (exc_class e) = true
      /\ List.length texts1 = List.length (requested am1)
      /\ List.length texts3 = List.length (requested am3)
      /\ m1 = h ++ [user_turn user_message]
      /\ m2 = h ++ user_turn user_message
                :: assistant_tool_turn am1 (requested am1)
                :: tool_turns texts1 (requested am1)
      /\ m3 = m2
      /\ m4 = m2 ++ assistant_tool_turn am3 (requested am3)
                 :: tool_turns texts3 (requested am3)
      /\ h' = m4 ++ [assistant_turn (msg_content final)]
      /\ answer = msg_content final
      /\ run_tool_calls env (requested am1)
           (m1 ++ [assistant_tool_turn am1 (requested am1)])
           (past ++ [EvModelCall true m1 (Ret r1)])
         = (Ret tt, m2, evs1)
      /\ run_tool_calls env (requested am3)
           (m2 ++ [assistant_tool_turn am3 (requested am3)])
           ((past ++ EvModelCall true m1 (Ret r1) :: evs1
                  ++ EvModelCall false m2 (Raise e)
                  :: pause_after (exc_class e) 0)
            ++ [EvModelCall true m2 (Ret r3)])
         = (Ret tt, m4, evs3)
      /\ evs = EvModelCall true m1 (Ret r1) :: evs1
               ++ EvModelCall false m2 (Raise e)
               :: pause_after (exc_class e) 0
               ++ EvModelCall true m2 (Ret r3) :: evs3
               ++ [EvModelCall false m4 (Ret r4)].
Proof.
  intros env user_message max_retries h past answer h' evs m1 m2 m3 m4
         r1 r3 r4 e final Erun Hcalls Hfinal.
  apply chat_graph in Erun.
  destruct (repeated_dispatch_run env _ _ _ _ _ _ _ _ _ _ _ _ _ _ _ _
              Erun Hcalls Hfinal)
    as (am1 & am3 & evs1 & evs3 & Hf1 & Hf3 & Hne1 & Hne3 & Hretry
        & -> & -> & Etools1 & Etools3 & -> & -> & ->).
  destruct (run_tool_calls_inv env _ _ _ _ _ _ Etools1)
    as (texts1 & Hm2 & _ & Hlen1 & _).
  destruct (run_tool_calls_inv env _ _ _ _ _ _ Etools3)
    as (texts3 & Hm4 & _ & Hlen3 & _).
  exists am1, am3, texts1, texts3, evs1, evs3.
  repeat split; auto.
  - rewrite Hm2. now rewrite <- !app_assoc.
  - rewrite Hm4. now rewrite <- !app_assoc.
Qed.

(** * Further properties of the loop and of the adapters *)


(** X5.  [get_real_weather] turns the failures of the provider into
    results: a request that raises, or a status that [raise_for_status]
    rejects, gives the network-error message; a response without the field
    [name] gives the response-format message. *)
Theorem get_real_weather_failures :
  forall (env : Env) (city units : json) (past : list Event),
    (forall e,
        (forall url params, env_requests_get env past url params = Raise e) ->
        exc_class e = RequestException ->
        fst (get_real_weather env city units past)
        = Ret (failure ("网络请求失败: " +++ exc_str e)))
    /\ (forall e data,
           (forall url params,
               env_requests_get env past url params
               = Ret (mkHttpResponse (Raise e) data)) ->
           exc_class e = RequestException ->
           fst (get_real_weather env city units past)
           = Ret (failure ("网络请求失败: " +++ exc_str e)))
    /\ (forall d,
           (forall url params,
               env_requests_get env past url params
               = Ret (mkHttpResponse (Ret tt) (Ret (JDict d)))) ->
           assoc "name" d = None ->
           fst (get_real_weather env city units past)
           = Ret (failure ("API响应格式错误: " +++ "'name'"))).
Proof.
  intros env city units past. repeat split.
  - intros e Hget Hclass.
    unfold get_real_weather, requests_get, perform, try_except.
    cbn. rewrite Hget. cbn. now rewrite Hclass.
  - intros e data Hget Hclass.
    unfold get_real_weather, requests_get, perform, try_except, pure.
    cbn. rewrite Hget. cbn. now rewrite Hclass.
  - intros d Hget Hname.
    unfold get_real_weather, requests_get, perform, try_except, pure.
    cbn [bind Monad_IO]. rewrite Hget. cbn [bind Monad_IO status body].
    unfold weather_fields, getitem. cbn [bind Monad_Outcome].
    rewrite Hname. reflexivity.
Qed.

Lemma collect_articles_length (items entries : list json) :
  collect_articles items = Ret entries ->
  List.length entries = List.length items.
Proof.
  revert entries. induction items as [ | article items IH]; intros entries.
  - intros E. now injection E as <-.
  - cbn [collect_articles bind Monad_Outcome].
    destruct (article_entry article) as [entry | e];
      cbn [bind Monad_Outcome]; [ | discriminate].
    destruct (collect_articles items) as [rest | e];
      cbn [bind ret Monad_Outcome]; [ | discriminate].
    intros E. injection E as <-. cbn. f_equal. now apply IH.
Qed.

Lemma slice5_length (obj : json) (items : list json) :
  slice5 obj = Ret items -> (List.length items <= 5)%nat.
Proof.
  unfold slice5.
  destruct obj as [ | | | | s | l | ]; try discriminate; intros E.
  - assert (H : items = firstn 5 (chars s)) by congruence.
    rewrite H. apply firstn_le_length.
  - assert (H : items = firstn 5 l) by congruence.
    rewrite H. apply firstn_le_length.
Qed.

(** X6.  A successful [search_news] carries the query, the total the
    provider reported, the time, and at most five articles. *)
Theorem search_news_at_most_five :
  forall (env : Env) (query category country : json) (past : list Event)
         (data : json),
    fst (search_news env query category country past) = Ret (success data) ->
    exists (total : json) (articles : list json) (timestamp : string),
      data = JDict [("query", query);
                    ("total_results", total);
                    ("articles", JList articles);
                    ("timestamp", JStr timestamp)]
      /\ (List.length articles <= 5)%nat.
Proof.
  intros env query category country past data.
  unfold search_news, requests_get, perform, try_except, pure, now.
  cbn [bind Monad_IO].
  destruct (env_requests_get env past "https://newsapi.org/v2/everything"
              (search_news_params env query category country))
    as [response | e]; [ | cbn; discriminate].
  cbn [bind Monad_IO].
  destruct (status response) as [[] | e]; [ | cbn; discriminate].
  cbn [bind Monad_IO].
  destruct (body response) as [provided | e]; [ | cbn; discriminate].
  cbn [bind Monad_IO].
  destruct (dict_get provided "articles" (JList [])) as [listed | e];
    [ | cbn; discriminate].
  cbn [bind Monad_IO].
  destruct (slice5 listed) as [items | e] eqn:Eslice; [ | cbn; discriminate].
  cbn [bind Monad_IO].
  destruct (collect_articles items) as [articles | e] eqn:Ecollect;
    [ | cbn; discriminate].
  cbn [bind Monad_IO].
  destruct (dict_get provided "totalResults" (JNum (0 # 1))) as [total | e];
    [ | cbn; discriminate].
  cbn. intros E. injection E as <-.
  eexists total, articles, _. split; [reflexivity | ].
  rewrite (collect_articles_length _ _ Ecollect).
  exact (slice5_length _ _ Eslice).
Qed.

(** * The properties on sample worlds *)


Example mail_exchange :
  chat_with_function_calling mail_world "Write to Ann." default_max_retries [] []
  = Some (Some "The mail is sent.",
          mail_leftover
          ++ [assistant_tool_turn mail_request [mail_call];
              tool_turn "{success: true}" mail_call;
              assistant_turn (Some "The mail is sent.")],
          [EvModelCall true [user_turn "Write to Ann."]
             (Ret (mkChatCompletion [mail_request]));
           EvSmtp mail_session (Ret tt);
           EvModelCall false mail_leftover (Raise too_many_requests);
           EvSleep 2;
           EvModelCall true mail_leftover
             (Ret (mkChatCompletion [mail_request]));
           EvSmtp mail_session (Ret tt);
           EvModelCall false
             (mail_leftover
              ++ [assistant_tool_turn mail_request [mail_call];
                  tool_turn "{success: true}" mail_call])
             (Ret (mkChatCompletion [mail_answer]))]).
Proof. vm_compute. reflexivity. Qed.

(** With three attempts and a model endpoint that always answers with a
    rate limit, the loop waits 2, 4 and 8 and gives up. *)
Lemma retry_budget_witness :
  (1 <= default_max_retries)%Z
  /\ exists evs,
       chat_with_function_calling limited_world "hello" default_max_retries [] []
       = Some (Some exhausted, [] ++ [user_turn "hello"], evs)
       /\ waits evs = map (Z.pow 2) (attempts default_max_retries)
       /\ map (Z.pow 2) (attempts default_max_retries) = [2; 4; 8]%Z.
Proof.
  assert (Hmax : (1 <= default_max_retries)%Z) by (vm_compute; discriminate).
  split; [exact Hmax | ].
  destruct (retry_budget limited_world "hello" default_max_retries [] [] Hmax)
    as (Hlimited & _ & _).
  destruct Hlimited as (evs & Erun & _ & _ & Hwaits & _).
  - intros past' with_tools messages. exists too_many_requests.
    split; [ | reflexivity].
    cbn. destruct (List.length (model_calls past')); reflexivity.
  - exists evs. repeat split; assumption || reflexivity.
Defined.

(** An endpoint that refuses the connection: one call, no wait, and the
    apology with the text of the exception. *)
Lemma fatal_model_error_aborts_witness :
  chat_with_function_calling refusing_world "hello" default_max_retries [] []
  = Some (Some ("抱歉，我遇到了技术问题：" +++ "Connection error."),
          [] ++ [user_turn "hello"],
          [EvModelCall true ([] ++ [user_turn "hello"]) (Raise refused)]).
Proof.
  destruct (fatal_model_error_aborts refusing_world "hello"
                                     default_max_retries [] [])
    as (answer & h' & evs & Erun & _ & Hfirst & _).
  destruct (Hfirst refused) as (Hanswer & Hh & Hevs).
  - vm_compute. discriminate.
  - reflexivity.
  - reflexivity.
  - rewrite Erun, Hanswer, Hh, Hevs. reflexivity.
Defined.

(** A call of the messaging adapter without [user_name] comes back as an
    argument error. *)
Lemma execute_function_call_never_raises_witness :
  assoc "send_message_with_weixin" (function_map paris_world)
  = Some (call_send_message_with_weixin paris_world)
  /\ exists result,
       dispatch (function_map paris_world) "send_message_with_weixin"
                (JDict [("content", JStr "hi")]) []
       = (Ret result,
          snd (call_send_message_with_weixin paris_world
                 (JDict [("content", JStr "hi")]) []))
       /\ result
          = failure ("函数参数错误: "
                     +++ "RealLLMFunctionCalling.send_message_with_weixin()"
                     +++ " missing 1 required positional argument: "
                     +++ "'user_name'").
Proof.
  assert (Hbound : assoc "send_message_with_weixin" (function_map paris_world)
                   = Some (call_send_message_with_weixin paris_world))
    by reflexivity.
  split; [exact Hbound | ].
  destruct (execute_function_call_never_raises
              (function_map paris_world) "send_message_with_weixin"
              (call_send_message_with_weixin paris_world)
              (JDict [("content", JStr "hi")]) [] Hbound)
    as (result & Erun & _ & Hargs & _).
  exists result. split; [exact Erun | ].
  apply (Hargs (mkExc TypeError
                  ("RealLLMFunctionCalling.send_message_with_weixin()"
                   +++ " missing 1 required positional argument: "
                   +++ "'user_name'")));
    reflexivity.
Defined.


(** A pass in which the model asks for a mail and for the weather. *)
Example pair_pass :
  attempt pair_world [user_turn pair_question] []
  = (Ret (Some "It is 18 degrees and clear in Paris."),
     [user_turn pair_question;
      assistant_tool_turn pair_request [mail_call; paris_call];
      tool_turn "{success: true}" mail_call;
      tool_turn "{success: true}" paris_call;
      assistant_turn (Some "It is 18 degrees and clear in Paris.")],
     [EvModelCall true [user_turn pair_question]
        (Ret (mkChatCompletion [pair_request]));
      EvSmtp mail_session (Ret tt);
      EvHttpGet "http://api.openweathermap.org/data/2.5/weather"
        [("q", JStr "Paris");
         ("appid", JStr "your_openweather_api_key");
         ("units", JStr "metric");
         ("lang", JStr "zh_cn")]
        (Ret (mkHttpResponse (Ret tt) (Ret paris_weather)));
      EvModelCall false
        [user_turn pair_question;
         assistant_tool_turn pair_request [mail_call; paris_call];
         tool_turn "{success: true}" mail_call;
         tool_turn "{success: true}" paris_call]
        (Ret (mkChatCompletion [paris_answer]))]).
Proof. vm_compute. reflexivity. Qed.

(** The pass with the mail and the weather: the mail is sent before the
    weather is asked for, as the model listed them; the two tool turns
    follow in that order and each answers the one entry with its id. *)
Lemma tool_turns_follow_invocations_witness :
  [mail_call; paris_call] <> []
  /\ NoDup (map tc_id [mail_call; paris_call])
  /\ exists (texts : list string) (tail : list Turn) (batch_end : Outcome unit)
            (tool_evs finals : list Event),
       [user_turn pair_question;
        assistant_tool_turn pair_request [mail_call; paris_call];
        tool_turn "{success: true}" mail_call;
        tool_turn "{success: true}" paris_call;
        assistant_turn (Some "It is 18 degrees and clear in Paris.")]
       = [user_turn pair_question]
         ++ assistant_tool_turn pair_request [mail_call; paris_call]
         :: tool_turns texts [mail_call; paris_call] ++ tail
       /\ List.length texts = 2%nat
       /\ map tool_call_id (tool_turns texts [mail_call; paris_call])
          = [Some "call_7"; Some "call_1"]
       /\ correlated None
            (assistant_tool_turn pair_request [mail_call; paris_call]
             :: tool_turns texts [mail_call; paris_call] ++ tail)
          = true
       /\ dispatched pair_world
                     ([] ++ [EvModelCall true [user_turn pair_question]
                               (Ret (mkChatCompletion [pair_request]))])
                     [mail_call; paris_call] batch_end texts tool_evs
       /\ tool_evs
          = [EvSmtp mail_session (Ret tt);
             EvHttpGet "http://api.openweathermap.org/data/2.5/weather"
               [("q", JStr "Paris");
                ("appid", JStr "your_openweather_api_key");
                ("units", JStr "metric");
                ("lang", JStr "zh_cn")]
               (Ret (mkHttpResponse (Ret tt) (Ret paris_weather)))]
       /\ finals
          = [EvModelCall false
               ([user_turn pair_question]
                ++ assistant_tool_turn pair_request [mail_call; paris_call]
                :: tool_turns texts [mail_call; paris_call])
               (Ret (mkChatCompletion [paris_answer]))].
Proof.
  assert (Hne : [mail_call; paris_call] <> []) by discriminate.
  assert (Hdistinct : NoDup (map tc_id [mail_call; paris_call])).
  { repeat constructor; cbn; [ | tauto].
    intros [Habs | []]. discriminate Habs. }
  split; [exact Hne | ]. split; [exact Hdistinct | ].
  destruct (tool_turns_follow_invocations
              pair_world [user_turn pair_question] []
              (mkChatCompletion [pair_request]) pair_request
              [mail_call; paris_call] _ _ _
              eq_refl eq_refl eq_refl Hne pair_pass)
    as (texts & tail & batch_end & tool_evs & finals & Hh & _ & _ & Hlen & _
        & _ & Hids & Hcorrelated & Hdispatched & Htools & Hevs & Hfinals).
  exists texts, tail, batch_end, tool_evs, finals.
  specialize (Hlen eq_refl). cbn [List.length] in Hlen.
  rewrite Hlen in Hids.
  injection Hevs as Hevs.
  assert (Hsplit :
    tool_evs
    = [EvSmtp mail_session (Ret tt);
       EvHttpGet "http://api.openweathermap.org/data/2.5/weather"
         [("q", JStr "Paris");
          ("appid", JStr "your_openweather_api_key");
          ("units", JStr "metric");
          ("lang", JStr "zh_cn")]
         (Ret (mkHttpResponse (Ret tt) (Ret paris_weather)))]
    /\ finals
       = [EvModelCall false
            ([user_turn pair_question]
             ++ assistant_tool_turn pair_request [mail_call; paris_call]
             :: tool_turns texts [mail_call; paris_call])
            (Ret (mkChatCompletion [paris_answer]))]).
  { destruct batch_end as [[] | e].
    - destruct Hfinals as (out & ->).
      change [?a; ?b; ?c] with ([a; b] ++ [c]) in Hevs.
      apply app_inj_tail in Hevs as [<- Hlast].
      split; [reflexivity | ]. congruence.
    - destruct Hfinals as (-> & _ & Habs). discriminate Habs. }
  destruct Hsplit as [Htool_evs Hlast].
  repeat split; try assumption.
  exact (Hcorrelated Hdistinct).
Defined.

(** C4, as the specification words it, fails when the model gives one id to
    two invocations of a batch: each of the two tool turns then answers two
    entries of the assistant turn. *)
Lemma repeated_id_breaks_correlation :
  ~ answers_exactly_one twin_world [user_turn "Tell Ann, and the weather?"] [].
Proof.
  intros Hclaim.
  specialize (Hclaim [assistant_tool_turn twin_request [note_call; paris_call];
                      tool_turn "{success: true}" note_call;
                      tool_turn "{success: true}" paris_call;
                      assistant_turn
                        (Some "It is 18 degrees and clear in Paris.")]).
  discriminate Hclaim. vm_compute. reflexivity.
Qed.

(** The mail is delivered twice, and the turns of the first pass stay. *)
Lemma retry_repeats_tool_dispatch_witness :
  exists evs,
    chat_with_function_calling mail_world "Write to Ann." default_max_retries
                               [] []
    = Some (Some "The mail is sent.",
            mail_leftover
            ++ [assistant_tool_turn mail_request [mail_call];
                tool_turn "{success: true}" mail_call;
                assistant_turn (Some "The mail is sent.")],
            evs)
    /\ List.length (filter is_delivery evs) = 2%nat
    /\ retryable (exc_class too_many_requests) = true.
Proof.
  eexists. split; [exact mail_exchange | ].
  split; [vm_compute; reflexivity | ].
  edestruct (retry_repeats_tool_dispatch
               mail_world "Write to Ann." default_max_retries [] [])
    with (e := too_many_requests) (final := mail_answer)
    as (am1 & am3 & texts1 & texts3 & evs1 & evs3 & _ & _ & _ & _ & Hretry & _).
  - exact mail_exchange.
  - vm_compute. reflexivity.
  - reflexivity.
  - exact Hretry.
Defined.

(** An unknown name is answered without any event. *)
Lemma execute_function_call_unknown_witness :
  assoc "book_flight" (function_map paris_world) = None
  /\ execute_function_call paris_world "book_flight" (JDict []) []
     = (Ret (failure ("未知函数: " +++ "book_flight")), []).
Proof.
  assert (Hunknown : assoc "book_flight" (function_map paris_world) = None)
    by reflexivity.
  split; [exact Hunknown | ].
  exact (execute_function_call_unknown paris_world "book_flight" (JDict []) []
                                       Hunknown).
Defined.

(** X1.  [chat_with_function_calling] ends and returns a value, whatever
    the attempt budget, the history, and the behaviour of the model endpoint
    and of the tools: the fuel the model gives the loop is never used up, and
    no exception leaves the function. *)
Theorem chat_always_returns :
  forall (env : Env) (user_message : string) (max_retries : Z)
         (h : list Turn) (past : list Event),
    exists (answer : option string) (h' : list Turn) (evs : list Event),
      chat_with_function_calling env user_message max_retries h past
      = Some (answer, h', evs).
Proof.
  intros env user_message max_retries h past.
  destruct (chat_returns env user_message max_retries h past)
    as ([[answer h'] evs] & Erun).
  now exists answer, h', evs.
Qed.


(** One trading day of a share, asked for with the period ["1d"]. *)
Lemma analyze_stock_one_day :
  fst (analyze_stock one_day_world (JStr "AAPL") (JStr "1d") [])
  = Ret (JDict [("success", JBool false);
                ("error",
                 JStr ("股票分析失败: "
                       +++ "single positional indexer is out-of-bounds"))]).
Proof.
  exact (analyze_stock_one_row one_day_world (JStr "AAPL") (JStr "1d") []
           (JDict [("longName", JStr "Apple Inc.")])
           (mkBar (189 # 1) (191 # 1) (188 # 1) (190 # 1) 52000000)
           eq_refl eq_refl eq_refl).
Defined.


(** Of the six articles of the provider, five are reported. *)
Lemma search_news_at_most_five_witness :
  exists (total : json) (articles : list json) (timestamp : string),
    news_data = JDict [("query", JStr "AI");
                       ("total_results", total);
                       ("articles", JList articles);
                       ("timestamp", JStr timestamp)]
    /\ (List.length articles <= 5)%nat.
Proof.
  apply (search_news_at_most_five news_world (JStr "AI") (JStr "technology")
                                  (JStr "us") [] news_data).
  vm_compute. reflexivity.
Defined.

Example news_search :
  exists articles,
    news_data = JDict [("query", JStr "AI");
                       ("total_results", JNum (6 # 1));
                       ("articles", JList articles);
                       ("timestamp", JStr "2024-05-01 09:00:00")]
    /\ List.length articles = 5%nat.
Proof. eexists. split; vm_compute; reflexivity. Qed.

(** * Further properties of the orchestration loop *)

Lemma assistant_tool_turn_role (am : Message) (calls : list ToolCall) :
  loop_role (assistant_tool_turn am calls).
Proof. left. reflexivity. Qed.

Lemma assistant_turn_role (final : option string) :
  loop_role (assistant_turn final).
Proof. left. reflexivity. Qed.

Lemma tool_turns_loop_roles (texts : list string) (calls : list ToolCall) :
  Forall loop_role (tool_turns texts calls).
Proof.
  eapply Forall_impl; [ | apply tool_turns_roles].
  intros turn Hrole. now right.
Qed.

Section Passes.

Variable env : Env.

(** The shape of a pass: a call that offers the tools, the events of the
    tools, and at most one call for the final answer, made on the history
    with the turns [mid] the pass had appended by then. *)
Lemma attempt_shape (h : list Turn) (past : list Event)
      (o : Outcome (option string)) (h' : list Turn) (evs : list Event) :
  attempt env h past = (o, h', evs) ->
  exists out1 tool_evs mid tail finals,
    Forall tool_event tool_evs
    /\ Forall loop_role mid
    /\ Forall loop_role tail
    /\ h' = h ++ mid ++ tail
    /\ evs = EvModelCall true h out1 :: tool_evs ++ finals
    /\ (finals = []
        \/ exists out2, finals = [EvModelCall false (h ++ mid) out2]).
Proof.
  intros E. pose proof (attempt_inv env h past) as A. rewrite E in A.
  inversion A; subst;
    try match goal with
        | H : run_tool_calls _ _ _ _ = _ |- _ =>
            apply run_tool_calls_inv in H as (texts & -> & _ & _ & Htools)
        end.
  - exists (Raise e), [], [], [], []. rewrite !app_nil_r.
    repeat split; auto.
  - eexists (Ret _), [], [], [], []. rewrite !app_nil_r.
    repeat split; auto.
  - eexists (Ret _), [], [], [assistant_turn (msg_content am)], [].
    repeat split; auto.
    constructor; [apply assistant_turn_role | constructor].
  - eexists (Ret _), evs0,
      (assistant_tool_turn am (requested am)
       :: tool_turns texts (requested am)), [], [].
    rewrite !app_nil_r, <- app_assoc. repeat split; auto.
    constructor; [apply assistant_tool_turn_role | apply tool_turns_loop_roles].
  - eexists (Ret _), evs0,
      (assistant_tool_turn am (requested am)
       :: tool_turns texts (requested am)), [], [_].
    rewrite !app_nil_r, <- app_assoc. repeat split; auto.
    + constructor; [apply assistant_tool_turn_role | apply tool_turns_loop_roles].
    + right. eexists. reflexivity.
  - eexists (Ret _), evs0,
      (assistant_tool_turn am (requested am)
       :: tool_turns texts (requested am)), [], [_].
    rewrite !app_nil_r, <- app_assoc. repeat split; auto.
    + constructor; [apply assistant_tool_turn_role | apply tool_turns_loop_roles].
    + right. eexists. reflexivity.
  - eexists (Ret _), evs0,
      (assistant_tool_turn am (requested am)
       :: tool_turns texts (requested am)),
      [assistant_turn (msg_content final)], [_].
    rewrite <- !app_assoc. repeat split; auto.
    + constructor; [apply assistant_tool_turn_role | apply tool_turns_loop_roles].
    + constructor; [apply assistant_turn_role | constructor].
    + right. eexists. reflexivity.
Qed.

(** What a pass appends, and what the calls of the model in it saw. *)
Lemma attempt_grows (h : list Turn) (past : list Event)
      (o : Outcome (option string)) (h' : list Turn) (evs : list Event) :
  attempt env h past = (o, h', evs) ->
  exists new,
    h' = h ++ new
    /\ Forall loop_role new
    /\ forall with_tools messages out,
         In (EvModelCall with_tools messages out) evs ->
         exists seen later, messages = h ++ seen /\ new = seen ++ later.
Proof.
  intros E.
  destruct (attempt_shape _ _ _ _ _ E)
    as (out1 & tool_evs & mid & tail & finals & Htools & Hmid & Htail & ->
        & -> & Hfinals).
  exists (mid ++ tail). split; [reflexivity | ].
  split; [apply Forall_app; now split | ].
  intros t m out [Hin | Hin].
  - injection Hin as _ <- _. exists [], (mid ++ tail).
    now rewrite app_nil_r.
  - apply in_app_or in Hin as [Hin | Hin].
    + exfalso. rewrite Forall_forall in Htools.
      specialize (Htools _ Hin). discriminate Htools.
    + destruct Hfinals as [-> | (out2 & ->)]; [destruct Hin | ].
      destruct Hin as [Hin | []]. injection Hin as _ <- _.
      exists mid, tail. split; reflexivity.
Qed.

(** In a run the history only grows, by assistant and tool turns, and
    every call of the model is made on the history of that moment. *)
Lemma loop_grows (max_retries retry_count : Z) (h : list Turn)
      (past : list Event) (run : Run) :
  loop_result env max_retries retry_count h past run ->
  exists new,
    snd (fst run) = h ++ new
    /\ Forall loop_role new
    /\ forall with_tools messages out,
         In (EvModelCall with_tools messages out) (snd run) ->
         exists seen later, messages = h ++ seen /\ new = seen ++ later.
Proof.
  induction 1 as
    [ rc h past Hge
    | rc h past answer h' evs Hlt Eattempt
    | rc h past e h' evs Hlt Eattempt Hfatal
    | rc h past e h' evs answer h'' evs' Hlt Eattempt Hclass Hrest IH
    | rc h past e h' evs answer h'' evs' Hlt Eattempt Hclass Hrest IH ];
    cbn [fst snd] in *.
  - exists []. rewrite app_nil_r. repeat split; auto. intros ? ? ? [].
  - apply (attempt_grows _ _ _ _ _ Eattempt).
  - apply (attempt_grows _ _ _ _ _ Eattempt).
  - destruct (attempt_grows _ _ _ _ _ Eattempt) as (new1 & -> & Hroles1 & Hcalls1).
    destruct IH as (new2 & -> & Hroles2 & Hcalls2).
    exists (new1 ++ new2). rewrite app_assoc. split; [reflexivity | ].
    split; [apply Forall_app; now split | ].
    intros t m out Hin. apply in_app_or in Hin as [Hin | [Hin | Hin]].
    + destruct (Hcalls1 _ _ _ Hin) as (seen & later & -> & ->).
      exists seen, (later ++ new2). now rewrite app_assoc.
    + discriminate Hin.
    + destruct (Hcalls2 _ _ _ Hin) as (seen & later & -> & ->).
      exists (new1 ++ seen), later. now rewrite !app_assoc.
  - destruct (attempt_grows _ _ _ _ _ Eattempt) as (new1 & -> & Hroles1 & Hcalls1).
    destruct IH as (new2 & -> & Hroles2 & Hcalls2).
    exists (new1 ++ new2). rewrite app_assoc. split; [reflexivity | ].
    split; [apply Forall_app; now split | ].
    intros t m out Hin. apply in_app_or in Hin as [Hin | Hin].
    + destruct (Hcalls1 _ _ _ Hin) as (seen & later & -> & ->).
      exists seen, (later ++ new2). now rewrite app_assoc.
    + destruct (Hcalls2 _ _ _ Hin) as (seen & later & -> & ->).
      exists (new1 ++ seen), later. now rewrite !app_assoc.
Qed.

End Passes.

(** X7.  A call of [chat_with_function_calling] never rewrites the
    history: the old turns stay, the user turn comes next, and after it
    only assistant and tool turns (no second user turn, however often the
    loop retries).  Every call of the model, with or without the tools,
    is made on the whole history of its moment: the old turns, the user
    turn and what the loop had appended by then, all of which is still
    there at the end. *)
Theorem history_only_grows :
  forall (env : Env) (user_message : string) (max_retries : Z)
         (h : list Turn) (past : list Event)
         (answer : option string) (h' : list Turn) (evs : list Event),
    chat_with_function_calling env user_message max_retries h past
    = Some (answer, h', evs) ->
    exists new : list Turn,
      h' = h ++ user_turn user_message :: new
      /\ Forall (fun turn => role turn = "assistant" \/ role turn = "tool") new
      /\ forall with_tools messages out,
           In (EvModelCall with_tools messages out) evs ->
           exists seen later,
             messages = h ++ user_turn user_message :: seen
             /\ new = seen ++ later.
Proof.
  intros env user_message max_retries h past answer h' evs Erun.
  apply chat_graph, loop_grows in Erun. cbn [fst snd] in Erun.
  destruct Erun as (new & -> & Hroles & Hcalls).
  exists new. rewrite <- app_assoc. split; [reflexivity | ].
  split; [exact Hroles | ].
  intros t m out Hin. destruct (Hcalls _ _ _ Hin) as (seen & later & -> & ->).
  exists seen, later. now rewrite <- app_assoc.
Qed.

Lemma waits_app (evs evs' : list Event) :
  waits (evs ++ evs') = waits evs ++ waits evs'.
Proof. apply flat_map_app. Qed.

Lemma tool_events_counts (evs : list Event) :
  Forall tool_event evs ->
  filter offers_tools evs = []
  /\ filter final_call evs = []
  /\ waits evs = [].
Proof.
  induction 1 as [ | ev evs Hev _ (IH1 & IH2 & IH3)]; [repeat split | ].
  destruct ev; try discriminate Hev; cbn; repeat split; assumption.
Qed.

Section Budget.

Variable env : Env.

(** A pass calls the model once with the tools, at most once without, and
    never waits. *)
Lemma attempt_counts (h : list Turn) (past : list Event)
      (o : Outcome (option string)) (h' : list Turn) (evs : list Event) :
  attempt env h past = (o, h', evs) ->
  List.length (filter offers_tools evs) = 1%nat
  /\ (List.length (filter final_call evs) <= 1)%nat
  /\ waits evs = [].
Proof.
  intros E.
  destruct (attempt_shape env _ _ _ _ _ E)
    as (out1 & tool_evs & mid & tail & finals & Htools & _ & _ & _ & ->
        & Hfinals).
  destruct (tool_events_counts _ Htools) as (Hoffers & Hfinal & Hwaits).
  cbn [filter offers_tools final_call]. rewrite !filter_app, Hoffers, Hfinal.
  change (waits (EvModelCall true h out1 :: tool_evs ++ finals))
    with (waits (tool_evs ++ finals)).
  rewrite waits_app, Hwaits.
  destruct Hfinals as [-> | (out2 & ->)]; cbn; repeat split; lia.
Qed.

Lemma loop_bounds (max_retries retry_count : Z) (h : list Turn)
      (past : list Event) (run : Run) :
  loop_result env max_retries retry_count h past run ->
  (0 <= retry_count)%Z ->
  (List.length (filter offers_tools (snd run))
   <= Z.to_nat (max_retries - retry_count))%nat
  /\ (List.length (filter final_call (snd run))
      <= List.length (filter offers_tools (snd run)))%nat
  /\ (List.length (waits (snd run))
      <= Z.to_nat (max_retries - retry_count))%nat
  /\ Forall (fun w => (2 ^ retry_count < w <= 2 ^ max_retries)%Z)
            (waits (snd run))
  /\ StronglySorted Z.lt (waits (snd run)).
Proof.
  induction 1 as
    [ rc h past Hge
    | rc h past answer h' evs Hlt Eattempt
    | rc h past e h' evs Hlt Eattempt Hfatal
    | rc h past e h' evs answer h'' evs' Hlt Eattempt Hclass Hrest IH
    | rc h past e h' evs answer h'' evs' Hlt Eattempt Hclass Hrest IH ];
    intros Hrc; cbn [fst snd] in *.
  - cbn. repeat split; try lia; constructor.
  - destruct (attempt_counts _ _ _ _ _ Eattempt) as (Hoffers & Hfinal & Hwaits).
    rewrite Hoffers, Hwaits. cbn. repeat split; try lia; constructor.
  - destruct (attempt_counts _ _ _ _ _ Eattempt) as (Hoffers & Hfinal & Hwaits).
    rewrite Hoffers, Hwaits. cbn. repeat split; try lia; constructor.
  - destruct (attempt_counts _ _ _ _ _ Eattempt) as (Hoffers & Hfinal & Hwaits).
    destruct IH as (IHoffers & IHfinal & IHwaits & IHrange & IHsorted); [lia | ].
    change (evs ++ EvSleep (2 ^ (rc + 1)) :: evs')
      with (evs ++ [EvSleep (2 ^ (rc + 1))] ++ evs').
    rewrite !filter_app, !length_app, !waits_app, Hoffers, Hwaits.
    cbn [filter offers_tools final_call app List.length waits flat_map].
    assert (Hstep : (2 ^ rc < 2 ^ (rc + 1) <= 2 ^ max_retries)%Z).
    { split; [apply Z.pow_lt_mono_r; lia | apply Z.pow_le_mono_r; lia]. }
    repeat split; try lia.
    + constructor; [exact Hstep | ].
      eapply Forall_impl; [ | exact IHrange]. cbn. intros w Hw. lia.
    + constructor; [exact IHsorted | ].
      eapply Forall_impl; [ | exact IHrange]. cbn. intros w Hw. lia.
  - destruct (attempt_counts _ _ _ _ _ Eattempt) as (Hoffers & Hfinal & Hwaits).
    destruct IH as (IHoffers & IHfinal & IHwaits & IHrange & IHsorted); [lia | ].
    rewrite !filter_app, !length_app, !waits_app, Hoffers, Hwaits.
    cbn [app].
    assert (Hstep : (2 ^ rc < 2 ^ (rc + 1))%Z)
      by (apply Z.pow_lt_mono_r; lia).
    repeat split; try lia; try assumption.
    eapply Forall_impl; [ | exact IHrange]. cbn. intros w Hw. lia.
Qed.

End Budget.

(** X8.  The attempt budget bounds what a call of
    [chat_with_function_calling] does, whatever the model and the tools
    do: at most [max_retries] calls that offer the tools, never more
    final-answer calls than those, at most [max_retries] waits, each a
    power of two between 2 and [2 ^ max_retries] and longer than the one
    before.  With [max_retries <= 0] the model is not called at all: the
    user turn is appended and the give-up message returned. *)
Theorem attempt_budget_bounds :
  forall (env : Env) (user_message : string) (max_retries : Z)
         (h : list Turn) (past : list Event)
         (answer : option string) (h' : list Turn) (evs : list Event),
    chat_with_function_calling env user_message max_retries h past
    = Some (answer, h', evs) ->
    (List.length (filter offers_tools evs) <= Z.to_nat max_retries)%nat
    /\ (List.length (filter final_call evs)
        <= List.length (filter offers_tools evs))%nat
    /\ (List.length (waits evs) <= Z.to_nat max_retries)%nat
    /\ Forall (fun w => (2 <= w <= 2 ^ max_retries)%Z) (waits evs)
    /\ StronglySorted Z.lt (waits evs)
    /\ ((max_retries <= 0)%Z ->
        answer = Some exhausted
        /\ h' = h ++ [user_turn user_message]
        /\ evs = []).
Proof.
  intros env user_message max_retries h past answer h' evs Erun.
  pose proof (chat_graph _ _ _ _ _ _ Erun) as L.
  apply loop_bounds in L; [ | lia]. cbn [fst snd] in L.
  rewrite Z.sub_0_r in L.
  destruct L as (Hoffers & Hfinal & Hwaits & Hrange & Hsorted).
  split; [exact Hoffers | ]. split; [exact Hfinal | ].
  split; [exact Hwaits | ].
  split; [eapply Forall_impl; [ | exact Hrange]; cbn; intros w Hw; lia | ].
  split; [exact Hsorted | ].
  intros Hmax. unfold chat_with_function_calling in Erun.
  destruct (Z.to_nat max_retries); cbn [retry_loop] in Erun;
    destruct (Z.ltb_spec 0 max_retries); try lia;
    injection Erun as <- <- <-; repeat split.
Qed.

(** * Tool failures and the loop *)

Section ToolFailures.

Variable env : Env.

(** A round of the loop over the tool calls is aborted by [json.loads] or
    by [json.dumps] only, never by the tool. *)
Lemma run_tool_call_completes (call : ToolCall) (h : list Turn)
      (past : list Event) :
  is_ret (env_json_loads env (fn_arguments (tc_function call))) = true ->
  (forall result, is_ret (env_json_dumps env result) = true) ->
  exists text evs,
    run_tool_call env call h past = (Ret tt, h ++ [tool_turn text call], evs)
    /\ reports env text call.
Proof.
  intros Hloads Hdumps. unfold run_tool_call, io, pure, append_history. cbn.
  destruct (env_json_loads env (fn_arguments (tc_function call)))
    as [function_args | e] eqn:Eloads; [ | discriminate]. cbn.
  pose proof (execute_function_call_returns env (fn_name (tc_function call))
                function_args (past ++ [])) as (result & Hres & _).
  destruct (execute_function_call env (fn_name (tc_function call))
              function_args (past ++ [])) as [o evs] eqn:Ecall.
  cbn in Hres. subst o. cbn.
  specialize (Hdumps result).
  destruct (env_json_dumps env result) as [text | e] eqn:Edumps;
    [ | discriminate]. cbn.
  exists text, evs. rewrite !app_nil_r. split; [reflexivity | ].
  exists function_args, result, (past ++ []).
  rewrite Ecall. repeat split; assumption.
Qed.

Lemma run_tool_calls_completes (calls : list ToolCall) :
  forall (h : list Turn) (past : list Event),
    (forall call, In call calls ->
       is_ret (env_json_loads env (fn_arguments (tc_function call))) = true) ->
    (forall result, is_ret (env_json_dumps env result) = true) ->
    exists texts evs,
      run_tool_calls env calls h past
      = (Ret tt, h ++ tool_turns texts calls, evs)
      /\ Forall2 (reports env) texts calls.
Proof.
  induction calls as [ | call rest IH]; intros h past Hloads Hdumps.
  - exists [], []. cbn. rewrite app_nil_r. split; [reflexivity | constructor].
  - destruct (run_tool_call_completes call h past
                (Hloads call (or_introl eq_refl)) Hdumps)
      as (text & evs & Ecall & Hreport).
    destruct (IH (h ++ [tool_turn text call]) (past ++ evs)
                 (fun c Hc => Hloads c (or_intror Hc)) Hdumps)
      as (texts & evs' & Erest & Hreports).
    exists (text :: texts), (evs ++ evs').
    cbn [run_tool_calls bind Monad_M]. rewrite Ecall, Erest.
    rewrite <- app_assoc. split; [reflexivity | now constructor].
Qed.

End ToolFailures.

(** X9.  Failing tools never abort an exchange.  When the first response
    asks for tools, the argument texts parse and results can be
    serialised, the pass reaches the final-answer call whatever the tools
    do (unknown name, arguments that do not fit, failing provider): every
    invocation gets its tool turn, holding the serialised result of the
    dispatcher, and the model is called without tools on the history with
    all of these turns. *)
Theorem tool_failures_do_not_abort :
  forall (env : Env) (h : list Turn) (past : list Event)
         (resp : ChatCompletion) (am : Message),
    env_create env past true h = Ret resp ->
    first_message resp = Ret am ->
    requested am <> [] ->
    (forall call, In call (requested am) ->
       is_ret (env_json_loads env (fn_arguments (tc_function call))) = true) ->
    (forall result, is_ret (env_json_dumps env result) = true) ->
    exists (texts : list string) (tool_evs : list Event)
           (out : Outcome ChatCompletion) (tail : list Turn),
      Forall2 (reports env) texts (requested am)
      /\ Forall tool_event tool_evs
      /\ snd (attempt env h past)
         = EvModelCall true h (Ret resp) :: tool_evs
           ++ [EvModelCall false
                 (h ++ assistant_tool_turn am (requested am)
                    :: tool_turns texts (requested am))
                 out]
      /\ snd (fst (attempt env h past))
         = h ++ assistant_tool_turn am (requested am)
             :: tool_turns texts (requested am) ++ tail.
Proof.
  intros env h past resp am Ecreate Efirst Hne Hloads Hdumps.
  destruct (run_tool_calls_completes env (requested am)
              (h ++ [assistant_tool_turn am (requested am)])
              (past ++ [EvModelCall true h (Ret resp)]) Hloads Hdumps)
    as (texts & tool_evs & Etools & Hreports).
  pose proof (run_tool_calls_inv env _ _ _ _ _ _ Etools)
    as (texts' & _ & _ & _ & Htools).
  pose proof (attempt_inv env h past) as A.
  destruct (attempt env h past) as [[o h'] evs]. cbn [fst snd].
  inversion A; subst; try congruence;
    repeat match goal with
           | H : env_create env past true h = Ret ?r |- _ =>
               tryif constr_eq r resp then fail
               else (assert (r = resp) by congruence; subst r)
           | H : first_message resp = Ret ?m |- _ =>
               tryif constr_eq m am then fail
               else (assert (m = am) by congruence; subst m)
           end;
    match goal with
    | H : run_tool_calls _ _ _ _ = _ |- _ =>
        rewrite Etools in H; injection H as <- <-
    end.
  - exists texts, tool_evs, (Raise e), [].
    rewrite app_nil_r, <- !app_assoc. repeat split; assumption.
  - exists texts, tool_evs, (Ret resp2), [].
    rewrite app_nil_r, <- !app_assoc. repeat split; assumption.
  - exists texts, tool_evs, (Ret resp2), [assistant_turn (msg_content final)].
    rewrite <- !app_assoc. repeat split; assumption.
Qed.

Section MalformedArguments.

Variable env : Env.

Lemma run_tool_calls_app (before after : list ToolCall) :
  forall (h : list Turn) (past : list Event),
    run_tool_calls env (before ++ after) h past
    = match run_tool_calls env before h past with
      | (Ret _, h1, evs) =>
          match run_tool_calls env after h1 (past ++ evs) with
          | (o, h2, evs') => (o, h2, evs ++ evs')
          end
      | (Raise e, h1, evs) => (Raise e, h1, evs)
      end.
Proof.
  induction before as [ | call before IH]; intros h past.
  - cbn. rewrite app_nil_r.
    now destruct (run_tool_calls env after h past) as [[o h2] evs'].
  - cbn [app run_tool_calls bind Monad_M].
    destruct (run_tool_call env call h past) as [[[[] | e] h1] evs];
      [ | reflexivity].
    rewrite IH.
    destruct (run_tool_calls env before h1 (past ++ evs))
      as [[[[] | e] h2] evs2]; [ | reflexivity].
    rewrite <- app_assoc.
    destruct (run_tool_calls env after h2 (past ++ evs ++ evs2))
      as [[o h3] evs3].
    now rewrite <- app_assoc.
Qed.

(** A round whose arguments do not parse leaves everything as it was. *)
Lemma run_tool_call_malformed (call : ToolCall) (h : list Turn)
      (past : list Event) (e : Exc) :
  env_json_loads env (fn_arguments (tc_function call)) = Raise e ->
  run_tool_call env call h past = (Raise e, h, []).
Proof.
  intros Eloads. unfold run_tool_call, io, pure. cbn. now rewrite Eloads.
Qed.

(** A pass whose loop over the tool calls is aborted ends there. *)
Lemma attempt_dispatch_raise (h : list Turn) (past : list Event)
      (resp : ChatCompletion) (am : Message) (e : Exc) (h2 : list Turn)
      (evs : list Event) :
  env_create env past true h = Ret resp ->
  first_message resp = Ret am ->
  requested am <> [] ->
  run_tool_calls env (requested am)
                 (h ++ [assistant_tool_turn am (requested am)])
                 (past ++ [EvModelCall true h (Ret resp)])
  = (Raise e, h2, evs) ->
  attempt env h past = (Raise e, h2, EvModelCall true h (Ret resp) :: evs).
Proof.
  intros Ecreate Efirst Hne Etools.
  pose proof (attempt_inv env h past) as A.
  destruct (attempt env h past) as [[o h'] evs'].
  inversion A; subst; congruence.
Qed.

End MalformedArguments.

(** A loop over the tool calls that came to its end has written, for each
    invocation, the result of its dispatch. *)
Lemma dispatched_reports (env : Env) (past : list Event)
      (calls : list ToolCall) (o : Outcome unit) (texts : list string)
      (evs : list Event) :
  dispatched env past calls o texts evs ->
  o = Ret tt ->
  Forall2 (reports env) texts calls.
Proof.
  induction 1 as
    [ past
    | past call calls e Hloads
    | past call calls function_args result evs e Hloads Hrun Hdumps
    | past call calls function_args result evs text o texts evs'
        Hloads Hrun Hdumps Hrest IH ];
    intros Ho; try discriminate Ho.
  - constructor.
  - constructor; [ | exact (IH Ho)].
    exists function_args, result, past. rewrite Hrun. now repeat split.
Qed.

(** X10.  Arguments that [json.loads] rejects abort the exchange in the
    middle of the batch.  If the text of one invocation does not parse
    (an exception the loop does not retry), [chat_with_function_calling]
    returns the apology with the text of the exception.  The invocations
    before it have been dispatched, one after the other, and their tool
    turns are in the history; what the run did is the one call of the
    model and the events of these dispatches, and nothing else: the
    invocation itself and the ones after it are not run and get no tool
    turn, though the assistant turn that asks for them stays, and the model
    is not called again. *)
Theorem malformed_arguments_abort :
  forall (env : Env) (user_message : string) (max_retries : Z)
         (h : list Turn) (past : list Event)
         (resp : ChatCompletion) (am : Message)
         (before after : list ToolCall) (bad : ToolCall) (e : Exc),
    (1 <= max_retries)%Z ->
    env_create env past true (h ++ [user_turn user_message]) = Ret resp ->
    first_message resp = Ret am ->
    msg_tool_calls am = Some (before ++ bad :: after) ->
    (forall call, In call before ->
       is_ret (env_json_loads env (fn_arguments (tc_function call))) = true) ->
    (forall result, is_ret (env_json_dumps env result) = true) ->
    env_json_loads env (fn_arguments (tc_function bad)) = Raise e ->
    retryable (exc_class e) = false ->
    exists (texts : list string) (tool_evs : list Event),
      Forall2 (reports env) texts before
      /\ Forall tool_event tool_evs
      /\ dispatched env
                    (past ++ [EvModelCall true (h ++ [user_turn user_message])
                                          (Ret resp)])
                    before (Ret tt) texts tool_evs
      /\ chat_with_function_calling env user_message max_retries h past
         = Some (Some ("抱歉，我遇到了技术问题：" +++ exc_str e),
                 h ++ user_turn user_message
                   :: assistant_tool_turn am (before ++ bad :: after)
                   :: tool_turns texts before,
                 EvModelCall true (h ++ [user_turn user_message]) (Ret resp)
                 :: tool_evs).
Proof.
  intros env user_message max_retries h past resp am before after bad e
         Hmax Ecreate Efirst Ecalls Hloads Hdumps Ebad Hfatal.
  assert (Hreq : requested am = before ++ bad :: after)
    by (unfold requested; now rewrite Ecalls).
  assert (Hne : requested am <> [])
    by (rewrite Hreq; now destruct before).
  set (h1 := h ++ [user_turn user_message]) in *.
  destruct (run_tool_calls_completes env before
              (h1 ++ [assistant_tool_turn am (requested am)])
              (past ++ [EvModelCall true h1 (Ret resp)]) Hloads Hdumps)
    as (texts0 & tool_evs & Ebefore & _).
  destruct (run_tool_calls_dispatched env _ _ _ _ _ _ Ebefore)
    as (texts & Heq & Hdispatched).
  rewrite Heq in Ebefore. clear Heq texts0.
  assert (Etools :
    run_tool_calls env (requested am)
                   (h1 ++ [assistant_tool_turn am (requested am)])
                   (past ++ [EvModelCall true h1 (Ret resp)])
    = (Raise e,
       (h1 ++ [assistant_tool_turn am (requested am)])
       ++ tool_turns texts before,
       tool_evs)).
  { rewrite Hreq at 1. rewrite run_tool_calls_app, Ebefore.
    cbn [run_tool_calls bind Monad_M].
    rewrite (run_tool_call_malformed env _ _ _ _ Ebad). now rewrite app_nil_r. }
  pose proof (attempt_dispatch_raise env _ _ _ _ _ _ _
                Ecreate Efirst Hne Etools) as Eattempt.
  exists texts, tool_evs.
  split; [exact (dispatched_reports _ _ _ _ _ _ Hdispatched eq_refl) | ].
  split; [exact (dispatched_tool_events _ _ _ _ _ _ Hdispatched) | ].
  split; [exact Hdispatched | ].
  rewrite (chat_fatal_pass env user_message max_retries h past e _ _
             Hmax Eattempt Hfatal).
  unfold apology. rewrite Hreq. unfold h1. rewrite <- !app_assoc.
  reflexivity.
Qed.

(** * The catalogue and the bound methods *)

Lemma first_unexpected_none (params : list string) (d : list (string * json)) :
  forallb (fun kv => existsb (String.eqb (fst kv)) params) d = true ->
  first_unexpected params d = None.
Proof.
  induction d as [ | [k v] d IH]; [reflexivity | ].
  cbn [forallb first_unexpected fst]. intros H.
  apply andb_true_iff in H as [Hk Hd]. rewrite Hk. exact (IH Hd).
Qed.

Lemma first_unexpected_some (params : list string) (d : list (string * json)) :
  forallb (fun kv => existsb (String.eqb (fst kv)) params) d = false ->
  exists k, first_unexpected params d = Some k.
Proof.
  induction d as [ | [k v] d IH]; [discriminate | ].
  cbn [forallb first_unexpected fst]. intros H.
  destruct (existsb (String.eqb k) params); [exact (IH H) | now exists k].
Qed.

Lemma bind_pure_ret {A B : Type} (a : A) (f : A -> IO B) (past : list Event) :
  bind (pure (Ret a)) f past = f a past.
Proof. cbn. rewrite app_nil_r. now destruct (f a past). Qed.

(** A bound method that returns hands its result through the dispatcher. *)
Lemma dispatch_returning (env : Env) (name : string) (method : Adapter)
      (arguments : json) (m : IO ToolResult) (past : list Event) :
  assoc name (function_map env) = Some method ->
  method arguments past = m past ->
  returns populated m ->
  execute_function_call env name arguments past = m past.
Proof.
  intros Hbound Hcall Hreturns. unfold execute_function_call.
  rewrite (dispatch_known _ _ _ _ _ Hbound), Hcall.
  destruct (Hreturns past) as (result & Hresult & _).
  destruct (m past) as [o evs]. cbn in *. now rewrite Hresult.
Qed.

(** A call that the binding of the arguments rejects. *)
Lemma dispatch_rejecting (env : Env) (name : string) (method : Adapter)
      (arguments : json) (message : string) (past : list Event) :
  assoc name (function_map env) = Some method ->
  method arguments past = (Raise (mkExc TypeError message), []) ->
  execute_function_call env name arguments past
  = (Ret (failure ("函数参数错误: " +++ message)), []).
Proof.
  intros Hbound Hcall. unfold execute_function_call.
  now rewrite (dispatch_known _ _ _ _ _ Hbound), Hcall.
Qed.

Lemma has_key_assoc {A : Type} (k : string) (d : list (string * A)) :
  has_key k d = true -> exists v, assoc k d = Some v.
Proof.
  unfold has_key. destruct (assoc k d) as [v | ]; [now exists v | discriminate].
Qed.

Ltac bound_arguments :=
  repeat match goal with
         | H : _ && _ = true |- _ => apply andb_true_iff in H as [? ?]
         | H : has_key _ _ = true |- _ =>
             apply has_key_assoc in H as [? H]
         | H : true = true |- _ => clear H
         end.

(** X11.  The catalogue that is sent to the model agrees with the methods
    behind the dispatcher.  For a tool of [self.tools] and an arguments
    object with no key outside the tool's properties and with every
    required one, [execute_function_call] returns what the method of that
    name returns on the values of the properties in the order of the
    catalogue, a property that is left out standing for the default the
    catalogue advertises; the values themselves are not checked against
    the types and enumerations of the catalogue. *)
Theorem catalogue_arguments_reach_method :
  forall (env : Env) (spec : ToolSpec) (d : list (string * json))
         (past : list Event),
    In spec tools ->
    conforms spec d = true ->
    exists method : IO ToolResult,
      positional_call env (spec_name spec)
                      (map (argument d) (spec_properties spec))
      = Some method
      /\ execute_function_call env (spec_name spec) (JDict d) past
         = method past.
Proof.
  intros env spec d past Hspec Hconforms.
  unfold conforms in Hconforms.
  apply andb_true_iff in Hconforms as [Hkeys Hrequired].
  apply first_unexpected_none in Hkeys.
  cbn [In tools] in Hspec.
  destruct Hspec as [<- | [<- | [<- | [<- | [<- | []]]]]];
    cbn [spec_required forallb] in Hrequired; bound_arguments;
    cbn [spec_name spec_properties property_names map param_name] in *;
    (eexists; split; [reflexivity | ]).
  - eapply dispatch_returning;
      [reflexivity | | apply get_real_weather_returns].
    unfold call_get_real_weather, keywords, required, optional, argument.
    cbv zeta. cbn [param_name param_default].
    rewrite Hkeys, !bind_pure_ret.
    match goal with H : assoc "city" d = _ |- _ => rewrite H end.
    rewrite bind_pure_ret. reflexivity.
  - eapply dispatch_returning;
      [reflexivity | | apply search_news_returns].
    unfold call_search_news, keywords, required, optional, argument.
    cbv zeta. cbn [param_name param_default].
    rewrite Hkeys, !bind_pure_ret.
    match goal with H : assoc "query" d = _ |- _ => rewrite H end.
    rewrite bind_pure_ret. reflexivity.
  - eapply dispatch_returning;
      [reflexivity | | apply analyze_stock_returns].
    unfold call_analyze_stock, keywords, required, optional, argument.
    cbv zeta. cbn [param_name param_default].
    rewrite Hkeys, !bind_pure_ret.
    match goal with H : assoc "symbol" d = _ |- _ => rewrite H end.
    rewrite bind_pure_ret. reflexivity.
  - eapply dispatch_returning;
      [reflexivity | | apply send_email_returns].
    unfold call_send_email, keywords, required, argument.
    cbv zeta. cbn [param_name param_default].
    rewrite Hkeys, !bind_pure_ret.
    repeat match goal with
           | H : assoc _ d = Some _ |- _ =>
               rewrite H; rewrite ?bind_pure_ret; clear H
           end.
    reflexivity.
  - eapply dispatch_returning;
      [reflexivity | | apply send_message_with_weixin_returns].
    unfold call_send_message_with_weixin, keywords, required, argument.
    cbv zeta. cbn [param_name param_default].
    rewrite Hkeys, !bind_pure_ret.
    repeat match goal with
           | H : assoc _ d = Some _ |- _ =>
               rewrite H; rewrite ?bind_pure_ret; clear H
           end.
    reflexivity.
Qed.

Lemma bind_pure_raise {A B : Type} (e : Exc) (f : A -> IO B)
      (past : list Event) :
  bind (pure (Raise e)) f past = (Raise e, []).
Proof. reflexivity. Qed.

Lemma has_key_missing {A : Type} (k : string) (d : list (string * A)) :
  has_key k d = false -> assoc k d = None.
Proof. unfold has_key. now destruct (assoc k d). Qed.

(** Unfolds the bound method the goal calls. *)
Ltac unfold_method :=
  match goal with
  | |- ?method _ _ _ = _ => unfold method
  end; cbv zeta.

(** X12.  Arguments that do not fit the catalogue never reach a tool.  For
    a tool of [self.tools], arguments that are no object, or an object
    with a key outside the tool's properties or without a required one, make
    [execute_function_call] return the argument-error failure; no request
    is sent, no mail, no message. *)
Theorem catalogue_rejects_other_arguments :
  forall (env : Env) (spec : ToolSpec) (arguments : json) (past : list Event),
    In spec tools ->
    (forall d, arguments = JDict d -> conforms spec d = false) ->
    exists message : string,
      execute_function_call env (spec_name spec) arguments past
      = (Ret (failure ("函数参数错误: " +++ message)), []).
Proof.
  intros env spec arguments past Hspec Hother.
  assert (Hcases :
    (forall d, arguments <> JDict d)
    \/ (exists d k, arguments = JDict d
          /\ first_unexpected (property_names spec) d = Some k)
    \/ (exists d, arguments = JDict d
          /\ first_unexpected (property_names spec) d = None
          /\ forallb (fun p => has_key p d) (spec_required spec) = false)).
  { destruct arguments as [ | | | | | | d]; try (left; intros d; discriminate).
    right. specialize (Hother d eq_refl). unfold conforms in Hother.
    destruct (forallb (fun kv => existsb (String.eqb (fst kv))
                                         (property_names spec)) d) eqn:Hkeys.
    - right. exists d. split; [reflexivity | ].
      split; [now apply first_unexpected_none | exact Hother].
    - left. destruct (first_unexpected_some _ _ Hkeys) as (k & Hk).
      now exists d, k. }
  cbn [In tools] in Hspec.
  destruct Hcases as [Hshape | [(d & k & -> & Hk) | (d & -> & Hkeys & Hmiss)]].
  - destruct Hspec as [<- | [<- | [<- | [<- | [<- | []]]]]];
      cbn [spec_name]; eexists;
      (eapply dispatch_rejecting; [reflexivity | ]);
      destruct arguments as [ | | | | | | d];
      try (now destruct (Hshape d)); reflexivity.
  - destruct Hspec as [<- | [<- | [<- | [<- | [<- | []]]]]];
      cbn [spec_name spec_properties property_names map param_name] in *;
      eexists; (eapply dispatch_rejecting; [reflexivity | ]);
      unfold_method; unfold keywords; rewrite Hk; reflexivity.
  - destruct Hspec as [<- | [<- | [<- | [<- | [<- | []]]]]];
      cbn [spec_name spec_properties spec_required property_names map
           param_name forallb] in *;
      rewrite ?andb_true_r in Hmiss.
    1-3: apply has_key_missing in Hmiss; eexists;
      (eapply dispatch_rejecting; [reflexivity | ]);
      unfold_method; unfold keywords, required;
      rewrite Hkeys, bind_pure_ret, Hmiss; reflexivity.
    + unfold has_key in Hmiss.
      destruct (assoc "to" d) eqn:Hto;
        [destruct (assoc "subject" d) eqn:Hsubject;
         [destruct (assoc "content" d) eqn:Hcontent; [discriminate | ] | ] | ];
        eexists; (eapply dispatch_rejecting; [reflexivity | ]);
        unfold_method; unfold keywords, required;
        rewrite Hkeys, bind_pure_ret, Hto, ?bind_pure_ret, ?Hsubject,
                ?bind_pure_ret, ?Hcontent;
        reflexivity.
    + unfold has_key in Hmiss.
      destruct (assoc "user_name" d) eqn:Huser;
        [destruct (assoc "content" d) eqn:Hcontent; [discriminate | ] | ];
        eexists; (eapply dispatch_rejecting; [reflexivity | ]);
        unfold_method; unfold keywords, required;
        rewrite Hkeys, bind_pure_ret, Huser, ?bind_pure_ret, ?Hcontent;
        reflexivity.
Qed.

(** * What a success stands for *)

Lemma bind_pure_inv {A B : Type} (o : Outcome A) (f : A -> IO B)
      (past : list Event) (r : Outcome B) (evs : list Event) :
  bind (pure o) f past = (r, evs) ->
  (exists a, o = Ret a /\ f a past = (r, evs))
  \/ (exists e, o = Raise e /\ r = Raise e /\ evs = []).
Proof.
  destruct o as [a | e].
  - rewrite bind_pure_ret. intros E. left. now exists a.
  - cbn. intros E. right. exists e. now injection E as <- <-.
Qed.

Lemma function_map_cases (env : Env) (name : string) (method : Adapter) :
  assoc name (function_map env) = Some method ->
  name = "get_real_weather" /\ method = call_get_real_weather env
  \/ name = "search_news" /\ method = call_search_news env
  \/ name = "analyze_stock" /\ method = call_analyze_stock env
  \/ name = "send_email" /\ method = call_send_email env
  \/ name = "send_message_with_weixin"
     /\ method = call_send_message_with_weixin env.
Proof.
  unfold function_map. cbn [assoc].
  repeat match goal with
         | |- (if String.eqb ?a ?b then _ else _) = Some _ -> _ =>
             destruct (String.eqb_spec a b)
         end;
    intros E; try discriminate; injection E as <-; tauto.
Qed.

Lemma keywords_field (fname : string) (params : list string)
      (arguments : json) (kwargs : list (string * json)) :
  keywords fname params arguments = Ret kwargs ->
  forall k, assoc k kwargs = field arguments k.
Proof.
  unfold keywords. destruct arguments as [ | | | | | | d]; try discriminate.
  destruct (first_unexpected params d); [discriminate | ].
  intros E k. now injection E as <-.
Qed.

Lemma required_field (fname : string) (positional : list string)
      (kwargs : list (string * json)) (p : string) (v : json) :
  required fname positional kwargs p = Ret v -> assoc p kwargs = Some v.
Proof.
  unfold required. destruct (assoc p kwargs); [ | discriminate].
  intros E. now injection E as ->.
Qed.

Section Deliveries.

Variable env : Env.

Lemma get_real_weather_delivered (city units : json) (past : list Event)
      (data : json) (evs : list Event) :
  get_real_weather env city units past = (Ret (success data), evs) ->
  exists params response,
    evs = [EvHttpGet "http://api.openweathermap.org/data/2.5/weather" params
                     (Ret response)]
    /\ status response = Ret tt
    /\ assoc "q" params = Some city.
Proof.
  unfold get_real_weather, requests_get, perform, try_except, pure, now.
  cbv zeta. cbn [bind ret Monad_IO].
  destruct (env_requests_get env past _ _) as [[st bd] | e];
    cbn [status body];
    [destruct st as [[] | e]; [destruct bd as [data' | e];
       [destruct (weather_fields env data' units) as [fields | e] | ] | ] | ];
    try destruct (exc_class e); cbn; intros E; try discriminate E.
  injection E as <- <-. do 2 eexists. repeat split.
Qed.

Lemma search_news_delivered (query category country : json)
      (past : list Event) (data : json) (evs : list Event) :
  search_news env query category country past = (Ret (success data), evs) ->
  exists params response,
    evs = [EvHttpGet "https://newsapi.org/v2/everything" params (Ret response)]
    /\ status response = Ret tt
    /\ assoc "q" params = Some query.
Proof.
  unfold search_news, requests_get, perform, try_except, pure, now.
  cbv zeta. cbn [bind ret Monad_IO].
  destruct (env_requests_get env past _ _) as [[st bd] | e];
    cbn [status body];
    [destruct st as [[] | e]; [destruct bd as [data' | e];
       [destruct (dict_get data' "articles" (JList [])) as [listed | e];
        [destruct (slice5 listed) as [items | e];
         [destruct (collect_articles items) as [entries | e];
          [destruct (dict_get data' "totalResults" (JNum (0 # 1)))
             as [total | e] | ] | ] | ] | ] | ] | ];
    cbn; intros E; try discriminate E.
  injection E as <- <-. do 2 eexists. repeat split.
Qed.

Lemma send_email_delivered (to subject content : json) (past : list Event)
      (data : json) (evs : list Event) :
  send_email env to subject content past = (Ret (success data), evs) ->
  exists session,
    evs = [EvSmtp session (Ret tt)]
    /\ mail_to (smtp_message session) = to
    /\ mail_subject (smtp_message session) = subject
    /\ mail_text (smtp_message session) = content.
Proof.
  unfold send_email, perform, try_except, pure, now.
  cbv zeta. cbn [bind ret Monad_IO].
  destruct (env_int env _) as [port | e]; cbn;
    [destruct (mime_text content) as [[] | e];
     [cbn; destruct (env_smtp env _ _) as [[] | e] | ] | ];
    cbn; intros E; try discriminate E.
  injection E as <- <-. eexists. repeat split.
Qed.

Lemma send_message_with_weixin_delivered (user_name content : json)
      (past : list Event) (data : json) (evs : list Event) :
  send_message_with_weixin env user_name content past
  = (Ret (success data), evs) ->
  evs = [EvPrint stars; EvPrint (py_str env content); EvPrint stars].
Proof.
  unfold send_message_with_weixin, emit, try_except, now.
  cbn. intros E. now injection E as <- <-.
Qed.

Lemma analyze_stock_delivered (symbol period : json) (past : list Event)
      (data : json) (evs : list Event) :
  analyze_stock env symbol period past = (Ret (success data), evs) ->
  exists info row1 row2 rows,
    evs = [EvTickerInfo symbol (Ret info);
           EvTickerHistory symbol period (Ret (row1 :: row2 :: rows))].
Proof.
  unfold analyze_stock, perform, try_except, pure, now.
  cbv zeta. cbn [bind ret Monad_IO].
  destruct (env_import_yfinance env) as [[] | e];
    [ | destruct (exc_class e); cbn; intros E; discriminate E].
  cbn [bind ret Monad_IO app].
  destruct (env_ticker_info env _ symbol) as [info | e];
    [ | destruct (exc_class e); cbn; intros E; discriminate E].
  cbn [bind ret Monad_IO app].
  destruct (env_ticker_history env _ symbol period) as [[ | row1 hist] | e];
    [ cbn; intros E; discriminate E
    |
    | destruct (exc_class e); cbn; intros E; discriminate E].
  destruct hist as [ | row2 rows].
  - cbn. intros E. discriminate E.
  - intros E. exists info, row1, row2, rows.
    cbn [map] in E.
    repeat match type of E with
           | context [match ?x with Ret _ => _ | Raise _ => _ end] =>
               destruct x as [? | e];
               [ | destruct (exc_class e); cbn in E; discriminate E]
           end.
    cbn in E. now injection E as <- <-.
Qed.

End Deliveries.

(** Reads the binding of the arguments off a call of a bound method that
    returned. *)
Ltac bound_call E :=
  cbv zeta in E;
  repeat match type of E with
         | bind (pure (keywords _ _ _)) _ _ = _ =>
             let kwargs := fresh "kwargs" in
             let Hkeywords := fresh "Hkeywords" in
             apply bind_pure_inv in E
               as [(kwargs & Hkeywords & E) | (? & _ & [=] & _)];
             pose proof (keywords_field _ _ _ _ Hkeywords)
         | bind (pure (required _ _ _ _)) _ _ = _ =>
             let v := fresh "v" in
             let Hrequired := fresh "Hrequired" in
             apply bind_pure_inv in E
               as [(v & Hrequired & E) | (? & _ & [=] & _)];
             apply required_field in Hrequired
         end.

(** X13.  A result with [success] true stands for a provider that did its
    part.  Whenever [execute_function_call] returns such a result, the tool
    is one of the five, and what happened is exactly: for the weather and
    the news one request to the provider's address for the city, or the
    query, of the arguments, answered with a good status; for the stock
    analysis the company data and a price history of at least two rows of
    the symbol; for the mail one completed SMTP session with the recipient,
    the subject and the content of the arguments; for the message three
    printed lines, the content between two lines of stars, and nothing sent
    anywhere. *)
Theorem success_means_delivered :
  forall (env : Env) (name : string) (arguments : json) (past : list Event)
         (data : json) (evs : list Event),
    execute_function_call env name arguments past = (Ret (success data), evs) ->
    delivered env name arguments evs.
Proof.
  intros env name arguments past data evs Erun.
  unfold execute_function_call in Erun.
  destruct (assoc name (function_map env)) as [method | ] eqn:Hbound;
    [ | unfold dispatch in Erun; rewrite Hbound in Erun; discriminate Erun].
  rewrite (dispatch_known _ _ _ _ _ Hbound) in Erun.
  destruct (method arguments past) as [[result | e] evs'] eqn:Ecall;
    cbn [fst snd wrapped] in Erun;
    [ | destruct (exc_class e); discriminate Erun].
  injection Erun as -> ->.
  destruct (function_map_cases _ _ _ Hbound)
    as [[-> ->] | [[-> ->] | [[-> ->] | [[-> ->] | [-> ->]]]]].
  - unfold call_get_real_weather in Ecall. bound_call Ecall.
    apply get_real_weather_delivered in Ecall
      as (params & response & -> & Hstatus & Hq).
    cbn. split; [exact Hstatus | ]. left. repeat split. congruence.
  - unfold call_search_news in Ecall. bound_call Ecall.
    apply search_news_delivered in Ecall
      as (params & response & -> & Hstatus & Hq).
    cbn. split; [exact Hstatus | ]. right. repeat split. congruence.
  - unfold call_analyze_stock in Ecall. bound_call Ecall.
    apply analyze_stock_delivered in Ecall
      as (info & row1 & row2 & rows & ->).
    cbn. repeat split. congruence.
  - unfold call_send_email in Ecall. bound_call Ecall.
    apply send_email_delivered in Ecall
      as (session & -> & Hto & Hsubject & Hcontent).
    cbn. repeat split; congruence.
  - unfold call_send_message_with_weixin in Ecall. bound_call Ecall.
    apply send_message_with_weixin_delivered in Ecall as ->.
    cbn. repeat split. eexists. split; [ | reflexivity]. congruence.
Qed.

(** * The news search, article by article *)

Lemma collect_articles_all (items entries : list json) :
  Forall2 (fun article entry => article_entry article = Ret entry)
          items entries ->
  collect_articles items = Ret entries.
Proof.
  induction 1 as [ | article entry items entries Hentry _ IH];
    [reflexivity | ].
  cbn [collect_articles bind Monad_Outcome]. now rewrite Hentry, IH.
Qed.

Lemma collect_articles_first_failure (items : list json) (article : json)
      (e : Exc) :
  In article items ->
  article_entry article = Raise e ->
  exists article' e',
    In article' items
    /\ article_entry article' = Raise e'
    /\ collect_articles items = Raise e'.
Proof.
  induction items as [ | item items IH]; intros Hin Hraise; [destruct Hin | ].
  cbn [collect_articles bind Monad_Outcome].
  destruct (article_entry item) as [entry | e'] eqn:Hitem.
  - destruct Hin as [-> | Hin]; [congruence | ].
    destruct (IH Hin Hraise) as (article' & e' & Hin' & Hraise' & ->).
    exists article', e'. repeat split; [now right | assumption].
  - exists item, e'. repeat split; [now left | assumption].
Qed.

(** X14.  [search_news] reports the first five articles of the provider or
    none.  When the provider answers with an object whose ["articles"] is a
    list: if each of the first five has the fields the loop reads, the
    result is a success with their entries in the provider's order; if one
    of the first five lacks a field, the whole search is a failure with the
    text of the exception such an article raised, however many good ones
    there are.
    What comes after the fifth article plays no part. *)
Theorem search_news_all_or_nothing :
  forall (env : Env) (query category country : json) (past : list Event)
         (response : HttpResponse) (d : list (string * json))
         (items : list json),
    env_requests_get env past "https://newsapi.org/v2/everything"
                     (search_news_params env query category country)
    = Ret response ->
    status response = Ret tt ->
    body response = Ret (JDict d) ->
    assoc "articles" d = Some (JList items) ->
    (forall entries,
        Forall2 (fun article entry => article_entry article = Ret entry)
                (firstn 5 items) entries ->
        exists total timestamp,
          fst (search_news env query category country past)
          = Ret (success (JDict [("query", query);
                                 ("total_results", total);
                                 ("articles", JList entries);
                                 ("timestamp", JStr timestamp)])))
    /\ (forall article e,
           In article (firstn 5 items) ->
           article_entry article = Raise e ->
           exists article' e',
             In article' (firstn 5 items)
             /\ article_entry article' = Raise e'
             /\ fst (search_news env query category country past)
                = Ret (failure ("新闻搜索失败: " +++ exc_str e'))).
Proof.
  intros env query category country past response d items
         Hget Hstatus Hbody Harticles.
  assert (Hrun : forall o,
    collect_articles (firstn 5 items) = o ->
    fst (search_news env query category country past)
    = match o with
      | Ret entries =>
          Ret (success
                 (JDict [("query", query);
                         ("total_results",
                          match assoc "totalResults" d with
                          | Some v => v
                          | None => JNum (0 # 1)
                          end);
                         ("articles", JList entries);
                         ("timestamp",
                          JStr (env_now env
                                  (past ++ [EvHttpGet
                                              "https://newsapi.org/v2/everything"
                                              (search_news_params
                                                 env query category country)
                                              (Ret response)])))]))
      | Raise e => Ret (failure ("新闻搜索失败: " +++ exc_str e))
      end).
  { intros o Hcollect.
    unfold search_news, requests_get, perform, try_except, pure, now.
    cbv zeta. cbn [bind ret Monad_IO]. rewrite Hget.
    cbn [bind ret Monad_IO]. rewrite Hstatus, Hbody.
    cbn [bind ret Monad_IO dict_get]. rewrite Harticles.
    cbn [bind ret Monad_IO slice5]. rewrite Hcollect.
    destruct o as [entries | e]; [ | reflexivity].
    cbn [bind ret Monad_IO].
    destruct (assoc "totalResults" d); cbn; rewrite ?app_nil_r; reflexivity. }
  split.
  - intros entries Hentries. do 2 eexists.
    exact (Hrun _ (collect_articles_all _ _ Hentries)).
  - intros article e Hin Hraise.
    destruct (collect_articles_first_failure _ _ _ Hin Hraise)
      as (article' & e' & Hin' & Hraise' & Hcollect).
    exists article', e'. repeat split; try assumption.
    exact (Hrun _ Hcollect).
Qed.

(** * Sessions *)

Section Sessions.

Variable env : Env.
Variable console : Console.

Lemma exchanges_responses (inputs : list string) :
  forall (h : list Turn) (past : list Event) (responses : list (option string)),
    List.length (snd (exchanges env inputs h past responses))
    = (List.length responses + List.length inputs)%nat.
Proof.
  induction inputs as [ | user_input inputs IH]; intros h past responses.
  - cbn. lia.
  - cbn [exchanges].
    destruct (chat_returns env user_input default_max_retries h past)
      as ([[response h'] evs] & ->).
    rewrite IH, length_app. cbn. lia.
Qed.

(** The rounds of the loop over lines that do not end the session. *)
Lemma interactive_loop_rounds (lines : list Line) :
  forall (fuel n : nat) (h : list Turn) (past : list Event)
         (responses : list (option string)),
    (forall k line, nth_error lines k = Some line ->
                    console_input console (n + k) = line) ->
    Forall (fun line => ends_session console line = false) lines ->
    interactive_loop env console (List.length lines + fuel) n h past responses
    = match exchanges env (questions console lines) h past responses with
      | (h', past', responses') =>
          interactive_loop env console fuel (n + List.length lines)
                           h' past' responses'
      end.
Proof.
  induction lines as [ | line lines IH];
    intros fuel n h past responses Hreads Hgo.
  - cbn. now rewrite Nat.add_0_r.
  - inversion Hgo as [ | ? ? Hline Hrest]; subst.
    assert (Hnext : forall k line', nth_error lines k = Some line' ->
                      console_input console (S n + k) = line').
    { intros k line' Hk. specialize (Hreads (S k) line' Hk).
      now rewrite Nat.add_succ_r in Hreads. }
    specialize (Hreads O line eq_refl). rewrite Nat.add_0_r in Hreads.
    cbn [List.length Nat.add interactive_loop]. rewrite Hreads.
    replace (n + S (List.length lines))%nat with (S n + List.length lines)%nat
      by lia.
    destruct line as [text | | e]; cbn [ends_session] in Hline;
      [ | discriminate | ].
    + cbv zeta. rewrite Hline. cbn [questions].
      destruct (console_strip console text) as [ | c user_input] eqn:Hstrip;
        cbn [blank].
      * now apply IH.
      * cbn [exchanges].
        destruct (chat_returns env (String c user_input) default_max_retries
                               h past)
          as ([[response h'] evs] & ->).
        now apply IH.
    + cbn [questions]. now apply IH.
Qed.

(** Once [input] has started to fail for good, no amount of rounds ends the
    loop. *)
Lemma interactive_loop_stuck (fuel : nat) :
  forall (n : nat) (h : list Turn) (past : list Event)
         (responses : list (option string)),
    (forall k, (n <= k)%nat -> exists e, console_input console k = InputFailed e) ->
    interactive_loop env console fuel n h past responses = None.
Proof.
  induction fuel as [ | fuel IH]; intros n h past responses Hfails;
    [reflexivity | ].
  cbn [interactive_loop].
  destruct (Hfails n (le_n n)) as (e & ->).
  apply IH. intros k Hk. apply Hfails. lia.
Qed.

End Sessions.

(** X15.  A session is a fold of [chat_with_function_calling] over the
    questions typed.  Let the first lines read be [lines], none of them a
    quit word or an interrupt, and let the next one be a quit word (in any
    case, with blanks around) or an interrupt.  Then
    [start_interactive_chat] reads exactly these lines and ends; blank
    lines and lines at which [input] raised are passed over without a call
    of the model; every other line is answered by one call of
    [chat_with_function_calling] with the default budget of three
    attempts, on the history the calls before it left, and gets exactly one
    response; and [main] starts this session on the empty history. *)
Theorem session_folds_exchanges :
  forall (env : Env) (console : Console) (lines : list Line) (fuel : nat)
         (h : list Turn) (past : list Event),
    reads console lines ->
    Forall (fun line => ends_session console line = false) lines ->
    ends_session console (console_input console (List.length lines)) = true ->
    (List.length lines < fuel)%nat ->
    exists (h' : list Turn) (past' : list Event)
           (responses : list (option string)),
      exchanges env (questions console lines) h past [] = (h', past', responses)
      /\ start_interactive_chat env console fuel h past
         = Some (mkSession h' past' responses (S (List.length lines)))
      /\ List.length responses = List.length (questions console lines)
      /\ (h = [] -> past = [] ->
          main env console (Ret tt) fuel
          = Some (Some (mkSession h' past' responses
                                  (S (List.length lines))))).
Proof.
  intros env console lines fuel h past Hreads Hgo Hend Hfuel.
  destruct (exchanges env (questions console lines) h past [])
    as [[h' past'] responses] eqn:Efold.
  exists h', past', responses. split; [reflexivity | ].
  assert (Hrun : start_interactive_chat env console fuel h past
                 = Some (mkSession h' past' responses (S (List.length lines)))).
  { unfold start_interactive_chat.
    replace fuel with (List.length lines + S (fuel - S (List.length lines)))%nat
      by lia.
    rewrite (interactive_loop_rounds env console lines); [ | exact Hreads | exact Hgo].
    rewrite Efold. cbn [Nat.add interactive_loop].
    destruct (console_input console (List.length lines)) as [text | | e];
      cbn [ends_session] in Hend; [ | reflexivity | discriminate].
    cbv zeta. now rewrite Hend. }
  split; [exact Hrun | ]. split.
  - pose proof (exchanges_responses env (questions console lines) h past [])
      as Hlen.
    rewrite Efold in Hlen. exact Hlen.
  - intros -> ->. unfold main. cbn. now rewrite Hrun.
Qed.

(** X16.  A session whose input has come to its end never finishes.
    [input] raises [EOFError] at the end of the input, the loop takes it
    for an error of the round, prints it and asks again: if after [lines]
    (none of them a quit word or an interrupt) every call of [input]
    raises an exception, [main] does not return, however many rounds it is
    given. *)
Theorem end_of_input_never_ends :
  forall (env : Env) (console : Console) (lines : list Line),
    reads console lines ->
    Forall (fun line => ends_session console line = false) lines ->
    (forall k, (List.length lines <= k)%nat ->
               exists e, console_input console k = InputFailed e) ->
    forall fuel : nat, main env console (Ret tt) fuel = None.
Proof.
  intros env console lines Hreads Hgo Hfails fuel.
  unfold main. cbn. unfold start_interactive_chat.
  destruct (Nat.le_gt_cases (List.length lines) fuel) as [Hle | Hgt].
  - replace fuel with (List.length lines + (fuel - List.length lines))%nat
      by lia.
    rewrite (interactive_loop_rounds env console lines); [ | exact Hreads | exact Hgo].
    destruct (exchanges env (questions console lines) [] [] [])
      as [[h' past'] responses].
    now rewrite interactive_loop_stuck.
  - assert (Hshort : forall (rounds n : nat) (h : list Turn)
                            (past : list Event)
                            (responses : list (option string)),
               (forall k, (k < rounds)%nat ->
                          ends_session console (console_input console (n + k))
                          = false) ->
               interactive_loop env console rounds n h past responses = None).
    { induction rounds as [ | rounds IH]; intros n h past responses Hquiet;
        [reflexivity | ].
      cbn [interactive_loop].
      assert (Hnext : forall k, (k < rounds)%nat ->
                        ends_session console (console_input console (S n + k))
                        = false).
      { intros k Hk. specialize (Hquiet (S k)).
        rewrite Nat.add_succ_r in Hquiet. apply Hquiet. lia. }
      specialize (Hquiet O). rewrite Nat.add_0_r in Hquiet.
      destruct (console_input console n) as [text | | e];
        cbn [ends_session] in Hquiet.
      - cbv zeta. rewrite Hquiet by lia.
        destruct (console_strip console text) as [ | c user_input];
          [now apply IH | ].
        destruct (chat_returns env (String c user_input) default_max_retries
                               h past)
          as ([[response h'] evs] & ->).
        now apply IH.
      - discriminate Hquiet. lia.
      - now apply IH. }
    rewrite Hshort; [reflexivity | ]. intros k Hk. cbn [Nat.add].
    destruct (nth_error lines k) as [line | ] eqn:Hline.
    + rewrite (Hreads k line Hline).
      rewrite Forall_forall in Hgo. apply Hgo.
      eapply nth_error_In. exact Hline.
    + apply nth_error_None in Hline. lia.
Qed.

(** * The payloads of the weather and of the mail *)

(** With a true value the second look at ["visibility"] finds what the
    first one found. *)
Lemma dict_get_again (obj : json) (key : string) (seen other : json) :
  dict_get obj key JNull = Ret seen ->
  truthy seen = true ->
  dict_get obj key other = Ret seen.
Proof.
  unfold dict_get. destruct obj; try discriminate.
  destruct (assoc key entries); [trivial | ].
  intros E. injection E as <-. discriminate.
Qed.

Lemma weather_fields_shape (env : Env) (data units : json)
      (fields : list (string * json)) :
  weather_fields env data units = Ret fields ->
  exists city country temp temperature feels feels_like humidity pressure
         weather weather0 description wind_speed seen visibility,
    getitem data "name" = Ret city
    /\ getitem2 data "sys" "country" = Ret country
    /\ getitem2 data "main" "temp" = Ret temp
    /\ round_to env temp 1 = Ret temperature
    /\ getitem2 data "main" "feels_like" = Ret feels
    /\ round_to env feels 1 = Ret feels_like
    /\ getitem2 data "main" "humidity" = Ret humidity
    /\ getitem2 data "main" "pressure" = Ret pressure
    /\ getitem data "weather" = Ret weather
    /\ getitem0 weather = Ret weather0
    /\ getitem weather0 "description" = Ret description
    /\ getitem2 data "wind" "speed" = Ret wind_speed
    /\ dict_get data "visibility" JNull = Ret seen
    /\ (truthy seen = false -> visibility = JStr "未知")
    /\ (truthy seen = true -> div1000 seen = Ret visibility)
    /\ fields = [("city", city);
                 ("country", country);
                 ("temperature", temperature);
                 ("feels_like", feels_like);
                 ("humidity", humidity);
                 ("pressure", pressure);
                 ("description", description);
                 ("wind_speed", wind_speed);
                 ("visibility", visibility);
                 ("units",
                  JStr (if eq_str units "metric" then "°C" else "°F"))].
Proof.
  unfold weather_fields. cbn [bind ret Monad_Outcome]. intros E.
  destruct (getitem data "name") as [city | ]; [ | discriminate E].
  destruct (getitem2 data "sys" "country") as [country | ];
    [ | discriminate E].
  destruct (getitem2 data "main" "temp") as [temp | ]; [ | discriminate E].
  destruct (round_to env temp 1) as [temperature | ] eqn:Htemperature;
    [ | discriminate E].
  destruct (getitem2 data "main" "feels_like") as [feels | ];
    [ | discriminate E].
  destruct (round_to env feels 1) as [feels_like | ] eqn:Hfeels;
    [ | discriminate E].
  destruct (getitem2 data "main" "humidity") as [humidity | ];
    [ | discriminate E].
  destruct (getitem2 data "main" "pressure") as [pressure | ];
    [ | discriminate E].
  destruct (getitem data "weather") as [weather | ]; [ | discriminate E].
  destruct (getitem0 weather) as [weather0 | ] eqn:Hfirst;
    [ | discriminate E].
  destruct (getitem weather0 "description") as [description | ]
    eqn:Hdescription; [ | discriminate E].
  destruct (getitem2 data "wind" "speed") as [wind_speed | ];
    [ | discriminate E].
  destruct (dict_get data "visibility" JNull) as [seen | ] eqn:Hseen;
    [ | discriminate E].
  destruct (truthy seen) eqn:Htruthy.
  - rewrite (dict_get_again _ _ _ _ Hseen Htruthy) in E.
    cbn [bind Monad_Outcome] in E.
    destruct (div1000 seen) as [visibility | ] eqn:Hdiv; [ | discriminate E].
    injection E as <-.
    exists city, country, temp, temperature, feels, feels_like, humidity,
           pressure, weather, weather0, description, wind_speed, seen,
           visibility.
    repeat split; try reflexivity; congruence.
  - injection E as <-.
    exists city, country, temp, temperature, feels, feels_like, humidity,
           pressure, weather, weather0, description, wind_speed, seen,
           (JStr "未知").
    repeat split; try reflexivity; congruence.
Qed.

(** X17.  The payload of a successful [get_real_weather], field by field.
    The one request was answered with a good status and a body, and the
    payload has eleven fields in this order: the city is the name the
    provider gave (not the one asked for); the temperature and the felt
    temperature are the provider's, rounded to one digit; country,
    humidity, pressure, description (of the first entry of ["weather"])
    and wind speed are the provider's as they are; the visibility is the
    word for unknown when the provider gave none or a false value such
    as 0, and the provider's value divided by 1000 otherwise; the unit
    label is the Celsius sign for the unit system ["metric"] and the
    Fahrenheit sign for every other value of [units], listed in the
    catalogue or not. *)
Theorem get_real_weather_payload :
  forall (env : Env) (city units : json) (past : list Event) (data : json),
    fst (get_real_weather env city units past) = Ret (success data) ->
    exists (response : HttpResponse) (provided : json)
           (name country temp temperature feels feels_like humidity pressure
            weather weather0 description wind_speed seen visibility : json)
           (timestamp : string),
      env_requests_get env past
        "http://api.openweathermap.org/data/2.5/weather"
        [("q", city);
         ("appid", JStr (getenv env "OPENWEATHER_API_KEY"
                                "your_openweather_api_key"));
         ("units", units);
         ("lang", JStr "zh_cn")]
      = Ret response
      /\ status response = Ret tt
      /\ body response = Ret provided
      /\ getitem provided "name" = Ret name
      /\ getitem2 provided "sys" "country" = Ret country
      /\ getitem2 provided "main" "temp" = Ret temp
      /\ round_to env temp 1 = Ret temperature
      /\ getitem2 provided "main" "feels_like" = Ret feels
      /\ round_to env feels 1 = Ret feels_like
      /\ getitem2 provided "main" "humidity" = Ret humidity
      /\ getitem2 provided "main" "pressure" = Ret pressure
      /\ getitem provided "weather" = Ret weather
      /\ getitem0 weather = Ret weather0
      /\ getitem weather0 "description" = Ret description
      /\ getitem2 provided "wind" "speed" = Ret wind_speed
      /\ dict_get provided "visibility" JNull = Ret seen
      /\ (truthy seen = false -> visibility = JStr "未知")
      /\ (truthy seen = true -> div1000 seen = Ret visibility)
      /\ data = JDict [("city", name);
                       ("country", country);
                       ("temperature", temperature);
                       ("feels_like", feels_like);
                       ("humidity", humidity);
                       ("pressure", pressure);
                       ("description", description);
                       ("wind_speed", wind_speed);
                       ("visibility", visibility);
                       ("units",
                        JStr (if eq_str units "metric" then "°C" else "°F"));
                       ("timestamp", JStr timestamp)].
Proof.
  intros env city units past data.
  unfold get_real_weather, requests_get, perform, try_except, pure, now.
  cbv zeta. cbn [bind ret Monad_IO].
  destruct (env_requests_get env past _ _) as [[st bd] | e] eqn:Hget;
    cbn [status body];
    [destruct st as [[] | e]; [destruct bd as [provided | e];
       [destruct (weather_fields env provided units) as [fields | e]
          eqn:Hfields
       | ] | ] | ];
    try destruct (exc_class e); cbn; intros E; try discriminate E.
  apply weather_fields_shape in Hfields
    as (name & country & temp & temperature & feels & feels_like & humidity
        & pressure & weather & weather0 & description & wind_speed & seen
        & visibility & H1 & H2 & H3 & H4 & H5 & H6 & H7 & H8 & H9 & H10
        & H11 & H12 & H13 & H14 & H15 & ->).
  injection E as <-.
  exists (mkHttpResponse (Ret tt) (Ret provided)), provided, name, country,
         temp, temperature, feels, feels_like, humidity, pressure, weather,
         weather0, description, wind_speed, seen, visibility.
  eexists. repeat split; try eassumption.
Qed.


(** * The further properties on sample worlds *)

Lemma scripted_dumps (script : list (Outcome ChatCompletion)) (otherwise : Exc)
      (parsed : list (list (string * string))) (history : list Bar)
      (result : json) :
  is_ret (env_json_dumps (scripted script otherwise parsed history) result)
  = true.
Proof.
  cbn.
  repeat match goal with
         | |- context [match ?x with _ => _ end] => destruct x; try reflexivity
         end.
Qed.

(** The mail exchange: the history has grown by the user turn and six
    turns of the loop. *)
Lemma history_only_grows_witness :
  exists new : list Turn,
    mail_leftover
    ++ [assistant_tool_turn mail_request [mail_call];
        tool_turn "{success: true}" mail_call;
        assistant_turn (Some "The mail is sent.")]
    = [] ++ user_turn "Write to Ann." :: new
    /\ Forall (fun turn => role turn = "assistant" \/ role turn = "tool") new
    /\ forall with_tools messages out,
         In (EvModelCall with_tools messages out)
            [EvModelCall true [user_turn "Write to Ann."]
               (Ret (mkChatCompletion [mail_request]));
             EvSmtp mail_session (Ret tt);
             EvModelCall false mail_leftover (Raise too_many_requests);
             EvSleep 2;
             EvModelCall true mail_leftover
               (Ret (mkChatCompletion [mail_request]));
             EvSmtp mail_session (Ret tt);
             EvModelCall false
               (mail_leftover
                ++ [assistant_tool_turn mail_request [mail_call];
                    tool_turn "{success: true}" mail_call])
               (Ret (mkChatCompletion [mail_answer]))] ->
         exists seen later,
           messages = [] ++ user_turn "Write to Ann." :: seen
           /\ new = seen ++ later.
Proof.
  exact (history_only_grows mail_world "Write to Ann." default_max_retries
           [] [] _ _ _ mail_exchange).
Defined.

(** Three attempts against a rate limit: three calls, waits of 2, 4, 8. *)
Lemma attempt_budget_bounds_witness :
  (List.length (filter offers_tools limited_events)
   <= Z.to_nat default_max_retries)%nat
  /\ (List.length (filter final_call limited_events)
      <= List.length (filter offers_tools limited_events))%nat
  /\ (List.length (waits limited_events) <= Z.to_nat default_max_retries)%nat
  /\ Forall (fun w => (2 <= w <= 2 ^ default_max_retries)%Z)
            (waits limited_events)
  /\ StronglySorted Z.lt (waits limited_events)
  /\ ((default_max_retries <= 0)%Z ->
      Some exhausted = Some exhausted
      /\ [user_turn "hello"] = [] ++ [user_turn "hello"]
      /\ limited_events = []).
Proof.
  apply (attempt_budget_bounds limited_world "hello" default_max_retries
           [] [] (Some exhausted) [user_turn "hello"] limited_events).
  vm_compute. reflexivity.
Defined.

(** The pass of the weather question. *)
Lemma tool_failures_do_not_abort_witness :
  exists (texts : list string) (tool_evs : list Event)
         (out : Outcome ChatCompletion) (tail : list Turn),
    Forall2 (reports paris_world) texts (requested paris_request)
    /\ Forall tool_event tool_evs
    /\ snd (attempt paris_world [user_turn paris_question] [])
       = EvModelCall true [user_turn paris_question]
                     (Ret (mkChatCompletion [paris_request]))
         :: tool_evs
         ++ [EvModelCall false
               ([user_turn paris_question]
                ++ assistant_tool_turn paris_request (requested paris_request)
                :: tool_turns texts (requested paris_request))
               out]
    /\ snd (fst (attempt paris_world [user_turn paris_question] []))
       = [user_turn paris_question]
         ++ assistant_tool_turn paris_request (requested paris_request)
         :: tool_turns texts (requested paris_request) ++ tail.
Proof.
  apply (tool_failures_do_not_abort paris_world [user_turn paris_question] []
           (mkChatCompletion [paris_request]) paris_request).
  - reflexivity.
  - reflexivity.
  - discriminate.
  - intros call [<- | []]. vm_compute. reflexivity.
  - intros result. apply scripted_dumps.
Defined.

(** The weather is fetched, the message is not parsed, and neither it nor
    the mail after it is sent: the one tool event is the request for the
    weather, and the exchange ends with the apology. *)
Lemma malformed_arguments_abort_witness :
  exists (texts : list string) (tool_evs : list Event),
    Forall2 (reports garbled_world) texts [paris_call]
    /\ dispatched garbled_world
                  ([] ++ [EvModelCall
                            true ([] ++ [user_turn "Weather, and tell Ann."])
                            (Ret (mkChatCompletion [garbled_request]))])
                  [paris_call] (Ret tt) texts tool_evs
    /\ chat_with_function_calling garbled_world "Weather, and tell Ann."
                                  default_max_retries [] []
       = Some (Some ("抱歉，我遇到了技术问题：" +++ exc_str expecting_value),
               [] ++ user_turn "Weather, and tell Ann."
                  :: assistant_tool_turn garbled_request
                       ([paris_call] ++ garbled_call :: [mail_call])
                  :: tool_turns texts [paris_call],
               EvModelCall true ([] ++ [user_turn "Weather, and tell Ann."])
                           (Ret (mkChatCompletion [garbled_request]))
               :: tool_evs)
    /\ tool_evs
       = [EvHttpGet "http://api.openweathermap.org/data/2.5/weather"
            [("q", JStr "Paris");
             ("appid", JStr "your_openweather_api_key");
             ("units", JStr "metric");
             ("lang", JStr "zh_cn")]
            (Ret (mkHttpResponse (Ret tt) (Ret paris_weather)))].
Proof.
  destruct (malformed_arguments_abort
              garbled_world "Weather, and tell Ann."
              default_max_retries [] [] (mkChatCompletion [garbled_request])
              garbled_request [paris_call] [mail_call] garbled_call
              expecting_value)
    as (texts & tool_evs & Hreports & _ & Hdispatched & Hrun).
  - vm_compute. discriminate.
  - reflexivity.
  - reflexivity.
  - reflexivity.
  - intros call [<- | []]. vm_compute. reflexivity.
  - intros result. apply scripted_dumps.
  - vm_compute. reflexivity.
  - reflexivity.
  - exists texts, tool_evs. repeat split; try assumption.
    assert (Hevs :
      snd (match chat_with_function_calling
                   garbled_world "Weather, and tell Ann."
                   default_max_retries [] [] with
           | Some run => run
           | None => (None, [], [])
           end)
      = [EvModelCall true [user_turn "Weather, and tell Ann."]
           (Ret (mkChatCompletion [garbled_request]));
         EvHttpGet "http://api.openweathermap.org/data/2.5/weather"
           [("q", JStr "Paris");
            ("appid", JStr "your_openweather_api_key");
            ("units", JStr "metric");
            ("lang", JStr "zh_cn")]
           (Ret (mkHttpResponse (Ret tt) (Ret paris_weather)))])
      by (vm_compute; reflexivity).
    rewrite Hrun in Hevs. cbn [snd app] in Hevs. now injection Hevs.
Defined.

(** The weather tool called with the city only: the unit system is the
    default of the catalogue. *)
Lemma catalogue_arguments_reach_method_witness :
  exists method : IO ToolResult,
    positional_call paris_world "get_real_weather"
                    [JStr "Paris"; JStr "metric"]
    = Some method
    /\ execute_function_call paris_world "get_real_weather"
                             (JDict [("city", JStr "Paris")]) []
       = method [].
Proof.
  apply (catalogue_arguments_reach_method paris_world (tool 0)
           [("city", JStr "Paris")] []).
  - left. reflexivity.
  - reflexivity.
Defined.

(** A mail without content. *)
Lemma catalogue_rejects_other_arguments_witness :
  exists message : string,
    execute_function_call paris_world "send_email"
                          (JDict [("to", JStr "ann@example.org");
                                  ("subject", JStr "Hello")]) []
    = (Ret (failure ("函数参数错误: " +++ message)), []).
Proof.
  apply (catalogue_rejects_other_arguments paris_world (tool 3)
           (JDict [("to", JStr "ann@example.org"); ("subject", JStr "Hello")])
           []).
  - do 3 right. left. reflexivity.
  - intros d E. injection E as <-. reflexivity.
Defined.

(** The weather of Paris: one request, answered. *)
Lemma success_means_delivered_witness :
  delivered paris_world "get_real_weather" (JDict [("city", JStr "Paris")])
            (snd (execute_function_call paris_world "get_real_weather"
                    (JDict [("city", JStr "Paris")]) [])).
Proof.
  apply (success_means_delivered paris_world "get_real_weather"
           (JDict [("city", JStr "Paris")]) [] paris_report).
  vm_compute. reflexivity.
Defined.

(** Six good articles: the first five are reported. *)
Lemma search_news_all_or_nothing_witness :
  exists total timestamp,
    fst (search_news news_world (JStr "AI") (JStr "technology") (JStr "us") [])
    = Ret (success (JDict [("query", JStr "AI");
                           ("total_results", total);
                           ("articles",
                            JList (map headline ["1"; "2"; "3"; "4"; "5"]));
                           ("timestamp", JStr timestamp)])).
Proof.
  destruct (search_news_all_or_nothing
              news_world (JStr "AI") (JStr "technology") (JStr "us") []
              (mkHttpResponse (Ret tt) (Ret six_articles))
              six_articles_entries
              (map article ["1"; "2"; "3"; "4"; "5"; "6"])
              eq_refl eq_refl eq_refl eq_refl)
    as [Hall _].
  apply Hall. repeat constructor.
Defined.

(** A greeting, a blank line and [quit]: one exchange. *)
Lemma session_folds_exchanges_witness :
  exists (h' : list Turn) (past' : list Event)
         (responses : list (option string)),
    exchanges greeting_world (questions short_console short_session) [] [] []
    = (h', past', responses)
    /\ start_interactive_chat greeting_world short_console 5 [] []
       = Some (mkSession h' past' responses (S (List.length short_session)))
    /\ List.length responses
       = List.length (questions short_console short_session)
    /\ (@nil Turn = [] -> @nil Event = [] ->
        main greeting_world short_console (Ret tt) 5
        = Some (Some (mkSession h' past' responses
                                (S (List.length short_session))))).
Proof.
  apply (session_folds_exchanges greeting_world short_console short_session 5
           [] []).
  - intros [ | [ | [ | k]]] line E; cbn in E; try discriminate E;
      injection E as <-; reflexivity.
  - repeat constructor.
  - reflexivity.
  - cbn. lia.
Defined.

(** After a greeting the input is closed: a thousand rounds do not end the
    session. *)
Lemma end_of_input_never_ends_witness :
  main greeting_world closed_console (Ret tt) 1000 = None.
Proof.
  apply (end_of_input_never_ends greeting_world closed_console [Typed "Hi"]).
  - intros [ | [ | k]] line E; cbn in E; try discriminate E;
      injection E as <-; reflexivity.
  - repeat constructor.
  - intros [ | k] Hk; [cbn in Hk; lia | ].
    exists end_of_input. cbn. now destruct k.
Defined.

(** The report for Paris: a visibility of 10000 is reported as 10. *)
Lemma get_real_weather_payload_witness :
  exists (response : HttpResponse) (provided : json)
         (name country temp temperature feels feels_like humidity pressure
          weather weather0 description wind_speed seen visibility : json)
         (timestamp : string),
    env_requests_get paris_world []
      "http://api.openweathermap.org/data/2.5/weather"
      [("q", JStr "Paris");
       ("appid", JStr (getenv paris_world "OPENWEATHER_API_KEY"
                              "your_openweather_api_key"));
       ("units", JStr "metric");
       ("lang", JStr "zh_cn")]
    = Ret response
    /\ status response = Ret tt
    /\ body response = Ret provided
    /\ getitem provided "name" = Ret name
    /\ getitem2 provided "sys" "country" = Ret country
    /\ getitem2 provided "main" "temp" = Ret temp
    /\ round_to paris_world temp 1 = Ret temperature
    /\ getitem2 provided "main" "feels_like" = Ret feels
    /\ round_to paris_world feels 1 = Ret feels_like
    /\ getitem2 provided "main" "humidity" = Ret humidity
    /\ getitem2 provided "main" "pressure" = Ret pressure
    /\ getitem provided "weather" = Ret weather
    /\ getitem0 weather = Ret weather0
    /\ getitem weather0 "description" = Ret description
    /\ getitem2 provided "wind" "speed" = Ret wind_speed
    /\ dict_get provided "visibility" JNull = Ret seen
    /\ (truthy seen = false -> visibility = JStr "未知")
    /\ (truthy seen = true -> div1000 seen = Ret visibility)
    /\ paris_report
       = JDict [("city", name);
                ("country", country);
                ("temperature", temperature);
                ("feels_like", feels_like);
                ("humidity", humidity);
                ("pressure", pressure);
                ("description", description);
                ("wind_speed", wind_speed);
                ("visibility", visibility);
                ("units",
                 JStr (if eq_str (JStr "metric") "metric"
                       then "°C" else "°F"));
                ("timestamp", JStr timestamp)].
Proof.
  apply (get_real_weather_payload paris_world (JStr "Paris") (JStr "metric") []
                                  paris_report).
  vm_compute. reflexivity.
Defined.
